(* ===================================================================== *)
(*  Airevive: risk scoring, alert persistence and the offline outbox     *)
(*                                                                       *)
(*  A shallow embedding of src/ai_estimator.py (class AIHealthEstimator) *)
(*  and src/scripts/offline_sync.py (class OfflineSync).                 *)
(*                                                                       *)
(*  Conventions of the embedding                                         *)
(*  - Python floats are read as exact rationals (Q); equalities between  *)
(*    scores are therefore stated with == (Qeq).  Only statements that   *)
(*    rounding cannot break are made of them; where rounding decides,    *)
(*    the scoring function is evaluated in binary64 (module Float64).    *)
(*  - Python dicts keyed by strings are gmap string _.                   *)
(*  - A raised exception is the Raise branch of [result].                *)
(*  - datetime.now(), SQLite's CURRENT_TIMESTAMP, the connectivity probe *)
(*    and the remote server's answers are inputs of the functions that   *)
(*    read them.                                                         *)
(*  - The database file is the state of its four tables; a statement on  *)
(*    an existing table is taken to execute (no I/O error, no engine     *)
(*    limit reached), so the except branches of the store are reached    *)
(*    only through a table name SQLite does not know.                    *)
(* ===================================================================== *)

From Stdlib Require Import ZArith QArith Qminmax Lqa Lia Bool List.
From Stdlib Require Import Sorting.Sorted Sorting.Permutation.
From Stdlib Require Import Strings.String Strings.Ascii.
From Corelib Require PrimFloat.
From stdpp Require Import gmap strings.
Import ListNotations.

(* --------------------------------------------------------------------- *)
(*  Python-level plumbing                                                *)
(* --------------------------------------------------------------------- *)

Inductive exn : Type :=
| KeyError (key : string).

Inductive result (A : Type) : Type :=
| Ok (a : A)
| Raise (e : exn).
Arguments Ok {A} a.
Arguments Raise {A} e.

(* str.startswith *)
Definition startswith (s p : string) : bool := String.prefix p s.

Module AIHealthEstimator.

Local Open Scope Q_scope.

(* The four risk levels; the source carries them as the strings
   'low', 'moderate', 'high', 'critical'. *)
Inductive risk_level : Type := Low | Moderate | High | Critical.

Definition risk_level_str (r : risk_level) : string :=
  match r with
  | Low => "low"
  | Moderate => "moderate"
  | High => "high"
  | Critical => "critical"
  end%string.

Definition risk_level_eqb (a b : risk_level) : bool :=
  match a, b with
  | Low, Low | Moderate, Moderate | High, High | Critical, Critical => true
  | _, _ => false
  end.

(* One entry of health_impact_factors. *)
Record thresholds : Type := {
  th_low : Q;
  th_moderate : Q;
  th_high : Q;
  th_critical : Q
}.

Definition co2_thresholds : thresholds :=
  {| th_low := 400; th_moderate := 800; th_high := 1000; th_critical := 5000 |}.
Definition no2_thresholds : thresholds :=
  {| th_low := 40; th_moderate := 100; th_high := 200; th_critical := 400 |}.
Definition so2_thresholds : thresholds :=
  {| th_low := 20; th_moderate := 125; th_high := 500; th_critical := 1000 |}.

Definition health_impact_factors : gmap string thresholds :=
  <["co2"%string := co2_thresholds]>
  (<["no2"%string := no2_thresholds]>
  (<["so2"%string := so2_thresholds]> ∅)).

Definition alert_persistence_threshold : Q := 10.

(* _get_health_effects: effects.get(gas, {}).get(risk_level, ['Unknown effects']) *)
Definition effects_table : gmap string (risk_level -> list string) :=
  <["co2" := fun r => match r with
     | Low => ["Normal breathing"; "No immediate effects"]
     | Moderate => ["Mild drowsiness"; "Reduced concentration"]
     | High => ["Drowsiness"; "Stuffiness"; "Poor air quality"]
     | Critical => ["Immediate danger"; "Loss of consciousness"; "Asphyxiation risk"]
     end]>
  (<["no2" := fun r => match r with
     | Low => ["No immediate effects"]
     | Moderate => ["Mild respiratory irritation"]
     | High => ["Respiratory irritation"; "Reduced lung function"; "Increased infection risk"]
     | Critical => ["Severe respiratory distress"; "Pulmonary edema"; "Death risk"]
     end]>
  (<["so2" := fun r => match r with
     | Low => ["No immediate effects"]
     | Moderate => ["Throat irritation"; "Coughing"]
     | High => ["Severe respiratory irritation"; "Breathing difficulties"; "Chest tightness"]
     | Critical => ["Severe breathing problems"; "Pulmonary edema"; "Cardiovascular stress"]
     end]> ∅))%string.

Definition _get_health_effects (gas : string) (r : risk_level) : list string :=
  match effects_table !! gas with
  | Some per_level => per_level r
  | None => ["Unknown effects"%string]
  end.

(* _get_recommended_actions *)
Definition actions_table : gmap string (risk_level -> list string) :=
  <["co2" := fun r => match r with
     | Low => ["Continue normal operations"; "Monitor levels"]
     | Moderate => ["Increase ventilation"; "Monitor sensitive individuals"]
     | High => ["Improve ventilation immediately"; "Consider reducing occupancy"]
     | Critical => ["Evacuate area immediately"; "Emergency ventilation"; "Medical attention"]
     end]>
  (<["no2" := fun r => match r with
     | Low => ["Continue monitoring"]
     | Moderate => ["Limit outdoor activities for sensitive groups"]
     | High => ["Avoid outdoor activities"; "Use air purifiers"; "Seek medical advice if symptoms"]
     | Critical => ["Emergency evacuation"; "Immediate medical attention"; "Shut down emission sources"]
     end]>
  (<["so2" := fun r => match r with
     | Low => ["Continue monitoring"]
     | Moderate => ["Limit exposure for sensitive individuals"]
     | High => ["Avoid area"; "Use respiratory protection"; "Seek medical attention"]
     | Critical => ["Emergency evacuation"; "Emergency medical care"; "Immediate source shutdown"]
     end]> ∅))%string.

Definition _get_recommended_actions (gas : string) (r : risk_level) : list string :=
  match actions_table !! gas with
  | Some per_level => per_level r
  | None => ["Consult environmental specialist"%string]
  end.

(* The dict returned by calculate_individual_gas_risk. *)
Record RiskAssessment : Type := {
  ra_gas : string;
  ra_level : Q;
  ra_risk_level : risk_level;
  ra_risk_score : Q;
  ra_health_effects : list string;
  ra_recommended_actions : list string
}.

(* The if/elif chain that picks the band and the raw score. *)
Definition band_and_score (t : thresholds) (level : Q) : risk_level * Q :=
  if Qle_bool level (th_low t) then
    (Low, (level / th_low t) * 25)
  else if Qle_bool level (th_moderate t) then
    (Moderate, 25 + ((level - th_low t) / (th_moderate t - th_low t)) * 25)
  else if Qle_bool level (th_high t) then
    (High, 50 + ((level - th_moderate t) / (th_high t - th_moderate t)) * 30)
  else
    (Critical,
     80 + Qmin (((level - th_high t) / (th_critical t - th_high t)) * 20) 20).

(* thresholds = self.health_impact_factors[gas] raises KeyError for a gas
   that is not in the table. *)
Definition calculate_individual_gas_risk (gas : string) (level : Q)
  : result RiskAssessment :=
  match health_impact_factors !! gas with
  | None => Raise (KeyError gas)
  | Some t =>
      let '(rl, risk_score) := band_and_score t level in
      Ok {| ra_gas := gas;
            ra_level := level;
            ra_risk_level := rl;
            ra_risk_score := Qmin risk_score 100;
            ra_health_effects := _get_health_effects gas rl;
            ra_recommended_actions := _get_recommended_actions gas rl |}
  end.

(* ------------------------------------------------------------------- *)
(*  check_alerts                                                       *)
(* ------------------------------------------------------------------- *)

(* A datetime is its number of microseconds since the epoch (the
   resolution of Python's datetime). *)
Definition datetime : Type := Z.

(* (a - b).total_seconds() / 60 *)
Definition minutes_between (start_time current_time : datetime) : Q :=
  (inject_Z (current_time - start_time) / 1000000) / 60.

(* A value of self.active_alerts. *)
Record AlertCandidate : Type := {
  ac_start_time : datetime;
  ac_gas : string;
  ac_level : Q;
  ac_risk_level : risk_level;
  ac_risk_score : Q
}.

(* An element of the list check_alerts returns.  The 'message' entry (a
   float formatted to one decimal) and the 'timestamp' entry that
   _save_alerts_to_history adds are left out. *)
Record Alert : Type := {
  al_gas : string;
  al_level : Q;
  al_risk_level : risk_level;
  al_risk_score : Q;
  al_duration_minutes : Q;
  al_severity : string;
  al_health_effects : list string;
  al_recommended_actions : list string
}.

(* f"{gas}_{risk_level}" *)
Definition alert_key (gas : string) (r : risk_level) : string :=
  (gas ++ "_" ++ risk_level_str r)%string.

(* list(self.active_alerts.keys()) *)
Definition keys (active_alerts : gmap string AlertCandidate) : list string :=
  (map_to_list active_alerts).*1.

(* for key in alert_keys_to_remove: del self.active_alerts[key] *)
Definition del_keys (active_alerts : gmap string AlertCandidate)
    (ks : list string) : gmap string AlertCandidate :=
  fold_left (fun m key => delete key m) ks active_alerts.

Definition severity_of (r : risk_level) : string :=
  match r with Critical => "critical" | _ => "warning" end%string.

(* The body of the loop `for gas in ['co2', 'no2', 'so2']`, acting on
   self.active_alerts and on the local list alerts. *)
Definition check_gas (current_time : datetime) (readings : gmap string Q)
    (gas : string) (st : gmap string AlertCandidate * list Alert)
  : result (gmap string AlertCandidate * list Alert) :=
  let '(active_alerts, alerts) := st in
  match readings !! gas with
  | None => Ok (active_alerts, alerts)
  | Some level =>
    match calculate_individual_gas_risk gas level with
    | Raise e => Raise e
    | Ok risk_assessment =>
      let rl := ra_risk_level risk_assessment in
      if risk_level_eqb rl High || risk_level_eqb rl Critical then
        let key := alert_key gas rl in
        let active_alerts' :=
          match active_alerts !! key with
          | Some _ => active_alerts
          | None =>
              <[key := {| ac_start_time := current_time;
                          ac_gas := gas;
                          ac_level := level;
                          ac_risk_level := rl;
                          ac_risk_score := ra_risk_score risk_assessment |}]>
                active_alerts
          end in
        match active_alerts' !! key with
        | None => Raise (KeyError key)
        | Some cand =>
          let alert_duration := minutes_between (ac_start_time cand) current_time in
          if Qle_bool alert_persistence_threshold alert_duration then
            Ok (active_alerts',
                alerts ++
                [{| al_gas := gas;
                    al_level := level;
                    al_risk_level := rl;
                    al_risk_score := ra_risk_score risk_assessment;
                    al_duration_minutes := alert_duration;
                    al_severity := severity_of rl;
                    al_health_effects := ra_health_effects risk_assessment;
                    al_recommended_actions :=
                      ra_recommended_actions risk_assessment |}])
          else Ok (active_alerts', alerts)
        end
      else
        let alert_keys_to_remove :=
          List.filter (fun key => startswith key gas) (keys active_alerts) in
        Ok (del_keys active_alerts alert_keys_to_remove, alerts)
    end
  end.

Definition gases : list string := ["co2"; "no2"; "so2"]%string.

Fixpoint check_gases (current_time : datetime) (readings : gmap string Q)
    (gs : list string) (st : gmap string AlertCandidate * list Alert)
  : result (gmap string AlertCandidate * list Alert) :=
  match gs with
  | [] => Ok st
  | gas :: gs' =>
      match check_gas current_time readings gas st with
      | Raise e => Raise e
      | Ok st' => check_gases current_time readings gs' st'
      end
  end.

(* check_alerts: current_time is the value datetime.now() returns at its
   first line; the result pairs the returned list with the new
   self.active_alerts.  _save_alerts_to_history only writes the history
   file, inside a try/except that swallows every error. *)
Definition check_alerts (active_alerts : gmap string AlertCandidate)
    (readings : gmap string Q) (current_time : datetime)
  : result (list Alert * gmap string AlertCandidate) :=
  match check_gases current_time readings gases (active_alerts, []) with
  | Raise e => Raise e
  | Ok (active_alerts', alerts) => Ok (alerts, active_alerts')
  end.

(* A run of evaluation ticks: each tick is the clock value and the
   readings passed to check_alerts; the run collects what every call
   returned. *)
Definition tick : Type := datetime * gmap string Q.

Fixpoint run_ticks (active_alerts : gmap string AlertCandidate)
    (ticks : list tick)
  : result (list (list Alert) * gmap string AlertCandidate) :=
  match ticks with
  | [] => Ok ([], active_alerts)
  | (current_time, readings) :: rest =>
      match check_alerts active_alerts readings current_time with
      | Raise e => Raise e
      | Ok (alerts, active_alerts') =>
          match run_ticks active_alerts' rest with
          | Raise e => Raise e
          | Ok (outs, final) => Ok (alerts :: outs, final)
          end
      end
  end.

(* ------------------------------------------------------------------- *)
(*  calculate_overall_risk and calculate_audit_score                   *)
(* ------------------------------------------------------------------- *)




(* The loop of calculate_audit_score over audit_score. *)
Fixpoint deduct_risks (readings : gmap string Q) (gs : list string)
    (audit_score : Z) : result Z :=
  match gs with
  | [] => Ok audit_score
  | gas :: gs' =>
      match readings !! gas with
      | None => deduct_risks readings gs' audit_score
      | Some level =>
          match calculate_individual_gas_risk gas level with
          | Raise e => Raise e
          | Ok risk_assessment =>
              deduct_risks readings gs'
                (match ra_risk_level risk_assessment with
                 | Moderate => audit_score - 10
                 | High => audit_score - 25
                 | Critical => audit_score - 40
                 | Low => audit_score
                 end)%Z
          end
      end
  end.

Definition calculate_audit_score (readings : gmap string Q) : result Z :=
  match deduct_risks readings gases 100%Z with
  | Raise e => Raise e
  | Ok audit_score => Ok (Z.max 0 audit_score)
  end.

End AIHealthEstimator.

(* ===================================================================== *)
(*  calculate_individual_gas_risk in binary64                            *)
(* ===================================================================== *)

Module Float64.
Import PrimFloat.
Import AIHealthEstimator.
Local Open Scope float_scope.

(* One entry of health_impact_factors, its integers read as floats (what
   Python does with an int operand of a float comparison or division; all
   of them are exact in binary64). *)
Record thresholds : Type := {
  th_low : float;
  th_moderate : float;
  th_high : float;
  th_critical : float
}.

Definition health_impact_factors : gmap string thresholds :=
  <["co2"%string :=
      {| th_low := 400; th_moderate := 800; th_high := 1000; th_critical := 5000 |}]>
  (<["no2"%string :=
      {| th_low := 40; th_moderate := 100; th_high := 200; th_critical := 400 |}]>
  (<["so2"%string :=
      {| th_low := 20; th_moderate := 125; th_high := 500; th_critical := 1000 |}]> ∅)).

(* Python's min(a, b): b when b < a, else a. *)
Definition py_min (a b : float) : float := if ltb b a then b else a.

Definition band_and_score (t : thresholds) (level : float) : risk_level * float :=
  if leb level (th_low t) then
    (Low, (level / th_low t) * 25)
  else if leb level (th_moderate t) then
    (Moderate, 25 + ((level - th_low t) / (th_moderate t - th_low t)) * 25)
  else if leb level (th_high t) then
    (High, 50 + ((level - th_moderate t) / (th_high t - th_moderate t)) * 30)
  else
    (Critical,
     80 + py_min (((level - th_high t) / (th_critical t - th_high t)) * 20) 20).

(* The 'risk_level' and 'risk_score' entries of the returned dict. *)
Definition calculate_individual_gas_risk (gas : string) (level : float)
  : result (risk_level * float) :=
  match health_impact_factors !! gas with
  | None => Raise (KeyError gas)
  | Some t =>
      let '(rl, risk_score) := band_and_score t level in
      Ok (rl, py_min risk_score 100)
  end.

(* The smallest positive double (5e-324) and the smallest positive normal
   double (sys.float_info.min, 2.2250738585072014e-308). *)
Definition smallest_subnormal : float := 0x1p-1074.
Definition smallest_normal : float := 0x1p-1022.

(* 0 <= score <= 100 and score < 0, as Python evaluates them. *)
Definition in_range (score : float) : bool := leb 0 score && leb score 100.
Definition negative (score : float) : bool := ltb score 0.

End Float64.

(* ===================================================================== *)
(*  src/ai_estimator.py, class AISuggestionEngine                        *)
(* ===================================================================== *)

Module AISuggestionEngine.

Local Open Scope Q_scope.
Local Open Scope string_scope.

(* int(x) of a float: truncation toward zero. *)
Definition py_int (x : Q) : Z := Z.quot (Qnum x) (Zpos (Qden x)).

(* An entry of suggestions_db. *)
Record suggestion : Type := {
  sg_id : string;
  sg_title : string;
  sg_factory_types : list string;
  sg_expected_impact : string;
  sg_implementation_time : string;
  sg_cost : string;
  sg_priority_base : Z
}.

Definition mk (i t : string) (f : list string) (imp tm c : string) (p : Z)
  : suggestion :=
  {| sg_id := i; sg_title := t; sg_factory_types := f;
     sg_expected_impact := imp; sg_implementation_time := tm; sg_cost := c;
     sg_priority_base := p |}.

(* _initialize_suggestions_db, in the order the dict is written (the
   'description' texts are left out). *)
Definition suggestions_db : list (string * list suggestion) :=
  [ ("co2_reduction",
     [ mk "co2_001" "Optimize Combustion Efficiency"
          ["Coal Power Plant"; "Steel Mill"; "Cement Factory"]
          "15-25% CO₂ reduction" "2-4 weeks" "Medium" 8;
       mk "co2_002" "Install Carbon Capture System"
          ["Coal Power Plant"; "Cement Factory"]
          "80-90% CO₂ reduction" "6-12 months" "High" 9;
       mk "co2_003" "Switch to Renewable Energy"
          ["Textile Factory"; "Chemical Plant"]
          "70-95% CO₂ reduction" "3-6 months" "High" 10 ]);
    ("no2_reduction",
     [ mk "no2_001" "Install Selective Catalytic Reduction (SCR)"
          ["Coal Power Plant"; "Steel Mill"]
          "80-95% NOx reduction" "3-6 months" "High" 9;
       mk "no2_002" "Optimize Combustion Temperature"
          ["Coal Power Plant"; "Steel Mill"; "Cement Factory"]
          "20-40% NOx reduction" "1-2 weeks" "Low" 7;
       mk "no2_003" "Implement Low-NOx Burners"
          ["Coal Power Plant"; "Chemical Plant"]
          "30-50% NOx reduction" "4-8 weeks" "Medium" 8 ]);
    ("so2_reduction",
     [ mk "so2_001" "Install Flue Gas Desulfurization (FGD)"
          ["Coal Power Plant"; "Steel Mill"]
          "90-99% SO₂ reduction" "4-8 months" "High" 10;
       mk "so2_002" "Switch to Low-Sulfur Fuel"
          ["Coal Power Plant"; "Steel Mill"; "Cement Factory"]
          "50-80% SO₂ reduction" "1-4 weeks" "Medium" 8;
       mk "so2_003" "Implement Sorbent Injection"
          ["Coal Power Plant"; "Cement Factory"]
          "60-80% SO₂ reduction" "2-6 weeks" "Medium" 7 ]);
    ("general",
     [ mk "gen_001" "Implement Real-time Monitoring"
          ["All"]
          "10-20% overall reduction through better control" "2-4 weeks"
          "Medium" 6;
       mk "gen_002" "Regular Equipment Maintenance"
          ["All"]
          "5-15% improvement in control efficiency" "1 week" "Low" 5 ]) ].

(* An entry of learning_data['feedback_history']. *)
Record feedback_entry : Type := {
  fb_suggestion_id : string;
  fb_feedback_type : string;
  fb_timestamp : string
}.

(* self.learning_data *)
Record learning_data : Type := {
  feedback_history : list feedback_entry;
  suggestion_effectiveness : gmap string Q
}.

(* What _load_learning_data returns when there is no feedback file. *)
Definition empty_learning_data : learning_data :=
  {| feedback_history := []; suggestion_effectiveness := ∅ |}.

(* self.suggestions_db.get(key, []) *)
Fixpoint db_get (db : list (string * list suggestion)) (key : string)
  : list suggestion :=
  match db with
  | [] => []
  | (k, v) :: rest => if String.eqb k key then v else db_get rest key
  end.

(* The inner loop of _calculate_dynamic_priority: the first suggestion of
   the category with this id sets base_priority, then break. *)
Fixpoint scan_category (category : list suggestion) (suggestion_id : string)
    (base_priority : Z) : Z :=
  match category with
  | [] => base_priority
  | s :: rest =>
      if String.eqb (sg_id s) suggestion_id then sg_priority_base s
      else scan_category rest suggestion_id base_priority
  end.

Definition _calculate_dynamic_priority (ld : learning_data)
    (suggestion_id : string) (pollution_level : Q) : Z :=
  let base_priority :=
    fold_left (fun b category => scan_category (snd category) suggestion_id b)
      suggestions_db 5%Z in
  let effectiveness_bonus :=
    match suggestion_effectiveness ld !! suggestion_id with
    | Some effectiveness => py_int (effectiveness * 2)
    | None => 0%Z
    end in
  let severity_bonus := Z.min (py_int (pollution_level / 100)) 3 in
  Z.min (base_priority + effectiveness_bonus + severity_bonus) 10.

(* A suggestion copy with its 'priority' entry. *)
Record ranked : Type := {
  rk_suggestion : suggestion;
  rk_priority : Z
}.

(* factory_type in suggestion['factory_types'] or 'All' in ... *)
Definition applies (factory_type : string) (s : suggestion) : bool :=
  existsb (String.eqb factory_type) (sg_factory_types s)
  || existsb (String.eqb "All") (sg_factory_types s).

(* thresholds = {'co2': 600, 'no2': 80, 'so2': 50} *)
Definition problem_thresholds : gmap string Q :=
  <["co2" := 600]> (<["no2" := 80]> (<["so2" := 50]> ∅)).

Definition is_problem (readings : gmap string Q) (gas : string) : bool :=
  match readings !! gas, problem_thresholds !! gas with
  | Some level, Some threshold => negb (Qle_bool level threshold)
  | _, _ => false
  end.

Definition problem_gases (readings : gmap string Q) : list string :=
  List.filter (is_problem readings) AIHealthEstimator.gases.

(* The suggestions of one problem gas, ranked. *)
Definition gas_candidates (ld : learning_data) (readings : gmap string Q)
    (factory_type : string) (gas : string) : list ranked :=
  match readings !! gas with
  | None => []
  | Some level =>
      List.map
        (fun s => {| rk_suggestion := s;
                     rk_priority := _calculate_dynamic_priority ld (sg_id s) level |})
        (List.filter (applies factory_type) (db_get suggestions_db (gas ++ "_reduction")))
  end.

Definition general_candidates (ld : learning_data) (factory_type : string)
  : list ranked :=
  List.map
    (fun s => {| rk_suggestion := s;
                 rk_priority := _calculate_dynamic_priority ld (sg_id s) 0 |})
    (List.filter (applies factory_type) (db_get suggestions_db "general")).

(* list.sort(key=priority, reverse=True): a stable sort, highest first. *)
Fixpoint insert_ranked (x : ranked) (l : list ranked) : list ranked :=
  match l with
  | [] => [x]
  | y :: l' =>
      if (rk_priority y <=? rk_priority x)%Z then x :: y :: l'
      else y :: insert_ranked x l'
  end.

Definition sort_ranked (l : list ranked) : list ranked :=
  fold_right insert_ranked [] l.

Definition get_suggestions (ld : learning_data) (readings : gmap string Q)
    (factory_type : string) : list ranked :=
  let suggestions :=
    (flat_map (gas_candidates ld readings factory_type) (problem_gases readings)
     ++ general_candidates ld factory_type)%list in
  firstn 5 (sort_ranked suggestions).

(* record_feedback: now_iso is datetime.now().isoformat(); the write of the
   feedback file is inside a try/except. *)
Definition record_feedback (ld : learning_data) (suggestion_id feedback_type : string)
    (now_iso : string) : learning_data :=
  let history :=
    (feedback_history ld ++
     [{| fb_suggestion_id := suggestion_id; fb_feedback_type := feedback_type;
         fb_timestamp := now_iso |}])%list in
  let eff :=
    match suggestion_effectiveness ld !! suggestion_id with
    | Some _ => suggestion_effectiveness ld
    | None => <[suggestion_id := 5 # 2]> (suggestion_effectiveness ld)
    end in
  let current_score :=
    match eff !! suggestion_id with Some c => c | None => 5 # 2 end in
  let new_score :=
    if String.eqb feedback_type "helpful" then Qmin (current_score + (1 # 2)) 5
    else if String.eqb feedback_type "implemented" then Qmin (current_score + 1) 5
    else if String.eqb feedback_type "not_helpful" then Qmax (current_score - (3 # 10)) 0
    else current_score in
  {| feedback_history := history;
     suggestion_effectiveness := <[suggestion_id := new_score]> eff |}.

(* The dict get_learning_stats returns. *)
Record learning_stats : Type := {
  total_suggestions : Z;
  implementation_rate : Q;
  avg_effectiveness : Q
}.

Definition sumQ (l : list Q) : Q := fold_right Qplus 0 l.

Definition get_learning_stats (ld : learning_data) : learning_stats :=
  let total := Z.of_nat (length (feedback_history ld)) in
  if (total =? 0)%Z then
    {| total_suggestions := 0; implementation_rate := 0; avg_effectiveness := 0 |}
  else
    let implemented_count :=
      Z.of_nat (length (List.filter
                  (fun f => String.eqb (fb_feedback_type f) "implemented")
                  (feedback_history ld))) in
    let effectiveness_scores := (map_to_list (suggestion_effectiveness ld)).*2 in
    {| total_suggestions := total;
       implementation_rate := (inject_Z implemented_count / inject_Z total) * 100;
       avg_effectiveness :=
         match effectiveness_scores with
         | [] => 0
         | _ :: _ => sumQ effectiveness_scores
                     / inject_Z (Z.of_nat (length effectiveness_scores))
         end |}.

End AISuggestionEngine.

(* ===================================================================== *)
(*  src/scripts/offline_sync.py                                          *)
(* ===================================================================== *)

Module OfflineSync.

(* The columns that differ from table to table. REAL columns are rationals,
   TEXT columns are strings. *)
Inductive columns : Type :=
| ReadingCols (co2 no2 so2 : Q)
| AlertCols (gas : string) (level : Q) (severity message : string)
    (duration_minutes : Q)
| ActionCols (action_type description user_id : string)
| ReportCols (report_type content recipients : string) (sent : Z).

(* A row of any of the four tables: every table has
     id INTEGER PRIMARY KEY AUTOINCREMENT, timestamp TEXT NOT NULL,
     synced INTEGER DEFAULT 0, created_at TEXT DEFAULT CURRENT_TIMESTAMP. *)
Record row : Type := {
  id : Z;
  timestamp : string;
  cols : columns;
  synced : Z;
  created_at : string
}.

(* A table: its rows in rowid order and the AUTOINCREMENT counter that
   SQLite keeps in sqlite_sequence (the largest rowid ever handed out). *)
Record table : Type := {
  rows : list row;
  seq : Z
}.

Inductive table_name : Type :=
| pollution_readings | alerts | actions | reports.

Definition table_name_str (t : table_name) : string :=
  match t with
  | pollution_readings => "pollution_readings"
  | alerts => "alerts"
  | actions => "actions"
  | reports => "reports"
  end%string.

Definition tables : list table_name :=
  [pollution_readings; alerts; actions; reports].

(* The table one of the four table names denotes.  The source only ever
   passes these names (the keys of get_unsynced_data); other spellings
   that SQLite would resolve as well (another case, a schema prefix) are
   not modelled, and the facts below are about the four names. *)
Definition table_of_str (s : string) : option table_name :=
  if String.eqb s "pollution_readings" then Some pollution_readings
  else if String.eqb s "alerts" then Some alerts
  else if String.eqb s "actions" then Some actions
  else if String.eqb s "reports" then Some reports
  else None.

(* offline_data.db after _init_database. *)
Definition database : Type := table_name -> table.

Definition set_table (d : database) (t : table_name) (tb : table) : database :=
  fun t' =>
    match t, t' with
    | pollution_readings, pollution_readings
    | alerts, alerts
    | actions, actions
    | reports, reports => tb
    | _, _ => d t'
    end.

(* The object: the database file and the is_online attribute.  last_sync is
   the 'last_sync' entry of sync_status.json. *)
Record Self : Type := {
  db : database;
  is_online : bool;
  last_sync : option string
}.

(* What a call reads from the outside world. *)
Record env : Type := {
  now_iso : string;             (* datetime.now().isoformat() *)
  current_timestamp : string;   (* SQLite's CURRENT_TIMESTAMP *)
  connectivity : bool;          (* what _check_connectivity returns *)
  remote : string -> list row -> bool
                                (* what _sync_to_remote_server returns *)
}.

(* INSERT INTO <t> (timestamp, ..., synced) VALUES (...): the row gets the
   next AUTOINCREMENT id and created_at = CURRENT_TIMESTAMP. *)
Definition insert_row (tb : table) (ts : string) (c : columns) (s : Z)
    (created : string) : table :=
  let new_id := (seq tb + 1)%Z in
  {| rows := rows tb ++
             [{| id := new_id; timestamp := ts; cols := c; synced := s;
                 created_at := created |}];
     seq := new_id |}.

(* 1 if self.is_online else 0 *)
Definition synced_flag (self : Self) : Z := if is_online self then 1%Z else 0%Z.

Definition insert_into (self : Self) (t : table_name) (ts : string)
    (c : columns) (e : env) : Self :=
  {| db := set_table (db self) t
             (insert_row (db self t) ts c (synced_flag self)
                (current_timestamp e));
     is_online := is_online self;
     last_sync := last_sync self |}.

(* dict arguments, read with .get(key, default) *)
Record reading_dict : Type := {
  rd_timestamp : option string;
  rd_co2 : option Q;
  rd_no2 : option Q;
  rd_so2 : option Q
}.

Record alert_dict : Type := {
  ad_timestamp : option string;
  ad_gas : option string;
  ad_level : option Q;
  ad_severity : option string;
  ad_message : option string;
  ad_duration_minutes : option Q
}.

Definition get {A : Type} (field : option A) (dflt : A) : A :=
  match field with Some v => v | None => dflt end.

Definition store_pollution_reading (self : Self) (reading : reading_dict)
    (e : env) : bool * Self :=
  (true,
   insert_into self pollution_readings
     (get (rd_timestamp reading) (now_iso e))
     (ReadingCols (get (rd_co2 reading) 0%Q) (get (rd_no2 reading) 0%Q)
        (get (rd_so2 reading) 0%Q))
     e).

Definition store_alert (self : Self) (alert : alert_dict) (e : env)
  : bool * Self :=
  (true,
   insert_into self alerts
     (get (ad_timestamp alert) (now_iso e))
     (AlertCols (get (ad_gas alert) EmptyString) (get (ad_level alert) 0%Q)
        (get (ad_severity alert) EmptyString) (get (ad_message alert) EmptyString)
        (get (ad_duration_minutes alert) 0%Q))
     e).

Definition store_action (self : Self) (action_type description user_id : string)
    (e : env) : bool * Self :=
  (true,
   insert_into self actions (now_iso e)
     (ActionCols action_type description user_id) e).

(* recipients_str stands for json.dumps(recipients) if recipients else "[]" *)
Definition store_report (self : Self) (report_type content recipients_str : string)
    (e : env) : bool * Self :=
  (true,
   insert_into self reports (now_iso e)
     (ReportCols report_type content recipients_str 0) e).

(* SELECT * FROM <t> WHERE synced = 0 *)
Definition select_unsynced (tb : table) : list row :=
  List.filter (fun r => (synced r =? 0)%Z) (rows tb).

(* get_unsynced_data: the four lists, in the order the dict is built. *)
Definition get_unsynced_data (self : Self) : list (string * list row) :=
  List.map (fun t => (table_name_str t, select_unsynced (db self t))) tables.

(* UPDATE <t> SET synced = 1 WHERE id IN (record_ids) *)
Definition update_synced (tb : table) (record_ids : list Z) : table :=
  {| rows := List.map
       (fun r =>
          if existsb (Z.eqb (id r)) record_ids
          then {| id := id r; timestamp := timestamp r; cols := cols r;
                  synced := 1; created_at := created_at r |}
          else r)
       (rows tb);
     seq := seq tb |}.

(* mark_as_synced: a table name SQLite does not know makes execute raise,
   and the except branch returns False. *)
Definition mark_as_synced (self : Self) (tbl : string) (record_ids : list Z)
  : bool * Self :=
  match table_of_str tbl with
  | None => (false, self)
  | Some t =>
      (true,
       {| db := set_table (db self) t (update_synced (db self t) record_ids);
          is_online := is_online self;
          last_sync := last_sync self |})
  end.

(* The dict get_sync_status returns. *)
Record sync_status : Type := {
  st_online : bool;
  st_pending_records : nat;
  st_last_sync : option string;
  st_sync_interval : Z
}.

Definition sync_interval : Z := 300.

(* get_sync_status: is_online is refreshed from the probe, the pending
   records are counted, and the status is written back to the status file
   with the last_sync it was read with. *)
Definition get_sync_status (self : Self) (e : env) : sync_status * Self :=
  let self1 := {| db := db self;
                  is_online := connectivity e;
                  last_sync := last_sync self |} in
  let unsynced_data := get_unsynced_data self1 in
  let pending_count :=
    fold_right Nat.add 0%nat
      (List.map (fun item => length (snd item)) unsynced_data) in
  ({| st_online := is_online self1;
      st_pending_records := pending_count;
      st_last_sync := last_sync self1;
      st_sync_interval := sync_interval |},
   self1).

(* _update_last_sync_time: the status of get_sync_status is written to the
   status file with last_sync = now. *)
Definition _update_last_sync_time (self : Self) (e : env) : Self :=
  let '(status, self1) := get_sync_status self e in
  {| db := db self1;
     is_online := is_online self1;
     last_sync := Some (now_iso e) |}.

(* One turn of the loop `for data_type, records in unsynced_data.items()`.
   The second component logs the calls made to _sync_to_remote_server. *)
Definition sync_one (e : env) (st : Self * list (string * list row))
    (item : string * list row) : Self * list (string * list row) :=
  let '(self, pushed) := st in
  let '(data_type, records) := item in
  match records with
  | [] => (self, pushed)
  | _ :: _ =>
      let success := remote e data_type records in
      let pushed' := pushed ++ [(data_type, records)] in
      if success then
        let record_ids := List.map id records in
        (snd (mark_as_synced self data_type record_ids), pushed')
      else (self, pushed')
  end.

(* _perform_sync: returns True, the new object and the log of pushes. *)
Definition _perform_sync (self : Self) (e : env)
  : bool * Self * list (string * list row) :=
  let unsynced_data := get_unsynced_data self in
  let '(self', pushed) := fold_left (sync_one e) unsynced_data (self, []) in
  (true, _update_last_sync_time self' e, pushed).

(* force_sync *)
Definition force_sync (self : Self) (e : env)
  : bool * Self * list (string * list row) :=
  _perform_sync self e.

(* One iteration of sync_worker's `while True` body (the sleep aside). *)
Definition sync_worker_iteration (self : Self) (e : env)
  : Self * list (string * list row) :=
  if is_online self then
    let '(_, self', pushed) := _perform_sync self e in (self', pushed)
  else (self, []).

(* DELETE FROM <t> WHERE synced = 1 AND created_at < ?
   Both sides are TEXT, so < is SQLite's byte-wise string comparison. *)
Definition delete_old (tb : table) (cutoff_time : string) : table :=
  {| rows := List.filter
       (fun r => negb ((synced r =? 1)%Z && String.ltb (created_at r) cutoff_time))
       (rows tb);
     seq := seq tb |}.

(* cleanup_old_data from the cutoff on: the four DELETE statements for the
   text cutoff_time.  Clock.cleanup_old_data_days computes the cutoff as
   the source does, from the clock and the number of days. *)
Definition cleanup_old_data (self : Self) (cutoff_time : string) : Self :=
  {| db := fun t => delete_old (db self t) cutoff_time;
     is_online := is_online self;
     last_sync := last_sync self |}.

(* get_storage_stats, per table: (total, unsynced). *)
Definition table_stats (self : Self) (t : table_name) : nat * nat :=
  (length (rows (db self t)), length (select_unsynced (db self t))).

End OfflineSync.

(* ===================================================================== *)
(*  The clock of the store: datetime and CURRENT_TIMESTAMP texts         *)
(* ===================================================================== *)

Module Clock.
Import OfflineSync.
Local Open Scope Z_scope.

(* A naive datetime object, by its attributes. *)
Record civil : Type := {
  year : Z;
  month : Z;
  day : Z;
  hour : Z;
  minute : Z;
  second : Z;
  microsecond : Z
}.

(* The proleptic Gregorian ordinal of the datetime module
   (_is_leap, _days_before_year, _days_before_month, _ymd2ord, _ord2ymd),
   day 1 being 0001-01-01. *)
Definition _is_leap (y : Z) : bool :=
  (y mod 4 =? 0) && (negb (y mod 100 =? 0) || (y mod 400 =? 0)).

Definition _days_before_year (y : Z) : Z :=
  let y := y - 1 in y * 365 + y / 4 - y / 100 + y / 400.

Definition _DAYS_IN_MONTH (m : Z) : Z :=
  match m with
  | 1 => 31 | 2 => 28 | 3 => 31 | 4 => 30 | 5 => 31 | 6 => 30
  | 7 => 31 | 8 => 31 | 9 => 30 | 10 => 31 | 11 => 30 | 12 => 31
  | _ => -1
  end.

Definition _DAYS_BEFORE_MONTH (m : Z) : Z :=
  match m with
  | 1 => 0 | 2 => 31 | 3 => 59 | 4 => 90 | 5 => 120 | 6 => 151
  | 7 => 181 | 8 => 212 | 9 => 243 | 10 => 273 | 11 => 304 | 12 => 334
  | _ => -1
  end.

Definition _days_before_month (y m : Z) : Z :=
  _DAYS_BEFORE_MONTH m + (if (2 <? m) && _is_leap y then 1 else 0).

Definition _ymd2ord (y m d : Z) : Z :=
  _days_before_year y + _days_before_month y m + d.

Definition _DI400Y : Z := _days_before_year 401.
Definition _DI100Y : Z := _days_before_year 101.
Definition _DI4Y : Z := _days_before_year 5.

Definition _ord2ymd (n : Z) : Z * Z * Z :=
  let n := n - 1 in
  let n400 := n / _DI400Y in
  let n := n mod _DI400Y in
  let y := n400 * 400 + 1 in
  let n100 := n / _DI100Y in
  let n := n mod _DI100Y in
  let n4 := n / _DI4Y in
  let n := n mod _DI4Y in
  let n1 := n / 365 in
  let n := n mod 365 in
  let y := y + n100 * 100 + n4 * 4 + n1 in
  if (n1 =? 4) || (n100 =? 4) then (y - 1, 12, 31)
  else
    let leapyear := (n1 =? 3) && (negb (n4 =? 24) || (n100 =? 3)) in
    let m := Z.shiftr (n + 50) 5 in
    let preceding :=
      _DAYS_BEFORE_MONTH m + (if (2 <? m) && leapyear then 1 else 0) in
    if n <? preceding then
      let m := m - 1 in
      let preceding :=
        preceding
        - (_DAYS_IN_MONTH m + (if (m =? 2) && leapyear then 1 else 0)) in
      (y, m, n - preceding + 1)
    else (y, m, n - preceding + 1).

(* date.max.toordinal() *)
Definition _MAXORDINAL : Z := 3652059.

(* d - timedelta(days=days): the date moves, the time of day stays; a
   result before year 1 or after year 9999 raises OverflowError (and so
   does timedelta itself beyond 999999999 days, where the result is out of
   range as well). *)
Definition minus_days (d : civil) (days : Z) : option civil :=
  let n := _ymd2ord (year d) (month d) (day d) - days in
  if (0 <? n) && (n <=? _MAXORDINAL) then
    let '(y, m, dd) := _ord2ymd n in
    Some {| year := y; month := m; day := dd;
            hour := hour d; minute := minute d; second := second d;
            microsecond := microsecond d |}
  else None.

(* '%0<width>d' of a number that fits the width *)
Fixpoint zfill (width : nat) (z : Z) : string :=
  match width with
  | O => EmptyString
  | S w =>
      (zfill w (z / 10) ++
       String (ascii_of_nat (48 + Z.to_nat (z mod 10))) EmptyString)%string
  end.

Definition date_str (d : civil) : string :=
  (zfill 4 (year d) ++ "-" ++ zfill 2 (month d) ++ "-" ++ zfill 2 (day d))%string.

Definition time_str (d : civil) : string :=
  (zfill 2 (hour d) ++ ":" ++ zfill 2 (minute d) ++ ":" ++ zfill 2 (second d))%string.

(* datetime.isoformat(): 'YYYY-MM-DDTHH:MM:SS', followed by '.ffffff' when
   the microsecond is not 0. *)
Definition isoformat (d : civil) : string :=
  (date_str d ++ "T" ++ time_str d ++
   (if (microsecond d =? 0)%Z then EmptyString
    else "." ++ zfill 6 (microsecond d)))%string.

(* SQLite's CURRENT_TIMESTAMP at the UTC time d: 'YYYY-MM-DD HH:MM:SS'. *)
Definition sqlite_timestamp (d : civil) : string :=
  (date_str d ++ " " ++ time_str d)%string.

(* The position of a datetime on the time line, in microseconds. *)
Definition micros (d : civil) : Z :=
  (((_ymd2ord (year d) (month d) (day d) * 24 + hour d) * 60 + minute d) * 60
   + second d) * 1000000 + microsecond d.

(* cleanup_old_data(days), called when the local clock shows now: the
   cutoff is (datetime.now() - timedelta(days=days)).isoformat(); an
   OverflowError is caught by the except branch and nothing is deleted. *)
Definition cleanup_old_data_days (self : Self) (now : civil) (days : Z) : Self :=
  match minus_days now days with
  | Some cutoff => cleanup_old_data self (isoformat cutoff)
  | None => self
  end.

End Clock.

(* ===================================================================== *)
(*  Vocabulary of the statements                                         *)
(* ===================================================================== *)

Module Vocabulary.
Import AIHealthEstimator.
Local Open Scope Q_scope.

(* The thresholds of a gas grow strictly from 0. *)
Definition ordered (t : thresholds) : Prop :=
  0 < th_low t /\ th_low t < th_moderate t /\
  th_moderate t < th_high t /\ th_high t < th_critical t.

(* The band calculate_individual_gas_risk gives a level, when it returns. *)
Definition band_of (gas : string) (level : Q) : option risk_level :=
  match calculate_individual_gas_risk gas level with
  | Ok r => Some (ra_risk_level r)
  | Raise _ => None
  end.

(* risk_level in ['high', 'critical'] *)
Definition alerting (r : risk_level) : Prop := r = High \/ r = Critical.

(* The alerts of a list that are about one gas. *)
Definition alerts_for (gas : string) (alerts : list Alert) : list Alert :=
  List.filter (fun a => String.eqb (al_gas a) gas) alerts.

(* No candidate of the gas is open. *)
Definition no_candidate (gas : string) (m : gmap string AlertCandidate) : Prop :=
  forall k, startswith k gas = true -> m !! k = None.

(* What an alert of a tick says about the state before and after it. *)
Definition alert_justified (now : datetime) (rd : gmap string Q)
    (aa aa' : gmap string AlertCandidate) (a : Alert) : Prop :=
  exists v c,
    rd !! al_gas a = Some v /\
    al_level a = v /\
    band_of (al_gas a) v = Some (al_risk_level a) /\
    alerting (al_risk_level a) /\
    aa !! alert_key (al_gas a) (al_risk_level a) = Some c /\
    aa' !! alert_key (al_gas a) (al_risk_level a) = Some c /\
    al_duration_minutes a = minutes_between (ac_start_time c) now /\
    alert_persistence_threshold <= al_duration_minutes a.

(* Every open candidate of the gas was opened at one of the past ticks, by
   a reading of the band its key names. *)
Definition tracked (gas : string) (past : list tick)
    (m : gmap string AlertCandidate) : Prop :=
  forall r c, m !! alert_key gas r = Some c ->
    exists k t_k rd_k v_k,
      past !! k = Some (t_k, rd_k) /\ ac_start_time c = t_k /\
      rd_k !! gas = Some v_k /\ band_of gas v_k = Some r.

(* sys.float_info.min, the smallest positive normal double: 2^-1022. *)
Definition smallest_normal : Q := 1 # (2 ^ 1022).

End Vocabulary.

(* ===================================================================== *)
(*  Vocabulary of the statements about the store                         *)
(* ===================================================================== *)

Module SyncVocabulary.
Import OfflineSync.

#[global] Instance table_name_eq_dec : EqDecision table_name.
Proof. solve_decision. Defined.

(* The results of _perform_sync and force_sync. *)
Definition after (res : bool * Self * list (string * list row)) : Self :=
  snd (fst res).
Definition pushed (res : bool * Self * list (string * list row))
  : list (string * list row) := snd res.

(* Every id of the table was handed out by its AUTOINCREMENT counter. *)
Definition bounded (tb : table) : Prop :=
  forall r, In r (rows tb) -> (id r <= seq tb)%Z.

(* Whatever record the table holds under id i is synced. *)
Definition synced_or_gone (tb : table) (i : Z) : Prop :=
  forall r, In r (rows tb) -> id r = i -> synced r = 1%Z.

(* A row with its synced column set to 1. *)
Definition set_synced (r : row) : row :=
  {| id := id r; timestamp := timestamp r; cols := cols r; synced := 1;
     created_at := created_at r |}.

(* What a store_* call does to table t. *)
Definition appended (self self' : Self) (t : table_name) (e : env) : Prop :=
  exists r,
    rows (db self' t) = rows (db self t) ++ [r] /\
    id r = (seq (db self t) + 1)%Z /\
    seq (db self' t) = id r /\
    synced r = (if is_online self then 1 else 0)%Z /\
    created_at r = current_timestamp e /\
    forall t', t' <> t -> db self' t' = db self t'.

(* What one sync cycle does to a table, given its unsynced rows. *)
Definition sync_result (e : env) (name : string) (recs : list row)
    (tb : table) : table :=
  match recs with
  | [] => tb
  | _ :: _ => if remote e name recs then update_synced tb (List.map id recs) else tb
  end.

(* The pushes one sync cycle attempts. *)
Definition pushes_of (snap : database) (ts : list table_name)
  : list (string * list row) :=
  flat_map
    (fun t => match select_unsynced (snap t) with
              | [] => []
              | recs => [(table_name_str t, recs)]
              end) ts.

Definition unsynced_count (self : Self) (t : table_name) : nat :=
  length (select_unsynced (db self t)).

(* Records a call turned from unsynced to synced. *)
Definition flipped (self self' : Self) (t : table_name) : nat :=
  (unsynced_count self t - unsynced_count self' t)%nat.

(* Python reads True as the integer 1 and False as 0. *)
Definition int_of_bool (b : bool) : Z := if b then 1%Z else 0%Z.

(* The operations that write to the database. *)
Inductive op : Type :=
| StoreReading (reading : reading_dict) (e : env)
| StoreAlert (alert : alert_dict) (e : env)
| StoreAction (action_type description user_id : string) (e : env)
| StoreReport (report_type content recipients_str : string) (e : env)
| MarkAsSynced (tbl : string) (record_ids : list Z)
| ForceSync (e : env)
| SyncWorker (e : env)
| GetSyncStatus (e : env)
| Cleanup (cutoff_time : string).

Definition step (self : Self) (o : op) : Self :=
  match o with
  | StoreReading reading e => snd (store_pollution_reading self reading e)
  | StoreAlert alert e => snd (store_alert self alert e)
  | StoreAction a d u e => snd (store_action self a d u e)
  | StoreReport r c rs e => snd (store_report self r c rs e)
  | MarkAsSynced tbl ids => snd (mark_as_synced self tbl ids)
  | ForceSync e => after (force_sync self e)
  | SyncWorker e => fst (sync_worker_iteration self e)
  | GetSyncStatus e => snd (get_sync_status self e)
  | Cleanup cutoff_time => cleanup_old_data self cutoff_time
  end.

Definition run_ops (self : Self) (ops : list op) : Self :=
  fold_left step ops self.

End SyncVocabulary.

(* ===================================================================== *)
(*  Concrete scenarios used by witnesses and counterexamples             *)
(* ===================================================================== *)

Module Scenarios.
Import AIHealthEstimator.
Local Open Scope Q_scope.

Definition minute : Z := 60000000.

(* A critical no2 candidate opened at time 0. *)
Definition no2_open : gmap string AlertCandidate :=
  {[ alert_key "no2" Critical :=
       {| ac_start_time := 0%Z; ac_gas := "no2"; ac_level := 250;
          ac_risk_level := Critical; ac_risk_score := 85 |} ]}.

(* A critical co2 candidate opened at time 0. *)
Definition co2_open : gmap string AlertCandidate :=
  {[ alert_key "co2" Critical :=
       {| ac_start_time := 0%Z; ac_gas := "co2"; ac_level := 6000;
          ac_risk_level := Critical; ac_risk_score := 100 |} ]}.

(* no2 at 450 (critical), down to 150 (high) five minutes later, back to
   450 at minute ten. *)
Definition dip_ticks : list tick :=
  [ (0%Z, {[ "no2"%string := 450 ]});
    ((5 * minute)%Z, {[ "no2"%string := 150 ]});
    ((10 * minute)%Z, {[ "no2"%string := 450 ]}) ].

End Scenarios.

Module SyncScenarios.
Import OfflineSync SyncVocabulary.

Definition empty_table : table := {| rows := []; seq := 0 |}.

(* A new object, before anything is stored. *)
Definition fresh (online : bool) : Self :=
  {| db := fun _ => empty_table; is_online := online; last_sync := None |}.

Definition world (conn : bool) (rem : string -> list row -> bool) : env :=
  {| now_iso := "2024-05-01T10:00:00.000000";
     current_timestamp := "2024-05-01 10:00:00";
     connectivity := conn;
     remote := rem |}.

Definition a_reading : reading_dict :=
  {| rd_timestamp := None; rd_co2 := Some 450%Q; rd_no2 := Some 30%Q;
     rd_so2 := None |}.

Definition an_alert : alert_dict :=
  {| ad_timestamp := None; ad_gas := Some "no2"%string;
     ad_level := Some 250%Q; ad_severity := Some "critical"%string;
     ad_message := None; ad_duration_minutes := Some 10%Q |}.

Definition always (b : bool) : string -> list row -> bool := fun _ _ => b.

(* The remote accepts readings and refuses everything else. *)
Definition readings_only : string -> list row -> bool :=
  fun data_type _ => String.eqb data_type "pollution_readings".

(* Five readings and three alerts stored while offline. *)
Definition backlog : Self :=
  run_ops (fresh false)
    [ StoreReading a_reading (world false (always true));
      StoreReading a_reading (world false (always true));
      StoreReading a_reading (world false (always true));
      StoreReading a_reading (world false (always true));
      StoreReading a_reading (world false (always true));
      StoreAlert an_alert (world false (always true));
      StoreAlert an_alert (world false (always true));
      StoreAlert an_alert (world false (always true)) ].

(* A table with one old synced row and one old unsynced row. *)
Definition old_rows : table :=
  {| rows :=
       [ {| id := 1; timestamp := "2024-01-01T00:00:00";
            cols := ReadingCols 450 30 0; synced := 1;
            created_at := "2024-01-01 00:00:00" |};
         {| id := 2; timestamp := "2024-01-02T00:00:00";
            cols := ReadingCols 450 30 0; synced := 0;
            created_at := "2024-01-02 00:00:00" |} ];
     seq := 2 |}.

(* Marking readings 1 and 2 of the backlog, twice. *)
Definition first_mark : Self :=
  snd (mark_as_synced backlog "pollution_readings" [1%Z; 2%Z]).
Definition second_mark : Self :=
  snd (mark_as_synced first_mark "pollution_readings" [1%Z; 2%Z]).

Definition old_store : Self :=
  {| db := fun _ => old_rows; is_online := true; last_sync := None |}.

(* A machine whose local time is UTC, at the time d. *)
Definition at_time (y m d h mi s us : Z) : Clock.civil :=
  {| Clock.year := y; Clock.month := m; Clock.day := d; Clock.hour := h;
     Clock.minute := mi; Clock.second := s; Clock.microsecond := us |}.

Definition utc_world (d : Clock.civil) (conn : bool) : env :=
  {| now_iso := Clock.isoformat d;
     current_timestamp := Clock.sqlite_timestamp d;
     connectivity := conn;
     remote := always true |}.

(* One reading stored while offline at the start of 2023, then, online,
   one at noon of 2024-02-29, one at 23:59:59 of 2024-03-01 and one at
   midnight of 2024-03-02. *)
Definition late_created : Clock.civil := at_time 2024 3 1 23 59 59 0.

Definition late_store : Self :=
  run_ops (fresh true)
    [ GetSyncStatus (utc_world (at_time 2023 1 1 0 0 0 0) false);
      StoreReading a_reading (utc_world (at_time 2023 1 1 0 0 0 0) false);
      GetSyncStatus (utc_world (at_time 2024 2 29 12 0 0 0) true);
      StoreReading a_reading (utc_world (at_time 2024 2 29 12 0 0 0) true);
      StoreReading a_reading (utc_world late_created true);
      StoreReading a_reading (utc_world (at_time 2024 3 2 0 0 0 0) true) ].

(* cleanup_old_data(30) is called one microsecond after midnight of
   2024-03-31; thirty days before is the same time of 2024-03-01. *)
Definition cleanup_now : Clock.civil := at_time 2024 3 31 0 0 0 1.
Definition cutoff_instant : Clock.civil := at_time 2024 3 1 0 0 0 1.

End SyncScenarios.

(* ===================================================================== *)
(*  Vocabulary of the further properties                                 *)
(* ===================================================================== *)

Module ScoreVocabulary.
Import AIHealthEstimator.
Local Open Scope Q_scope.

(* low < moderate < high < critical *)
Definition rank (r : risk_level) : Z :=
  match r with Low => 0 | Moderate => 1 | High => 2 | Critical => 3 end%Z.

(* The interval of exact scores a band gets. *)
Definition in_band_range (r : risk_level) (score : Q) : Prop :=
  match r with
  | Low => score <= 25
  | Moderate => 25 < score /\ score <= 50
  | High => 50 < score /\ score <= 80
  | Critical => 80 < score /\ score <= 100
  end.


(* The gases of the list that are in the readings with a level of band r. *)
Definition has_band (readings : gmap string Q) (r : risk_level)
    (gas : string) : bool :=
  match readings !! gas with
  | Some level =>
      match Vocabulary.band_of gas level with
      | Some r' => risk_level_eqb r' r
      | None => false
      end
  | None => false
  end.

Definition count_band_in (readings : gmap string Q) (gs : list string)
    (r : risk_level) : Z :=
  Z.of_nat (length (List.filter (has_band readings r) gs)).

Definition count_band (readings : gmap string Q) (r : risk_level) : Z :=
  count_band_in readings gases r.

(* app.py, render_audit_tracker:
   "Compliant" if audit_score >= 70 else "Non-Compliant" *)
Definition compliance_status (audit_score : Z) : string :=
  if (70 <=? audit_score)%Z then "Compliant"%string else "Non-Compliant"%string.


Definition harsh_readings : gmap string Q :=
  {[ "no2"%string := 450; "co2"%string := 300 ]}.

End ScoreVocabulary.

Module AlertVocabulary.
Import AIHealthEstimator Vocabulary.
Local Open Scope Q_scope.

(* An alert repeats the assessment of the reading it was raised for. *)
Definition alert_of_reading (rd : gmap string Q) (a : Alert) : Prop :=
  exists r,
    rd !! al_gas a = Some (al_level a) /\
    calculate_individual_gas_risk (al_gas a) (al_level a) = Ok r /\
    al_risk_level a = ra_risk_level r /\
    al_risk_score a = ra_risk_score r /\
    al_health_effects a = ra_health_effects r /\
    al_recommended_actions a = ra_recommended_actions r /\
    al_severity a =
      (if risk_level_eqb (ra_risk_level r) Critical then "critical" else "warning")%string.

(* Every candidate sits under the key of its own gas and band, and records
   a reading of that gas and band. *)
Definition consistent (m : gmap string AlertCandidate) : Prop :=
  forall k c, m !! k = Some c ->
    In (ac_gas c) gases /\ alerting (ac_risk_level c) /\
    k = alert_key (ac_gas c) (ac_risk_level c) /\
    band_of (ac_gas c) (ac_level c) = Some (ac_risk_level c).

(* Every open candidate of the gas was opened at a past tick, and since
   then every reading of the gas was high or critical. *)
Definition unbroken (gas : string) (past : list tick)
    (m : gmap string AlertCandidate) : Prop :=
  forall r c, m !! alert_key gas r = Some c ->
    exists k t_k rd_k v_k,
      past !! k = Some (t_k, rd_k) /\ ac_start_time c = t_k /\
      rd_k !! gas = Some v_k /\ band_of gas v_k = Some r /\
      forall i t_i rd_i v_i,
        (k < i)%nat -> past !! i = Some (t_i, rd_i) -> rd_i !! gas = Some v_i ->
        exists r_i, band_of gas v_i = Some r_i /\ alerting r_i.

End AlertVocabulary.

Module SuggestionVocabulary.
Import AISuggestionEngine.
Local Open Scope Q_scope.

(* Every suggestion of the database, category after category. *)
Definition all_suggestions : list suggestion :=
  flat_map snd suggestions_db.

(* The list get_suggestions sorts. *)
Definition candidates (ld : learning_data) (readings : gmap string Q)
    (factory_type : string) : list ranked :=
  flat_map (gas_candidates ld readings factory_type) (problem_gases readings)
  ++ general_candidates ld factory_type.

(* y does not rank above x. *)
Definition not_above (x y : ranked) : Prop :=
  (rk_priority y <= rk_priority x)%Z.

(* Every effectiveness score is in [0,5]. *)
Definition scores_bounded (ld : learning_data) : Prop :=
  forall i e, suggestion_effectiveness ld !! i = Some e -> 0 <= e <= 5.

(* A feedback: suggestion id, feedback type, time of the call. *)
Definition feedback : Type := string * string * string.

Definition record_all (ld : learning_data) (fs : list feedback) : learning_data :=
  fold_left (fun l f => record_feedback l (fst (fst f)) (snd (fst f)) (snd f))
    fs ld.

End SuggestionVocabulary.

Module OutboxVocabulary.
Import OfflineSync SyncVocabulary.

(* The row an INSERT made offline adds to table t. *)
Definition stored_row (self : Self) (t : table_name) (ts : string)
    (c : columns) (e : env) : row :=
  {| id := seq (db self t) + 1; timestamp := ts; cols := c; synced := 0;
     created_at := current_timestamp e |}.

(* What a store made while is_online is b leaves among the unsynced rows. *)
Definition unsynced_after (self : Self) (t : table_name) (ts : string)
    (c : columns) (e : env) : list row :=
  select_unsynced (db self t) ++
  (if is_online self then [] else [stored_row self t ts c e]).

(* The ids of the table grow strictly along its rows. *)
Definition ids_increasing (tb : table) : Prop :=
  StronglySorted Z.lt (List.map id (rows tb)).

(* r' is the record r, its synced column aside. *)
Definition same_record (r r' : row) : Prop :=
  id r' = id r /\ timestamp r' = timestamp r /\ cols r' = cols r /\
  created_at r' = created_at r.

(* pending_records, table by table. *)
Definition pending (self : Self) : nat :=
  (unsynced_count self pollution_readings + unsynced_count self alerts +
   unsynced_count self actions + unsynced_count self reports)%nat.

End OutboxVocabulary.

(* ===================================================================== *)
(*  Risk scoring                                                         *)
(* ===================================================================== *)

Module RiskScorerFacts.
Import AIHealthEstimator Vocabulary.
Local Open Scope Q_scope.

Lemma lookup_health_impact_factors gas t :
  health_impact_factors !! gas = Some t ->
  (gas = "co2"%string /\ t = co2_thresholds) \/
  (gas = "no2"%string /\ t = no2_thresholds) \/
  (gas = "so2"%string /\ t = so2_thresholds).
Proof.
  unfold health_impact_factors.
  rewrite !lookup_insert_Some, lookup_empty.
  intuition (subst; auto); discriminate.
Qed.

Lemma thresholds_ordered gas t :
  health_impact_factors !! gas = Some t -> ordered t.
Proof.
  intros H. apply lookup_health_impact_factors in H.
  destruct H as [[_ ->]|[[_ ->]|[_ ->]]]; unfold ordered; cbn; lra.
Qed.

Lemma Qle_bool_false x y : Qle_bool x y = false <-> y < x.
Proof.
  split; intros H.
  - apply Qnot_le_lt. intros Hle. apply Qle_bool_iff in Hle. congruence.
  - destruct (Qle_bool x y) eqn:E; [|reflexivity].
    apply Qle_bool_iff in E. lra.
Qed.

(* A quotient x/d with 0 <= x <= d is a fraction of the unit interval. *)
Lemma unit_fraction x d : 0 < d -> 0 <= x -> x <= d -> 0 <= x / d <= 1.
Proof.
  intros Hd Hx Hxd. split.
  - apply Qle_shift_div_l; lra.
  - apply Qle_shift_div_r; lra.
Qed.

Lemma fraction_nonneg x d : 0 < d -> 0 <= x -> 0 <= x / d.
Proof. intros Hd Hx. apply Qle_shift_div_l; lra. Qed.

Lemma fraction_neg x d : 0 < d -> x < 0 -> x / d < 0.
Proof. intros Hd Hx. apply Qlt_shift_div_r; lra. Qed.

Section Bands.
Variable t : thresholds.
Hypothesis Hord : ordered t.

Lemma band_low v :
  v <= th_low t -> band_and_score t v = (Low, v / th_low t * 25).
Proof.
  intros H. unfold band_and_score.
  apply Qle_bool_iff in H. now rewrite H.
Qed.

Lemma band_moderate v :
  th_low t < v -> v <= th_moderate t ->
  band_and_score t v =
    (Moderate, 25 + (v - th_low t) / (th_moderate t - th_low t) * 25).
Proof.
  intros H1 H2. unfold band_and_score.
  apply Qle_bool_false in H1. apply Qle_bool_iff in H2.
  now rewrite H1, H2.
Qed.

Lemma band_high v :
  th_moderate t < v -> v <= th_high t ->
  band_and_score t v =
    (High, 50 + (v - th_moderate t) / (th_high t - th_moderate t) * 30).
Proof.
  destruct Hord as (H0 & Hlm & Hmh & Hhc).
  intros H1 H2. unfold band_and_score.
  assert (Hl : th_low t < v) by lra.
  apply Qle_bool_false in H1, Hl. apply Qle_bool_iff in H2.
  now rewrite Hl, H1, H2.
Qed.

Lemma band_critical v :
  th_high t < v ->
  band_and_score t v =
    (Critical,
     80 + Qmin ((v - th_high t) / (th_critical t - th_high t) * 20) 20).
Proof.
  destruct Hord as (H0 & Hlm & Hmh & Hhc).
  intros H1. unfold band_and_score.
  assert (Hl : th_low t < v) by lra.
  assert (Hm : th_moderate t < v) by lra.
  apply Qle_bool_false in H1, Hl, Hm.
  now rewrite Hl, Hm, H1.
Qed.

(* Every band is reached by exactly one of four cases on the level. *)
Lemma band_cases v :
  v <= th_low t \/ (th_low t < v /\ v <= th_moderate t) \/
  (th_moderate t < v /\ v <= th_high t) \/ th_high t < v.
Proof.
  destruct (Qlt_le_dec (th_low t) v); [|lra].
  destruct (Qlt_le_dec (th_moderate t) v); [|lra].
  destruct (Qlt_le_dec (th_high t) v); lra.
Qed.

(* The raw score of a non-negative level never leaves [0,100]. *)
Lemma raw_score_bounds v :
  0 <= v -> 0 <= snd (band_and_score t v) <= 100.
Proof.
  destruct Hord as (H0 & Hlm & Hmh & Hhc). intros Hv.
  destruct (band_cases v) as [H|[[H1 H2]|[[H1 H2]|H]]].
  - rewrite band_low by assumption. cbn [snd].
    pose proof (unit_fraction v (th_low t) H0 Hv H) as F.
    set (f := v / th_low t) in *. lra.
  - rewrite band_moderate by assumption. cbn [snd].
    assert (F : 0 <= (v - th_low t) / (th_moderate t - th_low t) <= 1)
      by (apply unit_fraction; lra).
    set (f := (v - th_low t) / _) in *. lra.
  - rewrite band_high by assumption. cbn [snd].
    assert (F : 0 <= (v - th_moderate t) / (th_high t - th_moderate t) <= 1)
      by (apply unit_fraction; lra).
    set (f := (v - th_moderate t) / _) in *. lra.
  - rewrite band_critical by assumption. cbn [snd].
    assert (F : 0 <= (v - th_high t) / (th_critical t - th_high t))
      by (apply fraction_nonneg; lra).
    set (f := (v - th_high t) / _) in *.
    pose proof (Q.le_min_r (f * 20) 20) as Hr.
    assert (Hl : 0 <= Qmin (f * 20) 20)
      by (apply Q.min_glb; lra).
    set (m := Qmin (f * 20) 20) in *. lra.
Qed.
End Bands.

Lemma calculate_individual_gas_risk_unfold gas t v :
  health_impact_factors !! gas = Some t ->
  calculate_individual_gas_risk gas v =
    Ok {| ra_gas := gas;
          ra_level := v;
          ra_risk_level := fst (band_and_score t v);
          ra_risk_score := Qmin (snd (band_and_score t v)) 100;
          ra_health_effects := _get_health_effects gas (fst (band_and_score t v));
          ra_recommended_actions :=
            _get_recommended_actions gas (fst (band_and_score t v)) |}.
Proof.
  intros H. unfold calculate_individual_gas_risk. rewrite H.
  now destruct (band_and_score t v).
Qed.

(** C1. For every gas of the table, with thresholds (low, moderate, high,
    critical), and every non-negative level v,
    calculate_individual_gas_risk returns normally; the band is low with
    score (v/low)*25 when v <= low, moderate with score
    25 + (v-low)/(moderate-low)*25 when low < v <= moderate, high with
    score 50 + (v-moderate)/(high-moderate)*30 when moderate < v <= high,
    and critical with score 80 + min((v-high)/(critical-high)*20, 20) when
    v > high.  The score lies in [0,100], and a level equal to a threshold
    gets the lower band. *)
Theorem calculate_individual_gas_risk_bands gas t v :
  health_impact_factors !! gas = Some t ->
  0 <= v ->
  exists r,
    calculate_individual_gas_risk gas v = Ok r /\
    ra_gas r = gas /\ ra_level r = v /\
    0 <= ra_risk_score r <= 100 /\
    (v <= th_low t ->
       ra_risk_level r = Low /\ ra_risk_score r == v / th_low t * 25) /\
    (th_low t < v <= th_moderate t ->
       ra_risk_level r = Moderate /\
       ra_risk_score r ==
         25 + (v - th_low t) / (th_moderate t - th_low t) * 25) /\
    (th_moderate t < v <= th_high t ->
       ra_risk_level r = High /\
       ra_risk_score r ==
         50 + (v - th_moderate t) / (th_high t - th_moderate t) * 30) /\
    (th_high t < v ->
       ra_risk_level r = Critical /\
       ra_risk_score r ==
         80 + Qmin ((v - th_high t) / (th_critical t - th_high t) * 20) 20) /\
    (v == th_low t -> ra_risk_level r = Low) /\
    (v == th_moderate t -> ra_risk_level r = Moderate) /\
    (v == th_high t -> ra_risk_level r = High).
Proof.
  intros Hgas Hv.
  pose proof (thresholds_ordered gas t Hgas) as Hord.
  pose proof (raw_score_bounds t Hord v Hv) as [Hlo Hhi].
  pose proof Hord as (H0 & Hlm & Hmh & Hhc).
  eexists. split; [apply calculate_individual_gas_risk_unfold, Hgas|].
  cbn [ra_gas ra_level ra_risk_level ra_risk_score].
  assert (Hmin : Qmin (snd (band_and_score t v)) 100 == snd (band_and_score t v))
    by (apply Q.min_l; exact Hhi).
  repeat split; try rewrite Hmin; try assumption.
  - rewrite band_low; [reflexivity | assumption].
  - rewrite band_low; [reflexivity | assumption].
  - destruct H. rewrite band_moderate; [reflexivity | assumption..].
  - destruct H. rewrite band_moderate; [reflexivity | assumption..].
  - destruct H. rewrite band_high; [reflexivity | assumption..].
  - destruct H. rewrite band_high; [reflexivity | assumption..].
  - rewrite band_critical; [reflexivity | assumption..].
  - rewrite band_critical; [reflexivity | assumption..].
  - intros He. rewrite band_low; [reflexivity | lra].
  - intros He. rewrite band_moderate; [reflexivity | lra..].
  - intros He. rewrite band_high; [reflexivity | assumption | lra..].
Qed.

Lemma calculate_individual_gas_risk_bands_witness :
  health_impact_factors !! "no2"%string = Some no2_thresholds /\
  0 <= 40 /\
  exists r,
    calculate_individual_gas_risk "no2" 40 = Ok r /\
    ra_risk_level r = Low /\ ra_risk_score r == 25.
Proof.
  assert (H1 : health_impact_factors !! "no2"%string = Some no2_thresholds)
    by reflexivity.
  assert (H2 : 0 <= 40) by lra.
  split; [exact H1 | split; [exact H2 |]].
  destruct (calculate_individual_gas_risk_bands "no2" no2_thresholds 40 H1 H2)
    as (r & Hr & _ & _ & _ & Hlow & _).
  exists r. split; [exact Hr|].
  destruct Hlow as [Hb Hs]; [cbn; lra|].
  split; [exact Hb|]. rewrite Hs. reflexivity.
Defined.

(** C10, as amended. For every negative level v, calculate_individual_gas_risk
    raises nothing and returns the band low with risk_score = (v/low)*25,
    which is never positive: min(risk_score, 100) clamps from above only.
    For v at or below minus the smallest normal double the score is
    strictly negative and so outside [0,100]. *)
Theorem negative_level_negative_score gas t v :
  health_impact_factors !! gas = Some t ->
  v < 0 ->
  exists r,
    calculate_individual_gas_risk gas v = Ok r /\
    ra_risk_level r = Low /\
    ra_risk_score r == v / th_low t * 25 /\
    ra_risk_score r <= 0 /\
    (v <= - smallest_normal ->
     ra_risk_score r < 0 /\ ~ (0 <= ra_risk_score r <= 100)).
Proof.
  intros Hgas Hv.
  pose proof (thresholds_ordered gas t Hgas) as Hord.
  pose proof Hord as (H0 & Hlm & Hmh & Hhc).
  eexists. split; [apply calculate_individual_gas_risk_unfold, Hgas|].
  cbn [ra_risk_level ra_risk_score].
  rewrite (band_low t v) by lra. cbn [fst snd].
  pose proof (fraction_neg v (th_low t) H0 Hv) as F.
  assert (Hmin : Qmin (v / th_low t * 25) 100 == v / th_low t * 25).
  { apply Q.min_l. set (f := v / th_low t) in *. lra. }
  split; [reflexivity|]. split; [exact Hmin|].
  rewrite Hmin. set (f := v / th_low t) in *.
  split; [lra|]. intros _. split; [lra|]. intros [Hge _]. lra.
Qed.

Lemma negative_level_negative_score_witness :
  health_impact_factors !! "co2"%string = Some co2_thresholds /\
  -100 < 0 /\
  exists r,
    calculate_individual_gas_risk "co2" (-100) = Ok r /\
    ra_risk_level r = Low /\ ra_risk_score r == -(25#4) /\
    ra_risk_score r < 0.
Proof.
  assert (H1 : health_impact_factors !! "co2"%string = Some co2_thresholds)
    by reflexivity.
  assert (H2 : -100 < 0) by lra.
  assert (H3 : -100 <= - smallest_normal)
    by (apply Qle_bool_imp_le; vm_compute; reflexivity).
  split; [exact H1 | split; [exact H2 |]].
  destruct (negative_level_negative_score "co2" co2_thresholds (-100) H1 H2)
    as (r & Hr & Hb & Hs & _ & Hneg).
  exists r. split; [exact Hr|]. split; [exact Hb|].
  split; [rewrite Hs; reflexivity|]. exact (proj1 (Hneg H3)).
Defined.

End RiskScorerFacts.

(* ===================================================================== *)
(*  Risk scoring, in binary64                                            *)
(* ===================================================================== *)

Module Float64Facts.
Import PrimFloat.
Import AIHealthEstimator.

(** C10, counterexample. The negative level -5e-324 gets the band low and
    the score -0.0: the division underflows, so the score is not below 0
    and lies inside [0,100]. *)
Lemma negative_subnormal_scores_zero :
  PrimFloat.ltb (PrimFloat.opp Float64.smallest_subnormal) PrimFloat.zero = true /\
  exists score,
    Float64.calculate_individual_gas_risk "co2"
      (PrimFloat.opp Float64.smallest_subnormal) = Ok (Low, score) /\
    score = PrimFloat.neg_zero /\
    Float64.negative score = false /\
    Float64.in_range score = true.
Proof. split; [reflexivity|]. eexists. vm_compute. repeat split. Qed.

(* At minus the smallest normal double the rounded score is still below 0,
   for each of the three gases. *)
Lemma smallest_normal_scores_negative :
  Forall
    (fun gas =>
       exists score,
         Float64.calculate_individual_gas_risk gas
           (PrimFloat.opp Float64.smallest_normal) = Ok (Low, score) /\
         Float64.negative score = true /\
         Float64.in_range score = false)
    gases.
Proof. repeat constructor; eexists; vm_compute; repeat split. Qed.

(* The double next above a threshold scores the boundary itself: the
   ranges of two neighbouring bands share their end. *)
Lemma next_above_threshold_scores_boundary :
  Float64.calculate_individual_gas_risk "so2" (PrimFloat.next_up 20%float)
    = Ok (Moderate, 25%float) /\
  Float64.calculate_individual_gas_risk "so2" (PrimFloat.next_up 125%float)
    = Ok (High, 50%float) /\
  Float64.calculate_individual_gas_risk "co2" (PrimFloat.next_up 1000%float)
    = Ok (Critical, 80%float).
Proof. vm_compute. repeat split. Qed.

End Float64Facts.

(* ===================================================================== *)
(*  Alert persistence                                                    *)
(* ===================================================================== *)

Module AlertFacts.
Import AIHealthEstimator Vocabulary Scenarios RiskScorerFacts.
Local Open Scope Q_scope.

(* ---- strings and keys ---- *)

Lemma prefix_append (p s : string) : String.prefix p (p ++ s)%string = true.
Proof.
  induction p as [|a p IH].
  - now destruct s.
  - change (String.prefix (String a p) (String a (p ++ s)) = true).
    cbn [String.prefix].
    destruct (ascii_dec a a); [exact IH | congruence].
Qed.

Lemma startswith_alert_key gas r : startswith (alert_key gas r) gas = true.
Proof. apply prefix_append. Qed.

Lemma in_gases g :
  In g gases -> g = "co2"%string \/ g = "no2"%string \/ g = "so2"%string.
Proof. cbn. intuition. Qed.

(* The key of one gas never starts with the name of another one. *)
Lemma startswith_other_gas g g' r :
  In g gases -> In g' gases -> g <> g' ->
  startswith (alert_key g r) g' = false.
Proof.
  intros Hg Hg' Hne.
  apply in_gases in Hg. apply in_gases in Hg'.
  destruct Hg as [-> | [-> | ->]], Hg' as [-> | [-> | ->]], r;
    solve [reflexivity | congruence].
Qed.

Lemma gases_known g : In g gases -> exists t, health_impact_factors !! g = Some t.
Proof.
  intros Hg. apply in_gases in Hg.
  destruct Hg as [-> | [-> | ->]]; eexists; reflexivity.
Qed.

(* ---- deleting the keys of a gas ---- *)

Lemma lookup_del_keys (m : gmap string AlertCandidate) ks k :
  del_keys m ks !! k = if bool_decide (k ∈ ks) then None else m !! k.
Proof.
  unfold del_keys. revert m.
  induction ks as [|k0 ks IH]; intros m; cbn [fold_left].
  - rewrite bool_decide_eq_false_2; [reflexivity | apply not_elem_of_nil].
  - rewrite IH. destruct (decide (k0 = k)) as [->|Hne].
    + rewrite lookup_delete_eq.
      rewrite (bool_decide_eq_true_2 (k ∈ k :: ks)) by apply list_elem_of_here.
      now destruct (bool_decide (k ∈ ks)).
    + rewrite lookup_delete_ne by assumption.
      destruct (bool_decide (k ∈ ks)) eqn:E.
      * apply bool_decide_eq_true_1 in E.
        rewrite bool_decide_eq_true_2; [reflexivity | now apply list_elem_of_further].
      * apply bool_decide_eq_false_1 in E.
        rewrite bool_decide_eq_false_2; [reflexivity|].
        rewrite elem_of_cons. intros [?|?]; congruence.
Qed.

Lemma in_keys (m : gmap string AlertCandidate) k :
  In k (keys m) <-> is_Some (m !! k).
Proof.
  unfold keys. rewrite <- list_elem_of_In, list_elem_of_fmap. split.
  - intros ([k' c] & -> & Hin). apply elem_of_map_to_list in Hin. eauto.
  - intros [c Hc]. exists (k, c). split; [reflexivity|].
    now apply elem_of_map_to_list.
Qed.

(* Removing the keys that start with gas: exactly those lookups vanish. *)
Lemma lookup_remove_gas (m : gmap string AlertCandidate) gas k :
  del_keys m (List.filter (fun key => startswith key gas) (keys m)) !! k =
    if startswith k gas then None else m !! k.
Proof.
  rewrite lookup_del_keys.
  destruct (startswith k gas) eqn:Es.
  - destruct (bool_decide _) eqn:E; [reflexivity|].
    apply bool_decide_eq_false_1 in E.
    destruct (m !! k) eqn:Hk; [|reflexivity].
    exfalso. apply E. apply list_elem_of_In, filter_In. split; [|exact Es].
    apply in_keys. eauto.
  - rewrite bool_decide_eq_false_2; [reflexivity|].
    intros Hin. apply list_elem_of_In, filter_In in Hin.
    destruct Hin as [_ Hs]. congruence.
Qed.

(* ---- one gas of one tick ---- *)

Lemma minutes_between_same t : minutes_between t t == 0.
Proof. unfold minutes_between. rewrite Z.sub_diag. reflexivity. Qed.

Lemma not_persisted_at_start t :
  Qle_bool alert_persistence_threshold (minutes_between t t) = false.
Proof.
  apply Qle_bool_false. rewrite minutes_between_same.
  unfold alert_persistence_threshold. lra.
Qed.

Lemma check_gas_total now rd gas st :
  In gas gases -> exists st', check_gas now rd gas st = Ok st'.
Proof.
  intros Hg. destruct (gases_known gas Hg) as [t Ht].
  destruct st as [aa al]. unfold check_gas.
  destruct (rd !! gas) as [v|]; [|eauto].
  rewrite (calculate_individual_gas_risk_unfold gas t v Ht).
  cbn [ra_risk_level ra_risk_score ra_health_effects ra_recommended_actions].
  destruct (risk_level_eqb _ High || risk_level_eqb _ Critical); [|eauto].
  destruct (aa !! alert_key gas _) eqn:Hk.
  - rewrite Hk. destruct (Qle_bool _ _); eauto.
  - rewrite lookup_insert_eq. destruct (Qle_bool _ _); eauto.
Qed.

(* What one turn of the loop does, read off a successful run. *)
Lemma check_gas_inv now rd gas aa al aa' al' :
  check_gas now rd gas (aa, al) = Ok (aa', al') ->
  (rd !! gas = None /\ aa' = aa /\ al' = al) \/
  (exists v r,
     rd !! gas = Some v /\ calculate_individual_gas_risk gas v = Ok r /\
     ((~ alerting (ra_risk_level r) /\ al' = al /\
       forall k, aa' !! k = if startswith k gas then None else aa !! k) \/
      (alerting (ra_risk_level r) /\
       exists c,
         aa' !! alert_key gas (ra_risk_level r) = Some c /\
         (aa !! alert_key gas (ra_risk_level r) = Some c \/
          (aa !! alert_key gas (ra_risk_level r) = None /\
           ac_start_time c = now)) /\
         (forall k, k <> alert_key gas (ra_risk_level r) ->
                    aa' !! k = aa !! k) /\
         ((al' = al /\
           Qle_bool alert_persistence_threshold
             (minutes_between (ac_start_time c) now) = false) \/
          (exists a,
             al' = al ++ [a] /\
             al_gas a = gas /\ al_level a = v /\
             al_risk_level a = ra_risk_level r /\
             al_risk_score a = ra_risk_score r /\
             al_severity a = severity_of (ra_risk_level r) /\
             al_duration_minutes a = minutes_between (ac_start_time c) now /\
             alert_persistence_threshold <= al_duration_minutes a))))).
Proof.
  unfold check_gas.
  destruct (rd !! gas) as [v|]; [|intros [= <- <-]; now left].
  destruct (calculate_individual_gas_risk gas v) as [r|e] eqn:Hr; [|discriminate].
  intros H. right. exists v, r. split; [reflexivity|]. split; [exact Hr|].
  destruct (risk_level_eqb (ra_risk_level r) High
            || risk_level_eqb (ra_risk_level r) Critical) eqn:Hb.
  - right.
    assert (Ha : alerting (ra_risk_level r)).
    { unfold alerting. destruct (ra_risk_level r); cbn in Hb;
        solve [discriminate | auto]. }
    split; [exact Ha|].
    set (key := alert_key gas (ra_risk_level r)) in *.
    destruct (aa !! key) as [c|] eqn:Hk.
    + rewrite Hk in H. exists c.
      destruct (Qle_bool _ _) eqn:Hd; injection H as <- <-.
      * repeat split; auto. right. eexists. repeat split.
        cbn. now apply Qle_bool_iff.
      * repeat split; auto.
    + rewrite lookup_insert_eq in H.
      cbn [ac_start_time] in H. rewrite not_persisted_at_start in H.
      injection H as <- <-. eexists.
      split; [apply lookup_insert_eq|].
      split; [right; split; reflexivity|].
      split; [intros k Hne; now rewrite lookup_insert_ne|].
      left. split; [reflexivity|]. apply not_persisted_at_start.
  - left. injection H as <- <-.
    split.
    + unfold alerting. intros [E|E]; rewrite E in Hb; discriminate.
    + split; [reflexivity|]. intros k. apply lookup_remove_gas.
Qed.

Lemma band_of_Ok gas v r :
  calculate_individual_gas_risk gas v = Ok r ->
  band_of gas v = Some (ra_risk_level r).
Proof. intros H. unfold band_of. now rewrite H. Qed.

(* Keys that do not start with the gas are not touched by its turn. *)
Lemma check_gas_frame now rd gas aa al aa' al' k :
  check_gas now rd gas (aa, al) = Ok (aa', al') ->
  startswith k gas = false ->
  aa' !! k = aa !! k.
Proof.
  intros H Hk. apply check_gas_inv in H.
  destruct H as [(_ & -> & _)|(v & r & _ & _ & [(_ & _ & Hrm)|(_ & c & _ & _ & Hfr & _)])].
  - reflexivity.
  - rewrite Hrm, Hk. reflexivity.
  - apply Hfr. intros ->. rewrite startswith_alert_key in Hk. discriminate.
Qed.

(* Where a candidate found after the turn comes from. *)
Lemma check_gas_provenance now rd gas aa al aa' al' k c :
  check_gas now rd gas (aa, al) = Ok (aa', al') ->
  aa' !! k = Some c ->
  aa !! k = Some c \/
  (exists v r, rd !! gas = Some v /\ band_of gas v = Some r /\ alerting r /\
               k = alert_key gas r /\ ac_start_time c = now).
Proof.
  intros H Hc. apply check_gas_inv in H.
  destruct H as [(_ & -> & _)|(v & r & Hv & Hr & [(_ & _ & Hrm)|(Ha & c' & Hc' & Hold & Hfr & _)])].
  - now left.
  - rewrite Hrm in Hc. destruct (startswith k gas); [discriminate | now left].
  - destruct (decide (k = alert_key gas (ra_risk_level r))) as [->|Hne].
    + rewrite Hc' in Hc. injection Hc as ->.
      destruct Hold as [Hold|[_ Hst]]; [now left|].
      right. exists v, (ra_risk_level r).
      auto using band_of_Ok.
    + left. rewrite <- (Hfr k Hne). exact Hc.
Qed.

(* The alerts a turn adds: at most one, about this gas, for a candidate
   that was already open before the turn and is old enough. *)
Lemma check_gas_alerts now rd gas aa al aa' al' :
  check_gas now rd gas (aa, al) = Ok (aa', al') ->
  exists new,
    al' = al ++ new /\
    forall a, In a new ->
      al_gas a = gas /\
      exists v c,
        rd !! gas = Some v /\
        al_level a = v /\
        band_of gas v = Some (al_risk_level a) /\
        alerting (al_risk_level a) /\
        aa !! alert_key gas (al_risk_level a) = Some c /\
        aa' !! alert_key gas (al_risk_level a) = Some c /\
        al_duration_minutes a = minutes_between (ac_start_time c) now /\
        alert_persistence_threshold <= al_duration_minutes a.
Proof.
  intros H. apply check_gas_inv in H.
  destruct H as [(_ & _ & ->)|(v & r & Hv & Hr & [(_ & -> & _)|(Ha & c & Hc' & Hold & _ & Hal)])].
  - exists []. rewrite app_nil_r. split; [reflexivity | intros a []].
  - exists []. rewrite app_nil_r. split; [reflexivity | intros a []].
  - destruct Hal as [[-> _]|(a & -> & Hg & Hl & Hrl & _ & _ & Hd & Hp)].
    + exists []. rewrite app_nil_r. split; [reflexivity | intros a []].
    + exists [a]. split; [reflexivity|].
      intros a' [<-|[]]. split; [exact Hg|].
      exists v, c. rewrite Hrl.
      repeat split; auto using band_of_Ok.
      destruct Hold as [Hold|[_ Hst]]; [exact Hold|].
      exfalso. rewrite Hd, Hst, minutes_between_same in Hp.
      unfold alert_persistence_threshold in Hp. lra.
Qed.

(* A low or moderate reading closes every candidate of the gas. *)
Lemma check_gas_clear now rd gas aa al aa' al' v r :
  check_gas now rd gas (aa, al) = Ok (aa', al') ->
  rd !! gas = Some v -> band_of gas v = Some r -> ~ alerting r ->
  no_candidate gas aa' /\ al' = al.
Proof.
  intros H Hv Hb Hna. apply check_gas_inv in H.
  destruct H as [(Hn & _)|(v' & r' & Hv' & Hr' & H)]; [congruence|].
  rewrite Hv in Hv'. injection Hv' as <-.
  rewrite (band_of_Ok _ _ _ Hr') in Hb. injection Hb as <-.
  destruct H as [(_ & -> & Hrm)|(Ha & _)]; [|contradiction].
  split; [|reflexivity]. intros k Hk. now rewrite Hrm, Hk.
Qed.

(* ---- the whole loop of one tick ---- *)

Section OneTick.
Variable now : datetime.
Variable rd : gmap string Q.

Lemma check_gases_total gs st :
  (forall g, In g gs -> In g gases) ->
  exists st', check_gases now rd gs st = Ok st'.
Proof.
  revert st. induction gs as [|g gs IH]; intros st Hin; cbn [check_gases]; [eauto|].
  destruct (check_gas_total now rd g st) as [st1 ->]; [apply Hin; now left|].
  apply IH. intros g' Hg'. apply Hin. now right.
Qed.

Lemma check_gases_frame gs aa al aa' al' k :
  check_gases now rd gs (aa, al) = Ok (aa', al') ->
  (forall g, In g gs -> startswith k g = false) ->
  aa' !! k = aa !! k.
Proof.
  revert aa al. induction gs as [|g gs IH]; intros aa al H Hk; cbn [check_gases] in H.
  - now injection H as <- <-.
  - destruct (check_gas now rd g (aa, al)) as [[aa1 al1]|] eqn:H1; [|discriminate].
    rewrite (IH _ _ H) by (intros; apply Hk; now right).
    eapply check_gas_frame; [exact H1 | apply Hk; now left].
Qed.

Lemma check_gases_provenance gs aa al aa' al' k c :
  check_gases now rd gs (aa, al) = Ok (aa', al') ->
  aa' !! k = Some c ->
  aa !! k = Some c \/
  (exists g v r, In g gs /\ rd !! g = Some v /\ band_of g v = Some r /\
                 alerting r /\ k = alert_key g r /\ ac_start_time c = now).
Proof.
  revert aa al. induction gs as [|g gs IH]; intros aa al H Hc; cbn [check_gases] in H.
  - injection H as <- <-. now left.
  - destruct (check_gas now rd g (aa, al)) as [[aa1 al1]|] eqn:H1; [|discriminate].
    destruct (IH _ _ H Hc) as [Hc1|(g' & v & r & Hg' & Hrest)].
    + destruct (check_gas_provenance _ _ _ _ _ _ _ _ _ H1 Hc1)
        as [?|(v & r & Hrest)]; [now left|].
      right. exists g, v, r. split; [now left | exact Hrest].
    + right. exists g', v, r. split; [now right | exact Hrest].
Qed.

Lemma check_gases_keep_no_candidate gs gas aa al aa' al' :
  In gas gases -> (forall g, In g gs -> In g gases) -> ~ In gas gs ->
  check_gases now rd gs (aa, al) = Ok (aa', al') ->
  no_candidate gas aa -> no_candidate gas aa'.
Proof.
  intros Hgas Hgs Hnin H Hno k Hk.
  destruct (aa' !! k) as [c|] eqn:Hc; [|reflexivity].
  destruct (check_gases_provenance _ _ _ _ _ _ _ H Hc)
    as [Hold|(g & v & r & Hg & _ & _ & _ & -> & _)].
  - rewrite (Hno k Hk) in Hold. discriminate.
  - rewrite startswith_other_gas in Hk; [discriminate|auto..].
    intros ->. contradiction.
Qed.

Lemma check_gases_alerts gs aa al aa' al' :
  (forall g, In g gs -> In g gases) -> NoDup gs ->
  check_gases now rd gs (aa, al) = Ok (aa', al') ->
  exists new,
    al' = al ++ new /\
    forall a, In a new -> In (al_gas a) gs /\ alert_justified now rd aa aa' a.
Proof.
  revert aa al. induction gs as [|g gs IH]; intros aa al Hgs Hnd H; cbn [check_gases] in H.
  - injection H as <- <-. exists []. rewrite app_nil_r.
    split; [reflexivity | intros a []].
  - destruct (check_gas now rd g (aa, al)) as [[aa1 al1]|] eqn:H1; [|discriminate].
    apply NoDup_cons in Hnd as [Hnin Hnd].
    assert (Hgs' : forall g', In g' gs -> In g' gases)
      by (intros; apply Hgs; now right).
    assert (Hneq : forall g', In g' gs -> g' <> g).
    { intros g' Hg' ->. apply Hnin. now apply list_elem_of_In. }
    destruct (check_gas_alerts _ _ _ _ _ _ _ H1) as (new1 & -> & Hnew1).
    destruct (IH _ _ Hgs' Hnd H) as (new2 & -> & Hnew2).
    exists (new1 ++ new2). split; [now rewrite app_assoc|].
    intros a Ha. apply in_app_or in Ha as [Ha|Ha].
    + destruct (Hnew1 a Ha) as (Hg & v & c & Hv & Hl & Hb & Hal & Hc & Hc1 & Hd & Hp).
      split; [left; now symmetry|].
      exists v, c. rewrite Hg. repeat split; auto.
      rewrite (check_gases_frame _ _ _ _ _ _ H); [exact Hc1|].
      intros g' Hg'. apply startswith_other_gas; auto.
      * apply Hgs. now left.
      * intros ->. now apply (Hneq g').
    + destruct (Hnew2 a Ha) as (Hg & v & c & Hv & Hl & Hb & Hal & Hc1 & Hc' & Hd & Hp).
      split; [now right|].
      exists v, c. repeat split; auto.
      rewrite <- (check_gas_frame _ _ _ _ _ _ _ (alert_key (al_gas a) (al_risk_level a)) H1);
        [exact Hc1|].
      apply startswith_other_gas; auto.
      apply Hgs. now left.
Qed.

Lemma check_gases_clear gs gas v r aa al aa' al' :
  (forall g, In g gs -> In g gases) -> NoDup gs -> In gas gs ->
  rd !! gas = Some v -> band_of gas v = Some r -> ~ alerting r ->
  check_gases now rd gs (aa, al) = Ok (aa', al') ->
  no_candidate gas aa'.
Proof.
  intros Hgs Hnd Hin Hv Hb Hna. revert aa al.
  induction gs as [|g gs IH]; intros aa al H; [destruct Hin|]. cbn [check_gases] in H.
  destruct (check_gas now rd g (aa, al)) as [[aa1 al1]|] eqn:H1; [|discriminate].
  apply NoDup_cons in Hnd as [Hnin Hnd].
  assert (Hgs' : forall g', In g' gs -> In g' gases)
    by (intros; apply Hgs; now right).
  destruct (decide (g = gas)) as [->|Hne].
  - destruct (check_gas_clear _ _ _ _ _ _ _ _ _ H1 Hv Hb Hna) as [Hno _].
    refine (check_gases_keep_no_candidate gs gas aa1 al1 aa' al' _ Hgs' _ H Hno).
    + apply Hgs. now left.
    + intros Hc. apply Hnin. now apply list_elem_of_In.
  - destruct Hin as [?|Hin]; [contradiction|].
    eapply IH; eauto.
Qed.
End OneTick.

Lemma NoDup_gases : NoDup gases.
Proof. apply (bool_decide_unpack _). vm_compute. exact I. Qed.

Lemma alert_key_inj g g' r r' :
  In g gases -> In g' gases -> alert_key g r = alert_key g' r' ->
  g = g' /\ r = r'.
Proof.
  intros Hg Hg' H. apply in_gases in Hg. apply in_gases in Hg'.
  destruct Hg as [-> | [-> | ->]], Hg' as [-> | [-> | ->]], r, r';
    solve [discriminate H | split; reflexivity].
Qed.

Lemma append_inv_head (p s1 s2 : string) :
  (p ++ s1)%string = (p ++ s2)%string -> s1 = s2.
Proof.
  induction p as [|a p IH]; intros H; [exact H|].
  apply IH. now injection H.
Qed.

Lemma alert_key_band_inj gas r r' : alert_key gas r = alert_key gas r' -> r = r'.
Proof.
  unfold alert_key. intros H. apply append_inv_head in H.
  destruct r, r'; solve [reflexivity | discriminate H].
Qed.

(* ---- check_alerts ---- *)

Lemma check_alerts_inv aa rd now alerts aa' :
  check_alerts aa rd now = Ok (alerts, aa') ->
  check_gases now rd gases (aa, []) = Ok (aa', alerts).
Proof.
  unfold check_alerts.
  destruct (check_gases now rd gases (aa, [])) as [[aa1 al1]|]; [|discriminate].
  now intros [= <- <-].
Qed.

Lemma check_alerts_total aa rd now :
  exists alerts aa', check_alerts aa rd now = Ok (alerts, aa').
Proof.
  unfold check_alerts.
  destruct (check_gases_total now rd gases (aa, [])) as [[aa1 al1] ->]; eauto.
Qed.

Lemma check_alerts_justified aa rd now alerts aa' a :
  check_alerts aa rd now = Ok (alerts, aa') -> In a alerts ->
  In (al_gas a) gases /\ alert_justified now rd aa aa' a.
Proof.
  intros H Ha. apply check_alerts_inv in H.
  destruct (check_gases_alerts now rd gases aa [] aa' alerts) as (new & -> & Hnew);
    auto using NoDup_gases.
Qed.

Lemma check_alerts_clear aa rd now alerts aa' gas v r :
  In gas gases -> rd !! gas = Some v -> band_of gas v = Some r -> ~ alerting r ->
  check_alerts aa rd now = Ok (alerts, aa') ->
  no_candidate gas aa' /\ forall a, In a alerts -> al_gas a <> gas.
Proof.
  intros Hg Hv Hb Hna H. split.
  - apply check_alerts_inv in H.
    eapply check_gases_clear; eauto using NoDup_gases.
  - intros a Ha Heq.
    destruct (check_alerts_justified _ _ _ _ _ _ H Ha)
      as (_ & v' & c & Hv' & _ & Hb' & Hal & _).
    rewrite Heq, Hv in Hv'. injection Hv' as <-.
    rewrite Heq, Hb in Hb'. injection Hb' as ->. contradiction.
Qed.

Lemma check_alerts_provenance aa rd now alerts aa' gas r c :
  In gas gases ->
  check_alerts aa rd now = Ok (alerts, aa') ->
  aa' !! alert_key gas r = Some c ->
  aa !! alert_key gas r = Some c \/
  (exists v, rd !! gas = Some v /\ band_of gas v = Some r /\ alerting r /\
             ac_start_time c = now).
Proof.
  intros Hg H Hc. apply check_alerts_inv in H.
  destruct (check_gases_provenance _ _ _ _ _ _ _ _ _ H Hc)
    as [?|(g & v & r' & Hg' & Hv & Hb & Hal & Hk & Hst)]; [now left|].
  apply alert_key_inj in Hk as [-> ->]; auto.
  right. eauto.
Qed.

(* ---- runs of ticks ---- *)

Lemma run_ticks_cons aa t rd rest outs final :
  run_ticks aa ((t, rd) :: rest) = Ok (outs, final) ->
  exists alerts aa1 outs',
    check_alerts aa rd t = Ok (alerts, aa1) /\
    run_ticks aa1 rest = Ok (outs', final) /\
    outs = alerts :: outs'.
Proof.
  cbn [run_ticks].
  destruct (check_alerts aa rd t) as [[alerts aa1]|] eqn:H1; [|discriminate].
  destruct (run_ticks aa1 rest) as [[outs' final']|] eqn:H2; [|discriminate].
  intros [= <- <-]. exists alerts, aa1, outs'. auto.
Qed.

Lemma run_ticks_total ticks aa :
  exists outs final, run_ticks aa ticks = Ok (outs, final).
Proof.
  revert aa. induction ticks as [|[t rd] rest IH]; intros aa; cbn [run_ticks].
  - eauto.
  - destruct (check_alerts_total aa rd t) as (alerts & aa1 & ->).
    destruct (IH aa1) as (outs & final & ->). eauto.
Qed.

(* One tick keeps the candidates of the gas tracked, the tick itself
   joining the past. *)
Lemma tracked_step gas past aa t rd alerts aa1 :
  In gas gases -> tracked gas past aa ->
  check_alerts aa rd t = Ok (alerts, aa1) ->
  tracked gas (past ++ [(t, rd)]) aa1.
Proof.
  intros Hg Htr H r c Hc.
  destruct (check_alerts_provenance _ _ _ _ _ _ _ _ Hg H Hc)
    as [Hold|(v & Hv & Hb & _ & Hst)].
  - destruct (Htr r c Hold) as (k & t_k & rd_k & v_k & Hk & Hrest).
    exists k, t_k, rd_k, v_k. split; [|exact Hrest].
    rewrite lookup_app_l; [exact Hk | eapply lookup_lt_Some, Hk].
  - exists (length past), t, rd, v. split; [|auto].
    rewrite lookup_app_r by apply Nat.le_refl.
    rewrite Nat.sub_diag. reflexivity.
Qed.

(* An alert of a run is about a candidate opened at an earlier tick, at
   least a full threshold before the tick that emits it. *)
Lemma run_ticks_alert gas ticks : forall past aa outs final,
  In gas gases -> tracked gas past aa ->
  run_ticks aa ticks = Ok (outs, final) ->
  forall j t_j rd_j alerts_j a,
    ticks !! j = Some (t_j, rd_j) -> outs !! j = Some alerts_j ->
    In a alerts_j -> al_gas a = gas ->
    exists k t_k rd_k v_k,
      (k < length past + j)%nat /\
      (past ++ ticks) !! k = Some (t_k, rd_k) /\
      rd_k !! gas = Some v_k /\
      band_of gas v_k = Some (al_risk_level a) /\
      al_duration_minutes a = minutes_between t_k t_j /\
      alert_persistence_threshold <= minutes_between t_k t_j.
Proof.
  induction ticks as [|[t rd] rest IH];
    intros past aa outs final Hg Htr Hrun j t_j rd_j alerts_j a Hj Ho Ha Hgas;
    [discriminate Hj|].
  apply run_ticks_cons in Hrun as (alerts & aa1 & outs' & Hchk & Hrest & ->).
  destruct j as [|j]; cbn in Hj, Ho.
  - injection Hj as <- <-. injection Ho as <-.
    destruct (check_alerts_justified _ _ _ _ _ _ Hchk Ha)
      as (_ & v & c & _ & _ & _ & _ & Hc & _ & Hd & Hp).
    rewrite Hgas in Hc.
    destruct (Htr _ _ Hc) as (k & t_k & rd_k & v_k & Hk & Hst & Hv & Hb).
    exists k, t_k, rd_k, v_k.
    pose proof (lookup_lt_Some _ _ _ Hk) as Hlt.
    rewrite lookup_app_l by exact Hlt.
    rewrite Hd, Hst in Hp. rewrite Hd, Hst.
    repeat split; auto. rewrite Nat.add_0_r. exact Hlt.
  - pose proof (tracked_step _ _ _ _ _ _ _ Hg Htr Hchk) as Htr'.
    destruct (IH _ _ _ _ Hg Htr' Hrest j t_j rd_j alerts_j a Hj Ho Ha Hgas)
      as (k & t_k & rd_k & v_k & Hlt & Hk & Hrest').
    exists k, t_k, rd_k, v_k. split.
    + rewrite length_app in Hlt. cbn [length] in Hlt.
      rewrite <- Nat.add_assoc in Hlt. exact Hlt.
    + split; [|exact Hrest'].
      rewrite <- app_assoc in Hk. exact Hk.
Qed.

Lemma no_candidate_tracked gas aa : no_candidate gas aa -> tracked gas [] aa.
Proof.
  intros Hno r c Hc. rewrite Hno in Hc; [discriminate|].
  apply startswith_alert_key.
Qed.

(** C3. In every run of evaluation ticks, check_alerts returns an alert for
    a (gas, band) key only when a candidate for that key was already open
    before the tick and at least alert_persistence_threshold (10) minutes
    lie between its start_time and the tick.  A single tick in which the
    gas's band is low or moderate leaves no candidate of that gas and
    emits no alert for it; a later alert for that gas then comes from a
    candidate opened at a tick after the clearing one, a full threshold
    before the alert. *)
Theorem check_alerts_persistence :
  (forall aa rd now alerts aa' a,
     check_alerts aa rd now = Ok (alerts, aa') -> In a alerts ->
     exists c,
       aa !! alert_key (al_gas a) (al_risk_level a) = Some c /\
       aa' !! alert_key (al_gas a) (al_risk_level a) = Some c /\
       al_duration_minutes a = minutes_between (ac_start_time c) now /\
       alert_persistence_threshold <= minutes_between (ac_start_time c) now) /\
  (forall aa rd now alerts aa' gas v r,
     In gas gases -> rd !! gas = Some v -> band_of gas v = Some r ->
     r = Low \/ r = Moderate ->
     check_alerts aa rd now = Ok (alerts, aa') ->
     no_candidate gas aa' /\ forall a, In a alerts -> al_gas a <> gas) /\
  (forall aa t0 rd0 gas v0 r0 ticks outs final,
     In gas gases -> rd0 !! gas = Some v0 -> band_of gas v0 = Some r0 ->
     r0 = Low \/ r0 = Moderate ->
     run_ticks aa ((t0, rd0) :: ticks) = Ok (outs, final) ->
     forall j t_j rd_j alerts_j a,
       ticks !! j = Some (t_j, rd_j) -> outs !! S j = Some alerts_j ->
       In a alerts_j -> al_gas a = gas ->
       exists k t_k rd_k v_k,
         (k < j)%nat /\ ticks !! k = Some (t_k, rd_k) /\
         rd_k !! gas = Some v_k /\
         band_of gas v_k = Some (al_risk_level a) /\
         al_duration_minutes a = minutes_between t_k t_j /\
         alert_persistence_threshold <= minutes_between t_k t_j).
Proof.
  assert (Hna : forall r, r = Low \/ r = Moderate -> ~ alerting r).
  { intros r [-> | ->] [?|?]; discriminate. }
  split; [|split].
  - intros aa rd now alerts aa' a H Ha.
    destruct (check_alerts_justified _ _ _ _ _ _ H Ha)
      as (_ & v & c & _ & _ & _ & _ & Hc & Hc' & Hd & Hp).
    exists c. rewrite Hd in Hp. auto.
  - intros aa rd now alerts aa' gas v r Hg Hv Hb Hr H.
    eapply check_alerts_clear; eauto.
  - intros aa t0 rd0 gas v0 r0 ticks outs final Hg Hv Hb Hr Hrun
      j t_j rd_j alerts_j a Hj Ho Ha Hgas.
    apply run_ticks_cons in Hrun as (alerts & aa1 & outs' & Hchk & Hrest & ->).
    destruct (check_alerts_clear _ _ _ _ _ _ _ _ Hg Hv Hb (Hna _ Hr) Hchk)
      as [Hno _].
    cbn in Ho.
    exact (run_ticks_alert gas ticks [] aa1 outs' final Hg
             (no_candidate_tracked _ _ Hno) Hrest j t_j rd_j alerts_j a
             Hj Ho Ha Hgas).
Qed.

Lemma check_alerts_persistence_witness :
  exists alerts aa' a,
    check_alerts no2_open {[ "no2"%string := 250 ]} (10 * minute)%Z
      = Ok (alerts, aa') /\
    In a alerts /\
    exists c,
      no2_open !! alert_key (al_gas a) (al_risk_level a) = Some c /\
      aa' !! alert_key (al_gas a) (al_risk_level a) = Some c /\
      al_duration_minutes a = minutes_between (ac_start_time c) (10 * minute)%Z /\
      alert_persistence_threshold <= minutes_between (ac_start_time c) (10 * minute)%Z.
Proof.
  assert (H : exists alerts aa' a,
             check_alerts no2_open {[ "no2"%string := 250 ]} (10 * minute)%Z
               = Ok (alerts, aa') /\ In a alerts).
  { eexists _, _, _. split; [vm_compute; reflexivity | left; reflexivity]. }
  destruct H as (alerts & aa' & a & H & Ha).
  exists alerts, aa', a. split; [exact H|]. split; [exact Ha|].
  exact (proj1 check_alerts_persistence _ _ _ _ _ _ H Ha).
Defined.

(* ---- what a tick keeps ---- *)

(* A candidate disappears only in the turn of a gas its key starts with,
   and only when that gas reads low or moderate. *)
Lemma check_gas_kept now rd g aa al aa' al' k c :
  check_gas now rd g (aa, al) = Ok (aa', al') ->
  aa !! k = Some c ->
  aa' !! k = Some c \/
  (startswith k g = true /\
   exists v r, rd !! g = Some v /\ band_of g v = Some r /\ ~ alerting r).
Proof.
  intros H Hc. apply check_gas_inv in H.
  destruct H as [(_ & -> & _)|(v & r & Hv & Hr & [(Hna & _ & Hrm)|(Ha & c' & Hc' & Hold & Hfr & _)])].
  - now left.
  - rewrite Hrm. destruct (startswith k g) eqn:Hs; [|now left].
    right. split; [reflexivity|]. exists v, (ra_risk_level r).
    auto using band_of_Ok.
  - left. destruct (decide (k = alert_key g (ra_risk_level r))) as [->|Hne].
    + destruct Hold as [Hold|[Hold _]]; congruence.
    + now rewrite Hfr.
Qed.

Lemma check_gases_kept now rd gs aa al aa' al' k c :
  check_gases now rd gs (aa, al) = Ok (aa', al') ->
  aa !! k = Some c ->
  aa' !! k = Some c \/
  (exists g v r, In g gs /\ startswith k g = true /\
                 rd !! g = Some v /\ band_of g v = Some r /\ ~ alerting r).
Proof.
  revert aa al. induction gs as [|g gs IH]; intros aa al H Hc;
    cbn [check_gases] in H.
  - injection H as <- <-. now left.
  - destruct (check_gas now rd g (aa, al)) as [[aa1 al1]|] eqn:H1; [|discriminate].
    destruct (check_gas_kept _ _ _ _ _ _ _ _ _ H1 Hc) as [Hc1|(Hs & v & r & Hrest)].
    + destruct (IH _ _ H Hc1) as [?|(g' & v & r & Hg' & Hrest)]; [now left|].
      right. exists g', v, r. split; [now right | exact Hrest].
    + right. exists g, v, r. split; [now left | auto].
Qed.

Lemma check_alerts_kept aa rd now alerts aa' gas r c :
  In gas gases ->
  check_alerts aa rd now = Ok (alerts, aa') ->
  aa !! alert_key gas r = Some c ->
  aa' !! alert_key gas r = Some c \/
  (exists v r', rd !! gas = Some v /\ band_of gas v = Some r' /\ ~ alerting r').
Proof.
  intros Hg H Hc. apply check_alerts_inv in H.
  destruct (check_gases_kept _ _ _ _ _ _ _ _ _ H Hc)
    as [?|(g & v & r' & Hg' & Hs & Hrest)]; [now left|].
  right. exists v, r'.
  destruct (decide (gas = g)) as [->|Hne]; [exact Hrest|].
  rewrite startswith_other_gas in Hs by assumption. discriminate.
Qed.

Lemma not_alerting_iff r : ~ alerting r <-> r = Low \/ r = Moderate.
Proof.
  unfold alerting. destruct r; intuition congruence.
Qed.

(** C9. On a tick where a gas reads high, the candidate of (gas, critical)
    is left as it was; a candidate of a gas goes away only on a tick where
    that gas reads low or moderate.  So for the run dip_ticks (no2 critical
    at minute 0, high at minute 5, critical again at minute 10) the third
    tick emits a (no2, critical) alert whose duration_minutes is the full
    10 minutes, five of which followed a reading that was only high. *)
Theorem high_tick_keeps_critical_candidate :
  (forall aa rd now alerts aa' gas v,
     In gas gases -> rd !! gas = Some v -> band_of gas v = Some High ->
     check_alerts aa rd now = Ok (alerts, aa') ->
     aa' !! alert_key gas Critical = aa !! alert_key gas Critical) /\
  (forall aa rd now alerts aa' gas r c,
     In gas gases -> check_alerts aa rd now = Ok (alerts, aa') ->
     aa !! alert_key gas r = Some c ->
     aa' !! alert_key gas r <> Some c ->
     exists v r', rd !! gas = Some v /\ band_of gas v = Some r' /\
                  (r' = Low \/ r' = Moderate)) /\
  (band_of "no2" 450 = Some Critical /\ band_of "no2" 150 = Some High /\
   exists a final,
     run_ticks ∅ dip_ticks = Ok ([[]; []; [a]], final) /\
     al_gas a = "no2"%string /\ al_risk_level a = Critical /\
     al_severity a = "critical"%string /\
     al_duration_minutes a == 10).
Proof.
  split; [|split].
  - intros aa rd now alerts aa' gas v Hg Hv Hb H.
    destruct (aa !! alert_key gas Critical) as [c|] eqn:Hc.
    + destruct (check_alerts_kept _ _ _ _ _ _ _ _ Hg H Hc)
        as [?|(v' & r' & Hv' & Hb' & Hna)]; [assumption|].
      rewrite Hv in Hv'. injection Hv' as <-.
      rewrite Hb in Hb'. injection Hb' as <-.
      exfalso. apply Hna. now left.
    + destruct (aa' !! alert_key gas Critical) as [c|] eqn:Hc'; [|reflexivity].
      destruct (check_alerts_provenance _ _ _ _ _ _ _ _ Hg H Hc')
        as [?|(v' & Hv' & Hb' & _)]; [congruence|].
      rewrite Hv in Hv'. injection Hv' as <-.
      rewrite Hb in Hb'. discriminate.
  - intros aa rd now alerts aa' gas r c Hg H Hc Hgone.
    destruct (check_alerts_kept _ _ _ _ _ _ _ _ Hg H Hc)
      as [?|(v & r' & Hv & Hb & Hna)]; [contradiction|].
    exists v, r'. rewrite <- not_alerting_iff. auto.
  - split; [vm_compute; reflexivity|]. split; [vm_compute; reflexivity|].
    eexists _, _. split; [vm_compute; reflexivity|].
    repeat split; reflexivity.
Qed.

Lemma high_tick_keeps_critical_candidate_witness :
  In "no2"%string gases /\
  ({[ "no2"%string := 150 ]} : gmap string Q) !! "no2"%string = Some 150 /\
  band_of "no2" 150 = Some High /\
  exists alerts aa',
    check_alerts no2_open {[ "no2"%string := 150 ]} (5 * minute)%Z
      = Ok (alerts, aa') /\
    aa' !! alert_key "no2" Critical = no2_open !! alert_key "no2" Critical.
Proof.
  assert (Hg : In "no2"%string gases) by (right; left; reflexivity).
  assert (Hv : ({[ "no2"%string := 150 ]} : gmap string Q) !! "no2"%string
               = Some 150) by reflexivity.
  assert (Hb : band_of "no2" 150 = Some High) by (vm_compute; reflexivity).
  split; [exact Hg|]. split; [exact Hv|]. split; [exact Hb|].
  destruct (check_alerts no2_open {[ "no2"%string := 150 ]} (5 * minute)%Z)
    as [[alerts aa']|] eqn:H; [|vm_compute in H; discriminate H].
  exists alerts, aa'. split; [reflexivity|].
  exact (proj1 high_tick_keeps_critical_candidate _ _ _ _ _ _ _ Hg Hv Hb H).
Defined.

(* ---- no validation ---- *)

Lemma check_gas_ext now rd rd' gas st :
  rd !! gas = rd' !! gas ->
  check_gas now rd gas st = check_gas now rd' gas st.
Proof. intros H. destruct st as [aa al]. unfold check_gas. now rewrite H. Qed.

Lemma check_gases_ext now rd rd' gs st :
  (forall g, In g gs -> rd !! g = rd' !! g) ->
  check_gases now rd gs st = check_gases now rd' gs st.
Proof.
  revert st. induction gs as [|g gs IH]; intros st H; cbn [check_gases];
    [reflexivity|].
  rewrite (check_gas_ext now rd rd' g st) by (apply H; now left).
  destruct (check_gas now rd' g st); [|reflexivity].
  apply IH. intros g' Hg'. apply H. now right.
Qed.

Lemma band_of_negative gas v :
  In gas gases -> v < 0 -> band_of gas v = Some Low.
Proof.
  intros Hg Hv. destruct (gases_known gas Hg) as [t Ht].
  pose proof (thresholds_ordered gas t Ht) as (H0 & _).
  unfold band_of.
  rewrite (calculate_individual_gas_risk_unfold gas t v Ht).
  cbn [ra_risk_level]. rewrite band_low by lra. reflexivity.
Qed.

(** C8 (as the code has it). check_alerts never fails, whatever the
    readings: there is no validation.  A reading under a name that is not
    one of the three gases is ignored (same result, same candidates as
    without it); a negative value of a known gas is scored in the band low
    and, like any low reading, closes the candidates of that gas.  Only
    calculate_individual_gas_risk called directly with a gas that is not in
    the table raises, a KeyError. *)
Theorem check_alerts_no_validation :
  (forall aa rd now, exists alerts aa',
     check_alerts aa rd now = Ok (alerts, aa')) /\
  (forall aa rd now name v,
     ~ In name gases ->
     check_alerts aa (<[name := v]> rd) now = check_alerts aa rd now) /\
  (forall aa rd now gas v alerts aa',
     In gas gases -> rd !! gas = Some v -> v < 0 ->
     check_alerts aa rd now = Ok (alerts, aa') ->
     band_of gas v = Some Low /\ no_candidate gas aa' /\
     forall a, In a alerts -> al_gas a <> gas) /\
  (forall gas v,
     ~ In gas gases -> calculate_individual_gas_risk gas v = Raise (KeyError gas)).
Proof.
  split; [|split; [|split]].
  - apply check_alerts_total.
  - intros aa rd now name v Hn. unfold check_alerts.
    rewrite (check_gases_ext now (<[name := v]> rd) rd); [reflexivity|].
    intros g Hg. apply lookup_insert_ne. intros ->. contradiction.
  - intros aa rd now gas v alerts aa' Hg Hv Hneg H.
    pose proof (band_of_negative gas v Hg Hneg) as Hb.
    split; [exact Hb|].
    apply (check_alerts_clear aa rd now alerts aa' gas v Low); auto.
    intros [?|?]; discriminate.
  - intros gas v Hn. unfold calculate_individual_gas_risk.
    destruct (health_impact_factors !! gas) as [t|] eqn:Ht; [|reflexivity].
    exfalso. apply Hn. apply lookup_health_impact_factors in Ht.
    destruct Ht as [[-> _]|[[-> _]|[-> _]]]; cbn; auto.
Qed.

Lemma check_alerts_no_validation_witness :
  In "co2"%string gases /\
  ({[ "co2"%string := -5 ]} : gmap string Q) !! "co2"%string = Some (-5) /\
  -5 < 0 /\
  exists alerts aa',
    check_alerts co2_open {[ "co2"%string := -5 ]} 0%Z = Ok (alerts, aa') /\
    no_candidate "co2" aa'.
Proof.
  assert (Hg : In "co2"%string gases) by (left; reflexivity).
  assert (Hv : ({[ "co2"%string := -5 ]} : gmap string Q) !! "co2"%string
               = Some (-5)) by reflexivity.
  assert (Hn : -5 < 0) by reflexivity.
  split; [exact Hg|]. split; [exact Hv|]. split; [exact Hn|].
  destruct (check_alerts co2_open {[ "co2"%string := -5 ]} 0%Z)
    as [[alerts aa']|] eqn:H; [|vm_compute in H; discriminate H].
  exists alerts, aa'. split; [reflexivity|].
  exact (proj1 (proj2 (proj1 (proj2 (proj2 check_alerts_no_validation))
                 _ _ _ _ _ _ _ Hg Hv Hn H))).
Defined.

(** C8, counterexample. With a critical co2 candidate open, a negative co2
    reading is not rejected: check_alerts returns normally and the
    candidate is gone.  A reading under the unknown name o3 is not
    rejected either. *)
Lemma check_alerts_accepts_malformed :
  co2_open !! alert_key "co2" Critical <> None /\
  check_alerts co2_open {[ "co2"%string := -5 ]} 0%Z = Ok ([], ∅) /\
  (∅ : gmap string AlertCandidate) !! alert_key "co2" Critical = None /\
  check_alerts co2_open {[ "o3"%string := 7 ]} 0%Z = Ok ([], co2_open).
Proof.
  split; [vm_compute; discriminate|].
  split; [vm_compute; reflexivity|].
  split; [reflexivity|].
  vm_compute; reflexivity.
Qed.

End AlertFacts.

(* ===================================================================== *)
(*  The offline store and the sync cycle                                 *)
(* ===================================================================== *)

Module StoreFacts.
Import OfflineSync SyncVocabulary SyncScenarios.

(* ---- tables ---- *)

Lemma set_table_lookup d t tb t' :
  set_table d t tb t' = if decide (t = t') then tb else d t'.
Proof. destruct t, t'; reflexivity. Qed.

Lemma set_table_same d t tb : set_table d t tb t = tb.
Proof. destruct t; reflexivity. Qed.

Lemma set_table_other d t tb t' : t' <> t -> set_table d t tb t' = d t'.
Proof. intros H. destruct t, t'; solve [reflexivity | congruence]. Qed.

Lemma table_of_str_name t : table_of_str (table_name_str t) = Some t.
Proof. destruct t; reflexivity. Qed.

Lemma existsb_eqb_In i ids : existsb (Z.eqb i) ids = true <-> In i ids.
Proof.
  rewrite existsb_exists. split.
  - intros (x & Hx & He). apply Z.eqb_eq in He. now subst.
  - intros H. exists i. split; [exact H | apply Z.eqb_refl].
Qed.

(* ---- pruning ---- *)

Lemma in_delete_old tb cutoff r :
  In r (rows (delete_old tb cutoff)) <->
  In r (rows tb) /\ ~ (synced r = 1%Z /\ String.ltb (created_at r) cutoff = true).
Proof.
  unfold delete_old. cbn [rows]. rewrite filter_In.
  rewrite negb_true_iff, andb_false_iff, Z.eqb_neq.
  split; intros [Hin H]; (split; [exact Hin|]).
  - intros [Hs Hl]. destruct H as [H|H]; congruence.
  - destruct (Z.eq_dec (synced r) 1%Z) as [Hs|Hs]; [|now left].
    right. destruct (String.ltb (created_at r) cutoff); [|reflexivity].
    exfalso. apply H. auto.
Qed.

(* What the DELETE statements do with the cutoff text they are given: a
   row goes exactly when its synced column is 1 and its created_at sorts
   below the cutoff as TEXT; no row is added and an unsynced row stays. *)
Lemma cleanup_old_data_deletes_by_text self cutoff_time t r :
  In r (rows (db self t)) ->
  (~ In r (rows (db (cleanup_old_data self cutoff_time) t)) <->
     synced r = 1%Z /\ String.ltb (created_at r) cutoff_time = true) /\
  (synced r = 0%Z -> In r (rows (db (cleanup_old_data self cutoff_time) t))) /\
  (forall r', In r' (rows (db (cleanup_old_data self cutoff_time) t)) ->
              In r' (rows (db self t))).
Proof.
  intros Hin. cbn [cleanup_old_data db].
  split; [|split].
  - rewrite in_delete_old. split.
    + intros H.
      destruct (Z.eq_dec (synced r) 1%Z) as [Hs|Hs];
        destruct (String.ltb (created_at r) cutoff_time) eqn:Hl; auto;
        exfalso; apply H; (split; [exact Hin|]); intros [? ?]; congruence.
    + intros H [_ Hn]. contradiction.
  - intros Hs. apply in_delete_old. split; [exact Hin|].
    intros [Hs1 _]. rewrite Hs in Hs1. discriminate.
  - intros r' Hr'. now apply in_delete_old in Hr'.
Qed.

(** C4, at the failing input. cleanup_old_data(30), called one microsecond
    after midnight of 2024-03-31 on a machine whose clock is UTC, computes
    the cutoff 2024-03-01T00:00:00.000001 and deletes the synced reading
    created at 23:59:59 of 2024-03-01, almost a day after the cutoff:
    created_at is CURRENT_TIMESTAMP text, with a space between date and
    time, the cutoff is isoformat text, with a T, and on the cutoff's day
    the space sorts below the T.  Only the unsynced reading and the synced
    reading of the day after are left. *)
Theorem cleanup_deletes_record_newer_than_cutoff :
  Clock.minus_days cleanup_now 30 = Some cutoff_instant /\
  Clock.isoformat cutoff_instant = "2024-03-01T00:00:00.000001"%string /\
  List.map (fun r => (id r, synced r, created_at r))
      (rows (db late_store pollution_readings))
    = [ (1, 0, "2023-01-01 00:00:00"); (2, 1, "2024-02-29 12:00:00");
        (3, 1, "2024-03-01 23:59:59"); (4, 1, "2024-03-02 00:00:00")
      ]%Z%string /\
  Clock.sqlite_timestamp late_created = "2024-03-01 23:59:59"%string /\
  (Clock.micros cutoff_instant < Clock.micros late_created)%Z /\
  List.map id
      (rows (db (Clock.cleanup_old_data_days late_store cleanup_now 30)
               pollution_readings))
    = [1; 4]%Z.
Proof. vm_compute. repeat split. Qed.

(* ---- mark_as_synced ---- *)

Lemma update_synced_rows tb ids :
  Forall2
    (fun r r' => (In (id r) ids -> r' = set_synced r) /\
                 (~ In (id r) ids -> r' = r))
    (rows tb) (rows (update_synced tb ids)).
Proof.
  unfold update_synced. cbn [rows].
  induction (rows tb) as [|r l IH]; cbn [List.map]; constructor; [|exact IH].
  destruct (existsb (Z.eqb (id r)) ids) eqn:E.
  - apply existsb_eqb_In in E. split; [reflexivity | contradiction].
  - split; [|reflexivity]. intros Hin. apply existsb_eqb_In in Hin. congruence.
Qed.

Lemma update_synced_idem tb ids :
  update_synced (update_synced tb ids) ids = update_synced tb ids.
Proof.
  unfold update_synced. cbn [rows seq]. f_equal.
  rewrite List.map_map. apply List.map_ext. intros r.
  destruct (existsb (Z.eqb (id r)) ids) eqn:E; cbn [id]; now rewrite E.
Qed.

Lemma mark_as_synced_known self tbl t ids :
  table_of_str tbl = Some t ->
  mark_as_synced self tbl ids =
    (true,
     {| db := set_table (db self) t (update_synced (db self t) ids);
        is_online := is_online self;
        last_sync := last_sync self |}).
Proof. intros H. unfold mark_as_synced. now rewrite H. Qed.

(** C5 (as the code has it). mark_as_synced returns a success flag, not a
    count.  For a known table it returns True after setting synced = 1 on
    exactly the rows whose id is in the list, every other row and table
    staying as it was; ids that are already synced or match no row raise no
    error.  A second call with the same ids changes no record, flips
    nothing, and returns the same flag again. *)
Theorem mark_as_synced_idempotent self tbl record_ids :
  let first := mark_as_synced self tbl record_ids in
  let second := mark_as_synced (snd first) tbl record_ids in
  fst second = fst first /\
  (forall t, db (snd second) t = db (snd first) t) /\
  (forall t, flipped (snd first) (snd second) t = 0%nat) /\
  (forall t, table_of_str tbl = Some t ->
     fst first = true /\ fst second = true /\
     Forall2
       (fun r r' => (In (id r) record_ids -> r' = set_synced r) /\
                    (~ In (id r) record_ids -> r' = r))
       (rows (db self t)) (rows (db (snd first) t)) /\
     forall t', t' <> t -> db (snd first) t' = db self t').
Proof.
  cbv zeta.
  assert (Hdb : forall t,
    db (snd (mark_as_synced (snd (mark_as_synced self tbl record_ids)) tbl record_ids)) t
    = db (snd (mark_as_synced self tbl record_ids)) t).
  { intros t'. destruct (table_of_str tbl) as [t|] eqn:Ht.
    - rewrite !(mark_as_synced_known _ tbl t) by exact Ht. cbn [snd db].
      destruct (decide (t' = t)) as [->|Hne].
      * rewrite !set_table_same. apply update_synced_idem.
      * now rewrite !set_table_other by exact Hne.
    - unfold mark_as_synced. repeat (rewrite Ht; cbn [fst snd]). reflexivity. }
  split; [|split; [exact Hdb|split]].
  - unfold mark_as_synced.
    destruct (table_of_str tbl) eqn:Ht; repeat (rewrite Ht; cbn [fst snd]);
      reflexivity.
  - intros t. unfold flipped, unsynced_count. rewrite Hdb. apply Nat.sub_diag.
  - intros t Ht. rewrite !(mark_as_synced_known _ tbl t) by exact Ht.
    cbn [fst snd db]. split; [reflexivity|]. split; [reflexivity|]. split.
    + rewrite set_table_same. apply update_synced_rows.
    + intros t' Hne. now apply set_table_other.
Qed.

Lemma mark_as_synced_idempotent_witness :
  table_of_str "pollution_readings" = Some pollution_readings /\
  fst (mark_as_synced backlog "pollution_readings" [1%Z; 2%Z]) = true /\
  fst (mark_as_synced (snd (mark_as_synced backlog "pollution_readings" [1%Z; 2%Z]))
         "pollution_readings" [1%Z; 2%Z]) = true.
Proof.
  assert (Ht : table_of_str "pollution_readings" = Some pollution_readings)
    by reflexivity.
  split; [exact Ht|].
  destruct (proj2 (proj2 (proj2
              (mark_as_synced_idempotent backlog "pollution_readings" [1%Z; 2%Z])))
              pollution_readings Ht) as (H1 & H2 & _).
  split; [exact H1 | exact H2].
Defined.

(** C5, counterexample. On the backlog of five unsynced readings, marking
    ids 1 and 2 flips two records and returns True (the integer 1, not 2);
    marking them again flips none and returns True again (not 0). *)
Lemma mark_as_synced_returns_flag_not_count :
  flipped backlog first_mark pollution_readings = 2%nat /\
  mark_as_synced backlog "pollution_readings" [1%Z; 2%Z] = (true, first_mark) /\
  int_of_bool true <> 2%Z /\
  flipped first_mark second_mark pollution_readings = 0%nat /\
  mark_as_synced first_mark "pollution_readings" [1%Z; 2%Z] = (true, second_mark) /\
  int_of_bool true <> 0%Z.
Proof.
  repeat split; try reflexivity; discriminate.
Qed.

(* ---- one sync cycle ---- *)

Lemma sync_one_spec e cur log t recs :
  let res := sync_one e (cur, log) (table_name_str t, recs) in
  (forall t', db (fst res) t' =
     if decide (t' = t) then sync_result e (table_name_str t) recs (db cur t)
     else db cur t') /\
  is_online (fst res) = is_online cur /\
  last_sync (fst res) = last_sync cur /\
  snd res = log ++ match recs with
                   | [] => []
                   | _ :: _ => [(table_name_str t, recs)]
                   end.
Proof.
  cbv zeta. unfold sync_one, sync_result.
  destruct recs as [|r0 recs'].
  - cbn [fst snd]. rewrite app_nil_r. repeat split.
    intros t'. destruct (decide (t' = t)) as [->|]; reflexivity.
  - destruct (remote e (table_name_str t) (r0 :: recs')).
    + rewrite (mark_as_synced_known _ _ t) by apply table_of_str_name.
      cbn [fst snd db is_online last_sync]. repeat split.
      intros t'. destruct (decide (t' = t)) as [->|Hne].
      * apply set_table_same.
      * now apply set_table_other.
    + cbn [fst snd]. repeat split.
      intros t'. destruct (decide (t' = t)) as [->|]; reflexivity.
Qed.

(* The loop over the snapshot taken by get_unsynced_data. *)
Lemma fold_sync_spec e snap ts : forall cur log,
  NoDup ts ->
  let res :=
    fold_left (sync_one e)
      (List.map (fun t => (table_name_str t, select_unsynced (snap t))) ts)
      (cur, log) in
  (forall t, db (fst res) t =
     if bool_decide (t ∈ ts)
     then sync_result e (table_name_str t) (select_unsynced (snap t)) (db cur t)
     else db cur t) /\
  is_online (fst res) = is_online cur /\
  last_sync (fst res) = last_sync cur /\
  snd res = log ++ pushes_of snap ts.
Proof.
  induction ts as [|t0 ts IH]; intros cur log Hnd; cbv zeta.
  - cbn [List.map fold_left fst snd pushes_of flat_map].
    rewrite app_nil_r. repeat split.
  - apply NoDup_cons in Hnd as [Hnin Hnd].
    cbn [List.map fold_left].
    pose proof (sync_one_spec e cur log t0 (select_unsynced (snap t0))) as Hone.
    cbv zeta in Hone.
    destruct (sync_one e (cur, log) (table_name_str t0, select_unsynced (snap t0)))
      as [cur1 log1].
    cbn [fst snd] in Hone. destruct Hone as (Hdb1 & Hon1 & Hls1 & Hlog1).
    specialize (IH cur1 log1 Hnd). cbv zeta in IH.
    destruct IH as (Hdb & Hon & Hls & Hlog).
    split; [|split; [congruence|split; [congruence|]]].
    + intros t. rewrite Hdb, !Hdb1.
      destruct (decide (t = t0)) as [->|Hne].
      * rewrite (bool_decide_eq_false_2 (t0 ∈ ts)) by exact Hnin.
        rewrite (bool_decide_eq_true_2 (t0 ∈ t0 :: ts)) by apply list_elem_of_here.
        reflexivity.
      * destruct (bool_decide (t ∈ ts)) eqn:E.
        -- apply bool_decide_eq_true_1 in E.
           rewrite bool_decide_eq_true_2 by (now apply list_elem_of_further).
           reflexivity.
        -- apply bool_decide_eq_false_1 in E.
           rewrite bool_decide_eq_false_2; [reflexivity|].
           rewrite elem_of_cons. intros [?|?]; contradiction.
    + rewrite Hlog, Hlog1. cbn [pushes_of flat_map].
      rewrite <- app_assoc. f_equal.
      destruct (select_unsynced (snap t0)); reflexivity.
Qed.

Lemma NoDup_tables : NoDup tables.
Proof. apply (bool_decide_unpack _). vm_compute. exact I. Qed.

Lemma in_tables t : t ∈ tables.
Proof. unfold tables. destruct t; set_solver. Qed.

(* _perform_sync, table by table. *)
Lemma perform_sync_spec self e :
  fst (fst (_perform_sync self e)) = true /\
  (forall t, db (after (_perform_sync self e)) t =
     sync_result e (table_name_str t) (select_unsynced (db self t)) (db self t)) /\
  is_online (after (_perform_sync self e)) = connectivity e /\
  last_sync (after (_perform_sync self e)) = Some (now_iso e) /\
  pushed (_perform_sync self e) = pushes_of (db self) tables.
Proof.
  unfold _perform_sync, get_unsynced_data, after, pushed.
  pose proof (fold_sync_spec e (db self) tables self [] NoDup_tables) as H.
  cbv zeta in H.
  destruct (fold_left (sync_one e) _ (self, [])) as [self' log].
  cbn [fst snd] in *. destruct H as (Hdb & _ & _ & Hlog).
  repeat split; try reflexivity.
  - intros t. change (db (_update_last_sync_time self' e) t) with (db self' t).
    rewrite Hdb.
    rewrite bool_decide_eq_true_2 by apply in_tables. reflexivity.
  - exact Hlog.
Qed.

(* Marking every unsynced row leaves none. *)
Lemma select_unsynced_all_marked tb :
  select_unsynced (update_synced tb (List.map id (select_unsynced tb))) = [].
Proof.
  unfold select_unsynced, update_synced. cbn [rows].
  set (ids := List.map id (List.filter (fun r => (synced r =? 0)%Z) (rows tb))).
  assert (Hids : forall r, In r (rows tb) -> synced r = 0%Z ->
                           existsb (Z.eqb (id r)) ids = true).
  { intros r Hr Hs. apply existsb_eqb_In. apply in_map.
    apply filter_In. split; [exact Hr | now apply Z.eqb_eq]. }
  clearbody ids. induction (rows tb) as [|r l IH]; [reflexivity|].
  cbn [List.map List.filter].
  destruct (existsb (Z.eqb (id r)) ids) eqn:E.
  - cbn [synced]. cbn. apply IH. intros r' Hr'. apply Hids. now right.
  - destruct (synced r =? 0)%Z eqn:Es.
    + apply Z.eqb_eq in Es. rewrite Hids in E; [discriminate|now left|exact Es].
    + apply IH. intros r' Hr'. apply Hids. now right.
Qed.

Lemma in_pushes_of snap ts t :
  In t ts -> select_unsynced (snap t) <> [] ->
  In (table_name_str t, select_unsynced (snap t)) (pushes_of snap ts).
Proof.
  intros Hin Hne. unfold pushes_of. apply in_flat_map.
  exists t. split; [exact Hin|].
  destruct (select_unsynced (snap t)); [congruence | now left].
Qed.

(** C6. In one sync cycle a failed push leaves its kind unsynced and does
    not keep another kind from being pushed and marked: when the push of
    t_ok succeeds and the push of t_fail fails, then after the cycle t_ok
    has no unsynced record and t_fail has the unsynced records it had (with
    five unsynced readings and three unsynced alerts: 0 and 3), both pushes
    having been attempted. *)
Theorem sync_cycle_partial_failure self e t_ok t_fail m :
  length (select_unsynced (db self t_fail)) = m ->
  remote e (table_name_str t_ok) (select_unsynced (db self t_ok)) = true ->
  remote e (table_name_str t_fail) (select_unsynced (db self t_fail)) = false ->
  unsynced_count (after (_perform_sync self e)) t_ok = 0%nat /\
  unsynced_count (after (_perform_sync self e)) t_fail = m /\
  db (after (_perform_sync self e)) t_fail = db self t_fail /\
  (select_unsynced (db self t_ok) <> [] ->
     In (table_name_str t_ok, select_unsynced (db self t_ok))
        (pushed (_perform_sync self e))) /\
  (select_unsynced (db self t_fail) <> [] ->
     In (table_name_str t_fail, select_unsynced (db self t_fail))
        (pushed (_perform_sync self e))).
Proof.
  intros Hm Hok Hfail.
  destruct (perform_sync_spec self e) as (_ & Hdb & _ & _ & Hlog).
  assert (Hf : db (after (_perform_sync self e)) t_fail = db self t_fail).
  { rewrite Hdb. unfold sync_result. rewrite Hfail.
    now destruct (select_unsynced (db self t_fail)). }
  split; [|split; [|split; [exact Hf|split]]].
  - unfold unsynced_count. rewrite Hdb. unfold sync_result. rewrite Hok.
    destruct (select_unsynced (db self t_ok)) as [|r0 recs] eqn:E.
    + now rewrite E.
    + rewrite <- E. now rewrite select_unsynced_all_marked.
  - unfold unsynced_count. now rewrite Hf.
  - intros Hne. rewrite Hlog. apply in_pushes_of; [|exact Hne].
    apply list_elem_of_In, in_tables.
  - intros Hne. rewrite Hlog. apply in_pushes_of; [|exact Hne].
    apply list_elem_of_In, in_tables.
Qed.

Lemma sync_cycle_partial_failure_witness :
  unsynced_count backlog pollution_readings = 5%nat /\
  length (select_unsynced (db backlog alerts)) = 3%nat /\
  remote (world true readings_only) (table_name_str pollution_readings)
    (select_unsynced (db backlog pollution_readings)) = true /\
  remote (world true readings_only) (table_name_str alerts)
    (select_unsynced (db backlog alerts)) = false /\
  unsynced_count (after (_perform_sync backlog (world true readings_only)))
    pollution_readings = 0%nat /\
  unsynced_count (after (_perform_sync backlog (world true readings_only)))
    alerts = 3%nat.
Proof.
  assert (H5 : unsynced_count backlog pollution_readings = 5%nat) by reflexivity.
  assert (H3 : length (select_unsynced (db backlog alerts)) = 3%nat) by reflexivity.
  assert (Hok : remote (world true readings_only) (table_name_str pollution_readings)
                  (select_unsynced (db backlog pollution_readings)) = true)
    by reflexivity.
  assert (Hfail : remote (world true readings_only) (table_name_str alerts)
                    (select_unsynced (db backlog alerts)) = false)
    by reflexivity.
  split; [exact H5|]. split; [exact H3|]. split; [exact Hok|]. split; [exact Hfail|].
  destruct (sync_cycle_partial_failure backlog (world true readings_only)
              pollution_readings alerts 3 H3 Hok Hfail) as (H0 & Hm & _).
  split; [exact H0 | exact Hm].
Defined.

(** C7 (as the code has it). A scheduled cycle, one iteration of
    sync_worker, looks at the stored is_online attribute without probing:
    when it is False the cycle is skipped entirely, nothing is pushed and
    no record changes; when it is True the cycle is _perform_sync.  A
    forced cycle, force_sync, is _perform_sync whatever is_online and the
    probe say: every kind with unsynced records is pushed, and marked when
    its push succeeds. *)
Theorem sync_cycle_gating :
  (forall self e,
     is_online self = false -> sync_worker_iteration self e = (self, [])) /\
  (forall self e,
     is_online self = true ->
     sync_worker_iteration self e =
       (after (_perform_sync self e), pushed (_perform_sync self e))) /\
  (forall self e, force_sync self e = _perform_sync self e) /\
  (forall self e t,
     select_unsynced (db self t) <> [] ->
     In (table_name_str t, select_unsynced (db self t))
        (pushed (force_sync self e)) /\
     (remote e (table_name_str t) (select_unsynced (db self t)) = true ->
      unsynced_count (after (force_sync self e)) t = 0%nat)).
Proof.
  split; [|split; [|split]].
  - intros self e H. unfold sync_worker_iteration. now rewrite H.
  - intros self e H. unfold sync_worker_iteration, after, pushed. rewrite H.
    now destruct (_perform_sync self e) as [[ok self'] log].
  - reflexivity.
  - intros self e t Hne. unfold force_sync.
    destruct (perform_sync_spec self e) as (_ & Hdb & _ & _ & Hlog).
    split.
    + rewrite Hlog. apply in_pushes_of; [|exact Hne].
      apply list_elem_of_In, in_tables.
    + intros Hok. unfold unsynced_count. rewrite Hdb. unfold sync_result.
      rewrite Hok.
      destruct (select_unsynced (db self t)) as [|r0 recs] eqn:E; [congruence|].
      rewrite <- E. now rewrite select_unsynced_all_marked.
Qed.

Lemma sync_cycle_gating_witness :
  is_online backlog = false /\
  sync_worker_iteration backlog (world false (always true)) = (backlog, []).
Proof.
  assert (H : is_online backlog = false) by reflexivity.
  split; [exact H|].
  exact (proj1 sync_cycle_gating backlog (world false (always true)) H).
Defined.

(** C7, counterexample. The backlog was stored offline and the probe still
    answers offline; force_sync nevertheless pushes both kinds and marks
    all eight records synced. *)
Lemma force_sync_ignores_connectivity :
  is_online backlog = false /\
  connectivity (world false (always true)) = false /\
  unsynced_count backlog pollution_readings = 5%nat /\
  unsynced_count backlog alerts = 3%nat /\
  List.map fst (pushed (force_sync backlog (world false (always true))))
    = ["pollution_readings"; "alerts"]%string /\
  unsynced_count (after (force_sync backlog (world false (always true))))
    pollution_readings = 0%nat /\
  unsynced_count (after (force_sync backlog (world false (always true))))
    alerts = 0%nat.
Proof. repeat split; reflexivity. Qed.

(* ---- the synced flag over time ---- *)

Lemma insert_into_appended self t ts c e :
  appended self (insert_into self t ts c e) t e.
Proof.
  unfold appended, insert_into. cbn [db].
  eexists. rewrite set_table_same. cbn [insert_row rows seq].
  split; [reflexivity|]. cbn [id synced created_at].
  repeat split. intros t' Hne. now apply set_table_other.
Qed.

(* A table after one operation: as before, one row appended, some rows
   marked, or some rows deleted. *)
Lemma step_table self o t :
  db (step self o) t = db self t \/
  (exists ts c s cr, db (step self o) t = insert_row (db self t) ts c s cr) \/
  (exists ids, db (step self o) t = update_synced (db self t) ids) \/
  (exists cutoff, db (step self o) t = delete_old (db self t) cutoff).
Proof.
  assert (Hins : forall t0 ts c e,
    db (insert_into self t0 ts c e) t = db self t \/
    (exists ts' c' s cr,
       db (insert_into self t0 ts c e) t = insert_row (db self t) ts' c' s cr)).
  { intros t0 ts c e. unfold insert_into. cbn [db].
    destruct (decide (t = t0)) as [->|Hne].
    - right. eexists _, _, _, _. apply set_table_same.
    - left. now apply set_table_other. }
  assert (Hsync : forall e,
    db (after (_perform_sync self e)) t = db self t \/
    (exists ids, db (after (_perform_sync self e)) t = update_synced (db self t) ids)).
  { intros e. destruct (perform_sync_spec self e) as (_ & Hdb & _).
    rewrite Hdb. unfold sync_result.
    destruct (select_unsynced (db self t)); [now left|].
    destruct (remote e _ _); [right; eauto | now left]. }
  destruct o; cbn [step];
    unfold store_pollution_reading, store_alert, store_action, store_report,
      force_sync;
    cbn [snd].
  - destruct (Hins pollution_readings (get (rd_timestamp reading) (now_iso e))
       (ReadingCols (get (rd_co2 reading) 0%Q) (get (rd_no2 reading) 0%Q)
          (get (rd_so2 reading) 0%Q)) e) as [H|H];
      [left; exact H | right; left; exact H].
  - destruct (Hins alerts
       (get (ad_timestamp alert) (now_iso e))
       (AlertCols (get (ad_gas alert) EmptyString) (get (ad_level alert) 0%Q)
          (get (ad_severity alert) EmptyString) (get (ad_message alert) EmptyString)
          (get (ad_duration_minutes alert) 0%Q)) e) as [H|H];
      [left; exact H | right; left; exact H].
  - destruct (Hins actions (now_iso e)
                (ActionCols action_type description user_id) e) as [H|H];
      [left; exact H | right; left; exact H].
  - destruct (Hins reports (now_iso e)
                (ReportCols report_type content recipients_str 0) e) as [H|H];
      [left; exact H | right; left; exact H].
  - unfold mark_as_synced. destruct (table_of_str tbl) as [t0|]; [|now left].
    cbn [snd db]. destruct (decide (t = t0)) as [->|Hne].
    + right. right. left. eexists. apply set_table_same.
    + left. now apply set_table_other.
  - destruct (Hsync e) as [H|H]; [left; exact H | right; right; left; exact H].
  - unfold sync_worker_iteration. destruct (is_online self); [|now left].
    pose proof (Hsync e) as H. unfold after in H.
    destruct (_perform_sync self e) as [[ok self'] log]. cbn [fst snd] in *.
    destruct H as [H|H]; [left; exact H | right; right; left; exact H].
  - now left.
  - right. right. right. exists cutoff_time. reflexivity.
Qed.

(* Such a change keeps the ids within the counter and never lowers the
   counter. *)
Lemma table_change_bounded tb tb' :
  tb' = tb \/
  (exists ts c s cr, tb' = insert_row tb ts c s cr) \/
  (exists ids, tb' = update_synced tb ids) \/
  (exists cutoff, tb' = delete_old tb cutoff) ->
  bounded tb -> bounded tb' /\ (seq tb <= seq tb')%Z.
Proof.
  intros H Hb.
  destruct H as [->|[(ts & c & s & cr & ->)|[(ids & ->)|(cutoff & ->)]]].
  - split; [exact Hb | lia].
  - unfold bounded, insert_row. cbn [rows seq]. split; [|lia].
    intros r Hr. apply in_app_or in Hr as [Hr|[<-|[]]].
    + specialize (Hb r Hr). lia.
    + cbn [id]. lia.
  - unfold bounded, update_synced. cbn [rows seq]. split; [|lia].
    intros r Hr. apply in_map_iff in Hr as (r0 & <- & Hr0).
    specialize (Hb r0 Hr0). now destruct (existsb _ _).
  - unfold bounded, delete_old. cbn [rows seq]. split; [|lia].
    intros r Hr. apply filter_In in Hr as [Hr _]. now apply Hb.
Qed.

(* It also keeps a synced id synced. *)
Lemma table_change_synced tb tb' i :
  tb' = tb \/
  (exists ts c s cr, tb' = insert_row tb ts c s cr) \/
  (exists ids, tb' = update_synced tb ids) \/
  (exists cutoff, tb' = delete_old tb cutoff) ->
  bounded tb -> (i <= seq tb)%Z -> synced_or_gone tb i ->
  synced_or_gone tb' i.
Proof.
  intros H Hb Hi Hs.
  destruct H as [->|[(ts & c & s & cr & ->)|[(ids & ->)|(cutoff & ->)]]].
  - exact Hs.
  - unfold synced_or_gone, insert_row. cbn [rows].
    intros r Hr Hid. apply in_app_or in Hr as [Hr|[<-|[]]].
    + now apply Hs.
    + cbn [id] in Hid. lia.
  - unfold synced_or_gone, update_synced. cbn [rows].
    intros r Hr Hid. apply in_map_iff in Hr as (r0 & <- & Hr0).
    destruct (existsb _ _); [reflexivity|]. now apply Hs.
  - unfold synced_or_gone, delete_old. cbn [rows].
    intros r Hr Hid. apply filter_In in Hr as [Hr _]. now apply Hs.
Qed.

Lemma run_ops_synced ops : forall self t i,
  (forall t', bounded (db self t')) -> (i <= seq (db self t))%Z ->
  synced_or_gone (db self t) i ->
  synced_or_gone (db (run_ops self ops) t) i.
Proof.
  unfold run_ops.
  induction ops as [|o ops IH]; intros self t i Hb Hi Hs; cbn [fold_left];
    [exact Hs|].
  apply IH.
  - intros t'. now apply (table_change_bounded (db self t')), Hb; apply step_table.
  - destruct (table_change_bounded (db self t) (db (step self o) t)
                (step_table self o t) (Hb t)) as [_ Hle]. lia.
  - eapply table_change_synced; eauto using step_table.
Qed.

(** C2 (as the code has it). Every append (store_pollution_reading,
    store_alert, store_action, store_report) returns True and adds one
    record, under the next id of its table, whose synced column is 1 when
    the is_online attribute is True at the call and 0 only when it is
    False.  Thereafter no operation sets a synced column back to 0: once
    every record held under an id is synced, this stays so through any
    sequence of appends, mark_as_synced calls, sync cycles and cleanups. *)
Theorem store_synced_flag :
  (forall self reading e,
     fst (store_pollution_reading self reading e) = true /\
     appended self (snd (store_pollution_reading self reading e))
       pollution_readings e) /\
  (forall self alert e,
     fst (store_alert self alert e) = true /\
     appended self (snd (store_alert self alert e)) alerts e) /\
  (forall self a d u e,
     fst (store_action self a d u e) = true /\
     appended self (snd (store_action self a d u e)) actions e) /\
  (forall self r c rs e,
     fst (store_report self r c rs e) = true /\
     appended self (snd (store_report self r c rs e)) reports e) /\
  (forall self ops t i,
     (forall t', bounded (db self t')) -> (i <= seq (db self t))%Z ->
     synced_or_gone (db self t) i ->
     synced_or_gone (db (run_ops self ops) t) i).
Proof.
  repeat split; try apply insert_into_appended.
  intros self ops t i. apply run_ops_synced.
Qed.

Lemma store_synced_flag_witness :
  (forall t', bounded (db old_store t')) /\
  (1 <= seq (db old_store pollution_readings))%Z /\
  synced_or_gone (db old_store pollution_readings) 1 /\
  synced_or_gone
    (db (run_ops old_store
           [StoreReading a_reading (world true (always false));
            MarkAsSynced "pollution_readings" [2%Z];
            SyncWorker (world false (always false));
            Cleanup "2023-01-01T00:00:00.000000"])
        pollution_readings) 1.
Proof.
  assert (Hb : forall t', bounded (db old_store t')).
  { intros t' r Hr. cbn in Hr.
    destruct Hr as [<-|[<-|[]]]; cbn; lia. }
  assert (Hi : (1 <= seq (db old_store pollution_readings))%Z) by (cbn; lia).
  assert (Hs : synced_or_gone (db old_store pollution_readings) 1).
  { intros r Hr Hid. cbn in Hr.
    destruct Hr as [<-|[<-|[]]]; [reflexivity | cbn in Hid; lia]. }
  split; [exact Hb|]. split; [exact Hi|]. split; [exact Hs|].
  exact (proj2 (proj2 (proj2 (proj2 store_synced_flag))) _ _ _ _ Hb Hi Hs).
Defined.

(** C2, counterexample. A reading stored while is_online is True is
    persisted with synced = 1: it never shows up as unsynced. *)
Lemma store_while_online_is_synced :
  is_online (fresh true) = true /\
  List.map synced
    (rows (db (snd (store_pollution_reading (fresh true) a_reading
                      (world true (always true))))
             pollution_readings)) = [1%Z] /\
  select_unsynced
    (db (snd (store_pollution_reading (fresh true) a_reading
                (world true (always true))))
        pollution_readings) = [].
Proof. repeat split; reflexivity. Qed.

End StoreFacts.

(* ===================================================================== *)
(*  Further properties: scores                                           *)
(* ===================================================================== *)

Module ScoreFacts.
Import AIHealthEstimator Vocabulary ScoreVocabulary RiskScorerFacts.
Local Open Scope Q_scope.

Lemma Qdiv_le_mono x y d : 0 < d -> x <= y -> x / d <= y / d.
Proof.
  intros Hd Hxy. apply Qle_shift_div_l; [exact Hd|].
  unfold Qdiv. rewrite <- Qmult_assoc, (Qmult_comm (/ d)), Qmult_inv_r by lra.
  lra.
Qed.

Lemma Qdiv_lt_0 x d : 0 < d -> 0 < x -> 0 < x / d.
Proof. intros Hd Hx. apply Qlt_shift_div_l; lra. Qed.

Section Ranges.
Variable t : thresholds.
Hypothesis Hord : ordered t.

(* The band of a level and the range of its raw score. *)
Lemma raw_band_range v :
  in_band_range (fst (band_and_score t v)) (snd (band_and_score t v)).
Proof.
  destruct Hord as (H0 & Hlm & Hmh & Hhc).
  destruct (band_cases t v) as [H|[[H1 H2]|[[H1 H2]|H]]].
  - rewrite band_low by assumption. cbn [fst snd in_band_range].
    assert (F : v / th_low t <= 1) by (apply Qle_shift_div_r; lra).
    set (f := v / th_low t) in *. lra.
  - rewrite band_moderate by assumption. cbn [fst snd in_band_range].
    assert (F : 0 < (v - th_low t) / (th_moderate t - th_low t))
      by (apply Qdiv_lt_0; lra).
    assert (G : (v - th_low t) / (th_moderate t - th_low t) <= 1)
      by (apply Qle_shift_div_r; lra).
    set (f := (v - th_low t) / _) in *. lra.
  - rewrite band_high by assumption. cbn [fst snd in_band_range].
    assert (F : 0 < (v - th_moderate t) / (th_high t - th_moderate t))
      by (apply Qdiv_lt_0; lra).
    assert (G : (v - th_moderate t) / (th_high t - th_moderate t) <= 1)
      by (apply Qle_shift_div_r; lra).
    set (f := (v - th_moderate t) / _) in *. lra.
  - rewrite band_critical by assumption. cbn [fst snd in_band_range].
    assert (F : 0 < (v - th_high t) / (th_critical t - th_high t))
      by (apply Qdiv_lt_0; lra).
    set (f := (v - th_high t) / _) in *.
    pose proof (Q.le_min_r (f * 20) 20) as Hr.
    assert (Hl : 0 < Qmin (f * 20) 20) by (apply Q.min_glb_lt; lra).
    set (m := Qmin (f * 20) 20) in *. lra.
Qed.



(* The band never goes down, nor the raw score, when the level goes up. *)
Lemma raw_monotone v1 v2 :
  v1 <= v2 ->
  (rank (fst (band_and_score t v1)) <= rank (fst (band_and_score t v2)))%Z /\
  snd (band_and_score t v1) <= snd (band_and_score t v2).
Proof.
  destruct Hord as (H0 & Hlm & Hmh & Hhc). intros Hv.
  pose proof (raw_band_range v1) as R1. pose proof (raw_band_range v2) as R2.
  destruct (band_cases t v1) as [A|[[A1 A2]|[[A1 A2]|A]]];
    destruct (band_cases t v2) as [B|[[B1 B2]|[[B1 B2]|B]]];
    try (exfalso; lra).
  all: repeat first
    [ rewrite (band_low t v1) in * by assumption
    | rewrite (band_low t v2) in * by assumption
    | rewrite (band_moderate t v1) in * by assumption
    | rewrite (band_moderate t v2) in * by assumption
    | rewrite (band_high t Hord v1) in * by assumption
    | rewrite (band_high t Hord v2) in * by assumption
    | rewrite (band_critical t Hord v1) in * by assumption
    | rewrite (band_critical t Hord v2) in * by assumption ].
  all: cbn [fst snd rank in_band_range] in *.
  all: split; [lia|].
  all: try lra.
  - pose proof (Qdiv_le_mono v1 v2 (th_low t) H0 Hv).
    set (f1 := v1 / _) in *. set (f2 := v2 / _) in *. lra.
  - assert (F : (v1 - th_low t) / (th_moderate t - th_low t)
                <= (v2 - th_low t) / (th_moderate t - th_low t))
      by (apply Qdiv_le_mono; lra).
    set (f1 := (v1 - _) / _) in *. set (f2 := (v2 - _) / _) in *. lra.
  - assert (F : (v1 - th_moderate t) / (th_high t - th_moderate t)
                <= (v2 - th_moderate t) / (th_high t - th_moderate t))
      by (apply Qdiv_le_mono; lra).
    set (f1 := (v1 - _) / _) in *. set (f2 := (v2 - _) / _) in *. lra.
  - assert (F : (v1 - th_high t) / (th_critical t - th_high t)
                <= (v2 - th_high t) / (th_critical t - th_high t))
      by (apply Qdiv_le_mono; lra).
    set (f1 := (v1 - _) / _) in *. set (f2 := (v2 - _) / _) in *.
    assert (M : Qmin (f1 * 20) 20 <= Qmin (f2 * 20) 20).
    { apply Q.min_glb.
      - eapply Qle_trans; [apply Q.le_min_l | lra].
      - apply Q.le_min_r. }
    lra.
Qed.
End Ranges.

Lemma in_gases' g :
  In g gases -> g = "co2"%string \/ g = "no2"%string \/ g = "so2"%string.
Proof. cbn. intuition. Qed.

Lemma known_gas g : In g gases -> exists t, health_impact_factors !! g = Some t.
Proof.
  intros Hg. apply in_gases' in Hg.
  destruct Hg as [-> | [-> | ->]]; eexists; reflexivity.
Qed.

Lemma calculate_individual_gas_risk_inv gas v r :
  calculate_individual_gas_risk gas v = Ok r ->
  exists t, health_impact_factors !! gas = Some t /\ ordered t /\
            ra_risk_level r = fst (band_and_score t v) /\
            ra_risk_score r = Qmin (snd (band_and_score t v)) 100.
Proof.
  intros H.
  destruct (health_impact_factors !! gas) as [t|] eqn:Ht.
  - rewrite (calculate_individual_gas_risk_unfold gas t v Ht) in H.
    injection H as <-.
    exists t. split; [reflexivity|]. split; [eapply thresholds_ordered, Ht|].
    split; reflexivity.
  - unfold calculate_individual_gas_risk in H. rewrite Ht in H. discriminate.
Qed.



(** X2. For one gas, a higher level never gets a lower band nor a lower
    score. *)
Theorem risk_monotone gas v1 v2 r1 r2 :
  calculate_individual_gas_risk gas v1 = Ok r1 ->
  calculate_individual_gas_risk gas v2 = Ok r2 ->
  v1 <= v2 ->
  (rank (ra_risk_level r1) <= rank (ra_risk_level r2))%Z /\
  ra_risk_score r1 <= ra_risk_score r2.
Proof.
  intros H1 H2 Hv.
  apply calculate_individual_gas_risk_inv in H1 as (t & Ht & Hord & Hb1 & Hs1).
  apply calculate_individual_gas_risk_inv in H2 as (t' & Ht' & _ & Hb2 & Hs2).
  rewrite Ht in Ht'. injection Ht' as <-.
  destruct (raw_monotone t Hord v1 v2 Hv) as [Hr Hsc].
  rewrite Hb1, Hb2, Hs1, Hs2. split; [exact Hr|].
  apply Q.min_le_compat_r. exact Hsc.
Qed.

Lemma risk_monotone_witness :
  exists r1 r2,
    calculate_individual_gas_risk "co2" 700 = Ok r1 /\
    calculate_individual_gas_risk "co2" 1200 = Ok r2 /\
    700 <= 1200 /\
    ra_risk_score r1 <= ra_risk_score r2.
Proof.
  destruct (calculate_individual_gas_risk "co2" 700) as [r1|] eqn:H1;
    [|vm_compute in H1; discriminate H1].
  destruct (calculate_individual_gas_risk "co2" 1200) as [r2|] eqn:H2;
    [|vm_compute in H2; discriminate H2].
  assert (Hv : 700 <= 1200) by (unfold Qle; cbn; lia).
  exists r1, r2. split; [reflexivity|]. split; [reflexivity|].
  split; [exact Hv|].
  exact (proj2 (risk_monotone "co2" 700 1200 r1 r2 H1 H2 Hv)).
Defined.

(* ---- calculate_overall_risk ---- *)

Lemma known_gas_score g v :
  In g gases ->
  exists r, calculate_individual_gas_risk g v = Ok r /\
            ra_risk_score r <= 100 /\ (0 <= v -> 0 <= ra_risk_score r).
Proof.
  intros Hg. destruct (known_gas g Hg) as [t Ht].
  pose proof (thresholds_ordered g t Ht) as Hord.
  eexists. split; [apply calculate_individual_gas_risk_unfold, Ht|].
  cbn [ra_risk_score]. split; [apply Q.le_min_r|].
  intros Hv. destruct (raw_score_bounds t Hord v Hv) as [Hlo _].
  apply Q.min_glb; lra.
Qed.





(* ---- calculate_audit_score ---- *)

Lemma has_band_absent rd r g : rd !! g = None -> has_band rd r g = false.
Proof. intros H. unfold has_band. now rewrite H. Qed.

Lemma has_band_present rd r g v a :
  rd !! g = Some v -> calculate_individual_gas_risk g v = Ok a ->
  has_band rd r g = risk_level_eqb (ra_risk_level a) r.
Proof. intros Hv Ha. unfold has_band, band_of. now rewrite Hv, Ha. Qed.

Lemma count_band_in_cons rd g gs r :
  count_band_in rd (g :: gs) r =
    ((if has_band rd r g then 1 else 0) + count_band_in rd gs r)%Z.
Proof.
  unfold count_band_in. cbn [List.filter].
  destruct (has_band rd r g); [|lia].
  cbn [length]. lia.
Qed.

Lemma count_band_in_nonneg rd gs r : (0 <= count_band_in rd gs r)%Z.
Proof. unfold count_band_in. lia. Qed.

Lemma deduct_risks_spec rd gs :
  (forall g, In g gs -> In g gases) ->
  forall a,
    deduct_risks rd gs a =
      Ok (a - 10 * count_band_in rd gs Moderate
            - 25 * count_band_in rd gs High
            - 40 * count_band_in rd gs Critical)%Z.
Proof.
  induction gs as [|g gs IH]; intros Hgs a; cbn [deduct_risks].
  - f_equal. unfold count_band_in. cbn. lia.
  - assert (Hgs' : forall g', In g' gs -> In g' gases)
      by (intros; apply Hgs; now right).
    rewrite !count_band_in_cons.
    destruct (rd !! g) as [v|] eqn:Hv.
    + destruct (known_gas_score g v) as (r & Hr & _); [apply Hgs; now left|].
      rewrite Hr, IH by exact Hgs'.
      rewrite !(has_band_present rd _ g v r Hv Hr).
      f_equal. destruct (ra_risk_level r); cbn [risk_level_eqb]; lia.
    + rewrite IH by exact Hgs'.
      rewrite !has_band_absent by exact Hv. f_equal; lia.
Qed.

(** X4. calculate_audit_score never raises; it returns 100 minus 10 for
    every gas read moderate, 25 for every gas read high and 40 for every
    gas read critical, but not less than 0.  The score is always in
    [0,100], it is 100 exactly when no gas is above low, and one critical
    gas brings it to 60 or less, which the audit tracker shows as
    Non-Compliant. *)
Theorem calculate_audit_score_deductions rd :
  exists s,
    calculate_audit_score rd = Ok s /\
    s = Z.max 0 (100 - 10 * count_band rd Moderate
                     - 25 * count_band rd High
                     - 40 * count_band rd Critical) /\
    (0 <= s <= 100)%Z /\
    (s = 100%Z <->
       count_band rd Moderate = 0%Z /\ count_band rd High = 0%Z /\
       count_band rd Critical = 0%Z) /\
    ((0 < count_band rd Critical)%Z ->
       (s <= 60)%Z /\ compliance_status s = "Non-Compliant"%string).
Proof.
  unfold calculate_audit_score, count_band.
  rewrite (deduct_risks_spec rd gases (fun g H => H)).
  pose proof (count_band_in_nonneg rd gases Moderate).
  pose proof (count_band_in_nonneg rd gases High).
  pose proof (count_band_in_nonneg rd gases Critical).
  eexists. split; [reflexivity|]. split; [reflexivity|].
  split; [lia|]. split; [lia|].
  intros Hc. split; [lia|].
  unfold compliance_status.
  destruct (70 <=? _)%Z eqn:E; [|reflexivity].
  apply Z.leb_le in E. lia.
Qed.

Lemma calculate_audit_score_deductions_witness :
  (0 < count_band harsh_readings Critical)%Z /\
  calculate_audit_score harsh_readings = Ok 60%Z /\
  compliance_status 60 = "Non-Compliant"%string.
Proof.
  assert (Hc : (0 < count_band harsh_readings
                     Critical)%Z) by (vm_compute; reflexivity).
  split; [exact Hc|].
  destruct (calculate_audit_score_deductions
              harsh_readings)
    as (s & Hs & Heq & _ & _ & Hnc).
  assert (E : s = 60%Z) by (rewrite Heq; vm_compute; reflexivity).
  subst s. split; [exact Hs|]. exact (proj2 (Hnc Hc)).
Defined.

End ScoreFacts.

(* ===================================================================== *)
(*  Further properties: alerts                                           *)
(* ===================================================================== *)

Module AlertShapeFacts.
Import AIHealthEstimator Vocabulary AlertVocabulary Scenarios RiskScorerFacts AlertFacts.
Local Open Scope Q_scope.

(* What one turn appends, in full. *)
Lemma check_gas_appends now rd gas aa al aa' al' :
  check_gas now rd gas (aa, al) = Ok (aa', al') ->
  al' = al \/
  (exists a, al' = al ++ [a] /\ al_gas a = gas /\ alert_of_reading rd a).
Proof.
  unfold check_gas.
  destruct (rd !! gas) as [v|] eqn:Hv; [|intros [= <- <-]; now left].
  destruct (calculate_individual_gas_risk gas v) as [r|e] eqn:Hr; [|discriminate].
  destruct (risk_level_eqb (ra_risk_level r) High
            || risk_level_eqb (ra_risk_level r) Critical) eqn:Hb;
    [|intros [= <- <-]; now left].
  set (key := alert_key gas (ra_risk_level r)).
  set (m := match aa !! key with Some _ => aa | None => _ end).
  destruct (m !! key) as [c|]; [|discriminate].
  destruct (Qle_bool _ _); intros [= <- <-]; [|now left].
  right. eexists. split; [reflexivity|]. cbn [al_gas]. split; [reflexivity|].
  exists r. cbn. repeat split; auto.
  destruct (ra_risk_level r); reflexivity.
Qed.

Lemma check_gases_appends now rd gs : forall aa al aa' al',
  check_gases now rd gs (aa, al) = Ok (aa', al') ->
  exists new,
    al' = al ++ new /\ sublist (List.map al_gas new) gs /\
    Forall (alert_of_reading rd) new.
Proof.
  induction gs as [|g gs IH]; intros aa al aa' al' H; cbn [check_gases] in H.
  - injection H as <- <-. exists []. rewrite app_nil_r.
    split; [reflexivity|]. split; constructor.
  - destruct (check_gas now rd g (aa, al)) as [[aa1 al1]|] eqn:H1; [|discriminate].
    destruct (IH _ _ _ _ H) as (new2 & -> & Hsub & Hall).
    destruct (check_gas_appends _ _ _ _ _ _ _ H1) as [->|(a & -> & Hg & Ha)].
    + exists new2. split; [reflexivity|]. split; [now apply sublist_cons | exact Hall].
    + exists (a :: new2). split; [now rewrite <- app_assoc|]. split.
      * cbn [List.map]. rewrite Hg. now apply sublist_skip.
      * now constructor.
Qed.

(** X5. The alerts of one check_alerts call come in the order co2, no2,
    so2 with at most one alert per gas, and each of them repeats the
    assessment of the reading of its gas: level, band, score, effects and
    actions, with severity critical for the band critical and warning
    otherwise. *)
Theorem check_alerts_one_alert_per_gas aa rd now alerts aa' :
  check_alerts aa rd now = Ok (alerts, aa') ->
  sublist (List.map al_gas alerts) gases /\
  NoDup (List.map al_gas alerts) /\
  (length alerts <= 3)%nat /\
  Forall (alert_of_reading rd) alerts.
Proof.
  intros H. apply check_alerts_inv in H.
  destruct (check_gases_appends _ _ _ _ _ _ _ H) as (new & -> & Hsub & Hall).
  cbn [app]. split; [exact Hsub|]. split; [|split; [|exact Hall]].
  - eapply sublist_NoDup; [exact NoDup_gases | exact Hsub].
  - apply sublist_length in Hsub. rewrite length_map in Hsub. exact Hsub.
Qed.

Lemma check_alerts_one_alert_per_gas_witness :
  exists alerts aa',
    check_alerts no2_open {[ "no2"%string := 250 ]} (10 * minute)%Z
      = Ok (alerts, aa') /\
    (length alerts <= 3)%nat.
Proof.
  destruct (check_alerts no2_open {[ "no2"%string := 250 ]} (10 * minute)%Z)
    as [[alerts aa']|] eqn:H; [|vm_compute in H; discriminate H].
  exists alerts, aa'. split; [reflexivity|].
  exact (proj1 (proj2 (proj2 (check_alerts_one_alert_per_gas _ _ _ _ _ H)))).
Defined.

(* ---- alerts repeat while the violation lasts ---- *)

Lemma minutes_between_mono s t1 t2 :
  (t1 <= t2)%Z -> minutes_between s t1 <= minutes_between s t2.
Proof.
  intros H. unfold minutes_between.
  assert (inject_Z (t1 - s) <= inject_Z (t2 - s)) by (rewrite <- Zle_Qle; lia).
  unfold Qdiv. 
  assert (0 <= / 1000000) by (unfold Qle; cbn; lia).
  assert (0 <= / 60) by (unfold Qle; cbn; lia).
  apply Qmult_le_compat_r; [|assumption].
  apply Qmult_le_compat_r; assumption.
Qed.

Lemma check_gas_emits now rd gas aa al aa' al' r c v :
  aa !! alert_key gas r = Some c ->
  rd !! gas = Some v -> band_of gas v = Some r -> alerting r ->
  alert_persistence_threshold <= minutes_between (ac_start_time c) now ->
  check_gas now rd gas (aa, al) = Ok (aa', al') ->
  exists a,
    al' = al ++ [a] /\ al_gas a = gas /\ al_risk_level a = r /\
    al_duration_minutes a = minutes_between (ac_start_time c) now.
Proof.
  intros Hc Hv Hb Ha Hp H. apply check_gas_inv in H.
  destruct H as [(Hn & _)|(v' & r' & Hv' & Hr' & H)]; [congruence|].
  rewrite Hv in Hv'. injection Hv' as <-.
  rewrite (band_of_Ok _ _ _ Hr') in Hb. injection Hb as <-.
  destruct H as [(Hna & _)|(_ & c' & _ & Hold & _ & Hal)]; [contradiction|].
  - destruct Hold as [Hold|[Hnone _]]; [|congruence].
    rewrite Hc in Hold. injection Hold as <-.
    destruct Hal as [[_ Hf]|(a & -> & Hg & _ & Hrl & _ & _ & Hd & _)].
    + apply Qle_bool_iff in Hp. congruence.
    + exists a. auto.
Qed.

Lemma check_gases_emits now rd gas r c v gs : forall aa al aa' al',
  In gas gases -> (forall g, In g gs -> In g gases) -> NoDup gs -> In gas gs ->
  aa !! alert_key gas r = Some c ->
  rd !! gas = Some v -> band_of gas v = Some r -> alerting r ->
  alert_persistence_threshold <= minutes_between (ac_start_time c) now ->
  check_gases now rd gs (aa, al) = Ok (aa', al') ->
  exists a,
    In a al' /\ al_gas a = gas /\ al_risk_level a = r /\
    al_duration_minutes a = minutes_between (ac_start_time c) now.
Proof.
  induction gs as [|g gs IH]; intros aa al aa' al' Hgas Hgs Hnd Hin Hc Hv Hb Ha Hp H;
    [destruct Hin|].
  cbn [check_gases] in H.
  destruct (check_gas now rd g (aa, al)) as [[aa1 al1]|] eqn:H1; [|discriminate].
  apply NoDup_cons in Hnd as [Hnin Hnd].
  assert (Hgs' : forall g', In g' gs -> In g' gases)
    by (intros; apply Hgs; now right).
  destruct (decide (g = gas)) as [->|Hne].
  - destruct (check_gas_emits _ _ _ _ _ _ _ _ _ _ Hc Hv Hb Ha Hp H1)
      as (a & -> & Hrest).
    destruct (check_gases_appends _ _ _ _ _ _ _ H) as (new & -> & _).
    exists a. split; [|exact Hrest].
    apply in_or_app. left. apply in_or_app. right. now left.
  - destruct Hin as [?|Hin]; [contradiction|].
    apply (IH aa1 al1 aa' al'); auto.
    rewrite (check_gas_frame _ _ _ _ _ _ _ (alert_key gas r) H1); [exact Hc|].
    apply startswith_other_gas; auto. apply Hgs. now left.
Qed.

(** X6. Alerts are raised on every evaluation while the violation lasts:
    when a call has returned an alert for a gas and a band, a later call
    (with a clock not set back) whose reading of that gas is in the same
    band returns an alert for that gas and band again, with a duration at
    least as long. *)
Theorem check_alerts_repeats aa rd1 t1 al1 aa1 a rd2 t2 al2 aa2 v2 :
  check_alerts aa rd1 t1 = Ok (al1, aa1) ->
  In a al1 ->
  (t1 <= t2)%Z ->
  rd2 !! al_gas a = Some v2 ->
  band_of (al_gas a) v2 = Some (al_risk_level a) ->
  check_alerts aa1 rd2 t2 = Ok (al2, aa2) ->
  exists a2,
    In a2 al2 /\ al_gas a2 = al_gas a /\
    al_risk_level a2 = al_risk_level a /\
    al_duration_minutes a <= al_duration_minutes a2.
Proof.
  intros H1 Ha Ht Hv2 Hb2 H2.
  destruct (check_alerts_justified _ _ _ _ _ _ H1 Ha)
    as (Hg & v & c & _ & _ & _ & Hal & _ & Hc1 & Hd & Hp).
  apply check_alerts_inv in H2.
  assert (Hp2 : alert_persistence_threshold <= minutes_between (ac_start_time c) t2).
  { eapply Qle_trans; [exact Hp|]. rewrite Hd. now apply minutes_between_mono. }
  destruct (check_gases_emits t2 rd2 (al_gas a) (al_risk_level a) c v2 gases
              aa1 [] aa2 al2 Hg (fun g H => H) NoDup_gases Hg Hc1 Hv2 Hb2 Hal Hp2 H2)
    as (a2 & Hin & Hg2 & Hr2 & Hd2).
  exists a2. split; [exact Hin|]. split; [exact Hg2|]. split; [exact Hr2|].
  rewrite Hd, Hd2. now apply minutes_between_mono.
Qed.

Lemma check_alerts_repeats_witness :
  exists al1 aa1 a al2 aa2 a2,
    check_alerts no2_open {[ "no2"%string := 250 ]} (10 * minute)%Z
      = Ok (al1, aa1) /\
    In a al1 /\
    check_alerts aa1 {[ "no2"%string := 300 ]} (11 * minute)%Z = Ok (al2, aa2) /\
    In a2 al2 /\ al_duration_minutes a <= al_duration_minutes a2.
Proof.
  assert (H : exists al1 aa1 a,
             check_alerts no2_open {[ "no2"%string := 250 ]} (10 * minute)%Z
               = Ok (al1, aa1) /\ In a al1 /\
             al_gas a = "no2"%string /\ al_risk_level a = Critical).
  { eexists _, _, _. split; [vm_compute; reflexivity|].
    split; [left; reflexivity|]. split; reflexivity. }
  destruct H as (al1 & aa1 & a & H1 & Ha & Hg & Hr).
  assert (Ht : (10 * minute <= 11 * minute)%Z) by (vm_compute; discriminate).
  assert (Hv2 : ({[ "no2"%string := 300 ]} : gmap string Q) !! al_gas a = Some 300)
    by (rewrite Hg; reflexivity).
  assert (Hb2 : band_of (al_gas a) 300 = Some (al_risk_level a))
    by (rewrite Hg, Hr; vm_compute; reflexivity).
  destruct (check_alerts_total aa1 {[ "no2"%string := 300 ]} (11 * minute)%Z)
    as (al2 & aa2 & H2).
  destruct (check_alerts_repeats _ _ _ _ _ _ _ _ _ _ _ H1 Ha Ht Hv2 Hb2 H2)
    as (a2 & Hin2 & _ & _ & Hd).
  exists al1, aa1, a, al2, aa2, a2. auto.
Defined.

(* ---- the candidates stay consistent ---- *)

(* A candidate found after a turn was there before, or is the one the turn
   opened for the reading of its gas. *)
Lemma check_gas_opened now rd gas aa al aa' al' k c :
  check_gas now rd gas (aa, al) = Ok (aa', al') ->
  aa' !! k = Some c ->
  aa !! k = Some c \/
  (rd !! gas = Some (ac_level c) /\ ac_gas c = gas /\
   band_of gas (ac_level c) = Some (ac_risk_level c) /\
   alerting (ac_risk_level c) /\
   k = alert_key gas (ac_risk_level c) /\ ac_start_time c = now).
Proof.
  unfold check_gas.
  destruct (rd !! gas) as [v|] eqn:Hv; [|intros [= <- <-]; now left].
  destruct (calculate_individual_gas_risk gas v) as [r|e] eqn:Hr; [|discriminate].
  destruct (risk_level_eqb (ra_risk_level r) High
            || risk_level_eqb (ra_risk_level r) Critical) eqn:Hb.
  - assert (Ha : alerting (ra_risk_level r)).
    { unfold alerting. destruct (ra_risk_level r); cbn in Hb;
        solve [discriminate | auto]. }
    destruct (aa !! alert_key gas (ra_risk_level r)) as [c0|] eqn:Hk.
    + rewrite Hk. destruct (Qle_bool _ _); intros [= <- <-]; now left.
    + rewrite lookup_insert_eq.
      destruct (Qle_bool _ _); intros [= <- <-] Hc.
      all: destruct (decide (k = alert_key gas (ra_risk_level r))) as [->|Hne];
        [ rewrite lookup_insert_eq in Hc; injection Hc as <-; right;
          cbn; repeat split; auto using band_of_Ok
        | rewrite lookup_insert_ne in Hc by congruence; now left ].
  - intros [= <- <-] Hc. rewrite lookup_remove_gas in Hc.
    destruct (startswith k gas); [discriminate | now left].
Qed.

Lemma check_gases_consistent now rd gs : forall aa al aa' al',
  (forall g, In g gs -> In g gases) ->
  check_gases now rd gs (aa, al) = Ok (aa', al') ->
  consistent aa -> consistent aa'.
Proof.
  induction gs as [|g gs IH]; intros aa al aa' al' Hgs H Hcons;
    cbn [check_gases] in H.
  - now injection H as <- <-.
  - destruct (check_gas now rd g (aa, al)) as [[aa1 al1]|] eqn:H1; [|discriminate].
    apply (IH aa1 al1 aa' al'); [intros; apply Hgs; now right | exact H |].
    intros k c Hc.
    destruct (check_gas_opened _ _ _ _ _ _ _ _ _ H1 Hc)
      as [Hold|(_ & Hg & Hb & Ha & Hk & _)]; [now apply Hcons|].
    rewrite Hg. repeat split; auto. apply Hgs. now left.
Qed.

(** X7. check_alerts keeps the candidates consistent: when every candidate
    sits under the key of its own gas and band, names one of the three
    gases with a band high or critical, and records a level of that gas in
    that band, the same holds after the call; and so it does after any run
    of ticks started with no candidate. *)
Theorem check_alerts_keeps_consistent :
  (forall aa rd now alerts aa',
     consistent aa -> check_alerts aa rd now = Ok (alerts, aa') ->
     consistent aa') /\
  (forall ticks outs final,
     run_ticks ∅ ticks = Ok (outs, final) -> consistent final).
Proof.
  assert (Hstep : forall aa rd now alerts aa',
            consistent aa -> check_alerts aa rd now = Ok (alerts, aa') ->
            consistent aa').
  { intros aa rd now alerts aa' Hc H. apply check_alerts_inv in H.
    eapply check_gases_consistent; eauto. }
  split; [exact Hstep|].
  assert (Hrun : forall ticks aa outs final,
            consistent aa -> run_ticks aa ticks = Ok (outs, final) ->
            consistent final).
  { induction ticks as [|[t rd] rest IH]; intros aa outs final Hc H.
    - cbn in H. now injection H as <- <-.
    - apply run_ticks_cons in H as (alerts & aa1 & outs' & Hchk & Hrest & _).
      eapply IH; [|exact Hrest]. eapply Hstep; eauto. }
  intros ticks outs final H. eapply Hrun; [|exact H].
  intros k c Hc. rewrite lookup_empty in Hc. discriminate.
Qed.

Lemma check_alerts_keeps_consistent_witness :
  exists outs final,
    run_ticks ∅ dip_ticks = Ok (outs, final) /\ consistent final.
Proof.
  destruct (run_ticks ∅ dip_ticks) as [[outs final]|] eqn:H;
    [|vm_compute in H; discriminate H].
  exists outs, final. split; [reflexivity|].
  exact (proj2 check_alerts_keeps_consistent dip_ticks outs final H).
Defined.

(* ---- an alert needs an unbroken violation ---- *)

Lemma known_band gas v : In gas gases -> exists r, band_of gas v = Some r.
Proof.
  intros Hg. destruct (gases_known gas Hg) as [t Ht].
  unfold band_of. rewrite (calculate_individual_gas_risk_unfold gas t v Ht).
  eauto.
Qed.

Lemma unbroken_step gas past aa t rd alerts aa1 :
  In gas gases -> unbroken gas past aa ->
  check_alerts aa rd t = Ok (alerts, aa1) ->
  unbroken gas (past ++ [(t, rd)]) aa1.
Proof.
  intros Hg Hun H r c Hc.
  destruct (check_alerts_provenance _ _ _ _ _ _ _ _ Hg H Hc)
    as [Hold|(v & Hv & Hb & _ & Hst)].
  - destruct (Hun r c Hold) as (k & t_k & rd_k & v_k & Hk & Hs & Hvk & Hbk & Hall).
    pose proof (lookup_lt_Some _ _ _ Hk) as Hlt.
    exists k, t_k, rd_k, v_k.
    split; [rewrite lookup_app_l; [exact Hk | exact Hlt]|].
    split; [exact Hs|]. split; [exact Hvk|]. split; [exact Hbk|].
    intros i t_i rd_i v_i Hki Hi Hvi.
    destruct (decide (i < length past)%nat) as [Hil|Hil].
    + rewrite lookup_app_l in Hi by exact Hil. eapply Hall; eauto.
    + rewrite lookup_app_r in Hi by (apply Nat.nlt_ge, Hil).
      pose proof (lookup_lt_Some _ _ _ Hi) as Hl1. cbn [length] in Hl1.
      apply Nat.lt_1_r in Hl1. rewrite Hl1 in Hi.
      cbn in Hi. injection Hi as <- <-.
      destruct (known_band gas v_i Hg) as [r_i Hri].
      exists r_i. split; [exact Hri|].
      assert (Hdec : alerting r_i \/ ~ alerting r_i)
        by (unfold alerting; destruct r_i; intuition congruence).
      destruct Hdec as [?|Hna]; [assumption|].
      destruct (check_alerts_clear _ _ _ _ _ _ _ _ Hg Hvi Hri Hna H) as [Hno _].
      rewrite Hno in Hc by apply startswith_alert_key. discriminate.
  - exists (length past), t, rd, v.
    split; [rewrite lookup_app_r, Nat.sub_diag by apply Nat.le_refl; reflexivity|].
    split; [exact Hst|]. split; [exact Hv|]. split; [exact Hb|].
    intros i t_i rd_i v_i Hki Hi Hvi.
    apply lookup_lt_Some in Hi. rewrite length_app in Hi. cbn [length] in Hi.
    unfold tick in *. lia.
Qed.

Lemma run_ticks_unbroken gas ticks : forall past aa outs final,
  In gas gases -> unbroken gas past aa ->
  run_ticks aa ticks = Ok (outs, final) ->
  forall j t_j rd_j alerts_j a,
    ticks !! j = Some (t_j, rd_j) -> outs !! j = Some alerts_j ->
    In a alerts_j -> al_gas a = gas ->
    exists k t_k rd_k v_k,
      (k < length past + j)%nat /\
      (past ++ ticks) !! k = Some (t_k, rd_k) /\
      rd_k !! gas = Some v_k /\
      band_of gas v_k = Some (al_risk_level a) /\
      al_duration_minutes a = minutes_between t_k t_j /\
      forall i t_i rd_i v_i,
        (k < i <= length past + j)%nat ->
        (past ++ ticks) !! i = Some (t_i, rd_i) -> rd_i !! gas = Some v_i ->
        exists r_i, band_of gas v_i = Some r_i /\ alerting r_i.
Proof.
  induction ticks as [|[t rd] rest IH];
    intros past aa outs final Hg Hun Hrun j t_j rd_j alerts_j a Hj Ho Ha Hgas;
    [discriminate Hj|].
  apply run_ticks_cons in Hrun as (alerts & aa1 & outs' & Hchk & Hrest & ->).
  destruct j as [|j]; cbn in Hj, Ho.
  - injection Hj as <- <-. injection Ho as <-.
    destruct (check_alerts_justified _ _ _ _ _ _ Hchk Ha)
      as (_ & v & c & Hv & _ & Hb & Hal & Hc & _ & Hd & _).
    rewrite Hgas in Hc, Hv, Hb.
    destruct (Hun _ _ Hc) as (k & t_k & rd_k & v_k & Hk & Hst & Hvk & Hbk & Hall).
    exists k, t_k, rd_k, v_k.
    pose proof (lookup_lt_Some _ _ _ Hk) as Hlt.
    rewrite lookup_app_l by exact Hlt.
    rewrite Hd, Hst.
    split; [rewrite Nat.add_0_r; exact Hlt|].
    repeat split; auto.
    intros i t_i rd_i v_i [Hki Hij] Hi Hvi.
    rewrite Nat.add_0_r in Hij.
    destruct (decide (i < length past)%nat) as [Hil|Hil].
    + rewrite lookup_app_l in Hi by exact Hil. eapply Hall; eauto.
    + assert (E : i = length past) by (unfold tick in *; lia). subst i.
      rewrite lookup_app_r, Nat.sub_diag in Hi by apply Nat.le_refl.
      cbn in Hi. injection Hi as <- <-.
      rewrite Hv in Hvi. injection Hvi as <-. eauto.
  - pose proof (unbroken_step _ _ _ _ _ _ _ Hg Hun Hchk) as Hun'.
    destruct (IH _ _ _ _ Hg Hun' Hrest j t_j rd_j alerts_j a Hj Ho Ha Hgas)
      as (k & t_k & rd_k & v_k & Hlt & Hk & Hvk & Hbk & Hd & Hall).
    rewrite length_app in Hlt, Hall. cbn [length] in Hlt, Hall.
    rewrite <- app_assoc in Hk, Hall. cbn [app] in Hk, Hall.
    exists k, t_k, rd_k, v_k.
    split; [unfold tick in *; lia|].
    repeat split; auto.
    intros i t_i rd_i v_i Hi. apply Hall. unfold tick in *. lia.
Qed.

(** X8. An alert needs an unbroken violation: in a run started with no
    candidate of a gas, an alert for that gas at tick j goes back to a tick
    k before j that read the gas in the band of the alert, the duration of
    the alert is the time from tick k to tick j, and every reading of the
    gas from tick k to tick j was high or critical. *)
Theorem alert_needs_unbroken_violation gas aa ticks outs final j t_j rd_j alerts_j a :
  In gas gases -> no_candidate gas aa ->
  run_ticks aa ticks = Ok (outs, final) ->
  ticks !! j = Some (t_j, rd_j) -> outs !! j = Some alerts_j ->
  In a alerts_j -> al_gas a = gas ->
  exists k t_k rd_k v_k,
    (k < j)%nat /\ ticks !! k = Some (t_k, rd_k) /\
    rd_k !! gas = Some v_k /\
    band_of gas v_k = Some (al_risk_level a) /\
    al_duration_minutes a = minutes_between t_k t_j /\
    forall i t_i rd_i v_i,
      (k < i <= j)%nat -> ticks !! i = Some (t_i, rd_i) ->
      rd_i !! gas = Some v_i ->
      exists r_i, band_of gas v_i = Some r_i /\ alerting r_i.
Proof.
  intros Hg Hno Hrun Hj Ho Ha Hgas.
  assert (Hun : unbroken gas [] aa).
  { intros r c Hc. rewrite Hno in Hc; [discriminate|].
    apply startswith_alert_key. }
  exact (run_ticks_unbroken gas ticks [] aa outs final Hg Hun Hrun
           j t_j rd_j alerts_j a Hj Ho Ha Hgas).
Qed.

Lemma alert_needs_unbroken_violation_witness :
  In "no2"%string gases /\ no_candidate "no2" ∅ /\
  exists a final k t_k rd_k v_k,
    run_ticks ∅ dip_ticks = Ok ([[]; []; [a]], final) /\
    (k < 2)%nat /\ dip_ticks !! k = Some (t_k, rd_k) /\
    rd_k !! "no2"%string = Some v_k /\
    al_duration_minutes a = minutes_between t_k (10 * minute)%Z.
Proof.
  assert (Hg : In "no2"%string gases) by (right; left; reflexivity).
  assert (Hno : no_candidate "no2" ∅) by (intros k _; apply lookup_empty).
  split; [exact Hg|]. split; [exact Hno|].
  assert (H : exists a final,
             run_ticks ∅ dip_ticks = Ok ([[]; []; [a]], final) /\
             al_gas a = "no2"%string).
  { eexists _, _. split; [vm_compute; reflexivity | reflexivity]. }
  destruct H as (a & final & Hrun & Hgas).
  destruct (alert_needs_unbroken_violation "no2" ∅ dip_ticks _ final 2
              (10 * minute)%Z {[ "no2"%string := 450%Q ]} [a] a
              Hg Hno Hrun eq_refl eq_refl (or_introl eq_refl) Hgas)
    as (k & t_k & rd_k & v_k & Hk & Hl & Hv & _ & Hd & _).
  exists a, final, k, t_k, rd_k, v_k. auto 6.
Defined.

End AlertShapeFacts.

(* ===================================================================== *)
(*  Further properties: suggestions and feedback                         *)
(* ===================================================================== *)

Module SuggestionFacts.
Import AISuggestionEngine SuggestionVocabulary.
Local Open Scope Q_scope.

(* ---- _calculate_dynamic_priority ---- *)

Lemma py_int_nonneg x : 0 <= x -> (0 <= py_int x)%Z.
Proof.
  intros H. unfold py_int. apply Z.quot_pos; [|lia].
  unfold Qle in H. cbn in H. lia.
Qed.

Lemma scan_category_cases cat i b :
  scan_category cat i b = b \/
  exists s, In s cat /\ sg_id s = i /\ scan_category cat i b = sg_priority_base s.
Proof.
  induction cat as [|s cat IH]; cbn [scan_category]; [now left|].
  destruct (String.eqb (sg_id s) i) eqn:E.
  - right. exists s. apply String.eqb_eq in E. split; [now left | auto].
  - destruct IH as [->|(s' & Hin & Hid & ->)]; [now left|].
    right. exists s'. split; [now right | auto].
Qed.

Lemma base_priority_cases (db : list (string * list suggestion)) i :
  forall b,
    fold_left (fun b category => scan_category (snd category) i b) db b = b \/
    exists s, In s (flat_map snd db) /\ sg_id s = i /\
      fold_left (fun b category => scan_category (snd category) i b) db b
        = sg_priority_base s.
Proof.
  induction db as [|[k cat] db IH]; intros b; cbn [fold_left flat_map snd];
    [now left|].
  destruct (IH (scan_category cat i b)) as [->|(s & Hin & Hid & ->)].
  - destruct (scan_category_cases cat i b) as [->|(s & Hin & Hid & ->)];
      [now left|].
    right. exists s. split; [apply in_or_app; now left | auto].
  - right. exists s. split; [apply in_or_app; now right | auto].
Qed.

Lemma priority_base_range s :
  In s all_suggestions -> (5 <= sg_priority_base s <= 10)%Z.
Proof.
  unfold all_suggestions. cbn.
  intros H. repeat (destruct H as [<-|H]; [cbn; lia|]). destruct H.
Qed.

Lemma base_priority_of_suggestion s :
  In s all_suggestions ->
  fold_left (fun b category => scan_category (snd category) (sg_id s) b)
    suggestions_db 5%Z = sg_priority_base s.
Proof.
  unfold all_suggestions. cbn [flat_map suggestions_db snd app].
  intros H. repeat (destruct H as [<-|H]; [reflexivity|]). destruct H.
Qed.

Lemma base_priority_range i :
  (5 <= fold_left (fun b category => scan_category (snd category) i b)
          suggestions_db 5 <= 10)%Z.
Proof.
  destruct (base_priority_cases suggestions_db i 5%Z)
    as [->|(s & Hin & _ & ->)]; [lia|].
  now apply priority_base_range.
Qed.

(** X9. The dynamic priority of a suggestion never exceeds 10, whatever the
    id, the learning data and the pollution level.  With a pollution level
    and a stored effectiveness that are not negative it is at least 5, and
    for a suggestion of the database at least its base priority. *)
Theorem dynamic_priority_bounds ld i pollution_level :
  0 <= pollution_level ->
  (forall e, suggestion_effectiveness ld !! i = Some e -> 0 <= e) ->
  (5 <= _calculate_dynamic_priority ld i pollution_level <= 10)%Z /\
  (forall s, In s all_suggestions -> sg_id s = i ->
     (sg_priority_base s <= _calculate_dynamic_priority ld i pollution_level)%Z) /\
  (forall ld' i' level', (_calculate_dynamic_priority ld' i' level' <= 10)%Z).
Proof.
  intros Hl He.
  assert (Hsev : (0 <= Z.min (py_int (pollution_level / 100)) 3)%Z).
  { apply Z.min_glb; [|lia]. apply py_int_nonneg.
    apply Qle_shift_div_l; lra. }
  assert (Heff : (0 <= match suggestion_effectiveness ld !! i with
                       | Some effectiveness => py_int (effectiveness * 2)
                       | None => 0
                       end)%Z).
  { destruct (suggestion_effectiveness ld !! i) as [e|] eqn:E; [|lia].
    apply py_int_nonneg. specialize (He e eq_refl). lra. }
  pose proof (base_priority_range i) as Hrange.
  split; [|split].
  - unfold _calculate_dynamic_priority. lia.
  - intros s Hs <-. pose proof (priority_base_range s Hs).
    unfold _calculate_dynamic_priority.
    rewrite (base_priority_of_suggestion s Hs) in *. lia.
  - intros. apply Z.le_min_r.
Qed.

Lemma dynamic_priority_bounds_witness :
  0 <= 250 /\
  (5 <= _calculate_dynamic_priority empty_learning_data "no2_002" 250 <= 10)%Z.
Proof.
  assert (Hl : 0 <= 250) by (unfold Qle; cbn; lia).
  split; [exact Hl|].
  apply (dynamic_priority_bounds empty_learning_data "no2_002" 250 Hl).
  intros e He. cbn in He. rewrite lookup_empty in He. discriminate He.
Defined.

(* ---- record_feedback ---- *)

Lemma new_score_bounded c ty :
  0 <= c <= 5 ->
  0 <= (if String.eqb ty "helpful" then Qmin (c + (1 # 2)) 5
        else if String.eqb ty "implemented" then Qmin (c + 1) 5
        else if String.eqb ty "not_helpful" then Qmax (c - (3 # 10)) 0
        else c) <= 5.
Proof.
  intros [H0 H5].
  destruct (String.eqb ty "helpful");
    [|destruct (String.eqb ty "implemented");
      [|destruct (String.eqb ty "not_helpful")]].
  - split; [apply Q.min_glb; lra | apply Q.le_min_r].
  - split; [apply Q.min_glb; lra | apply Q.le_min_r].
  - split; [apply Q.le_max_r | apply Q.max_lub; lra].
  - split; assumption.
Qed.

Lemma record_feedback_bounded ld i ty now :
  scores_bounded ld -> scores_bounded (record_feedback ld i ty now).
Proof.
  intros Hb j e. unfold record_feedback. cbn [suggestion_effectiveness].
  destruct (suggestion_effectiveness ld !! i) as [c|] eqn:Hc.
  - rewrite Hc. destruct (decide (i = j)) as [->|Hne].
    + rewrite lookup_insert_eq. intros [= <-].
      apply new_score_bounded. exact (Hb _ _ Hc).
    + rewrite lookup_insert_ne by exact Hne. apply Hb.
  - rewrite lookup_insert_eq. destruct (decide (i = j)) as [->|Hne].
    + rewrite lookup_insert_eq. intros [= <-].
      apply new_score_bounded. lra.
    + rewrite !lookup_insert_ne by exact Hne. apply Hb.
Qed.

Lemma record_feedback_history ld i ty now :
  feedback_history (record_feedback ld i ty now) =
    feedback_history ld ++
    [{| fb_suggestion_id := i; fb_feedback_type := ty; fb_timestamp := now |}].
Proof. reflexivity. Qed.

Lemma record_all_spec fs : forall ld,
  scores_bounded ld ->
  scores_bounded (record_all ld fs) /\
  length (feedback_history (record_all ld fs)) =
    (length (feedback_history ld) + length fs)%nat.
Proof.
  unfold record_all.
  induction fs as [|[[i ty] now] fs IH]; intros ld Hb; cbn [fold_left fst snd].
  - split; [exact Hb | cbn; lia].
  - destruct (IH (record_feedback ld i ty now) (record_feedback_bounded _ _ _ _ Hb))
      as [Hb' Hlen].
    split; [exact Hb'|]. rewrite Hlen, record_feedback_history, length_app.
    cbn [length]. lia.
Qed.

(** X10. record_feedback keeps every effectiveness score within [0,5],
    whatever the feedback type, and leaves the scores of other suggestions
    alone; starting from empty learning data, after any sequence of
    feedbacks all scores are in [0,5] and the history has one entry per
    call. *)
Theorem record_feedback_keeps_scores_bounded :
  (forall ld i ty now,
     scores_bounded ld ->
     scores_bounded (record_feedback ld i ty now) /\
     forall j, j <> i ->
       suggestion_effectiveness (record_feedback ld i ty now) !! j
         = suggestion_effectiveness ld !! j) /\
  (forall fs,
     scores_bounded (record_all empty_learning_data fs) /\
     length (feedback_history (record_all empty_learning_data fs)) = length fs).
Proof.
  split.
  - intros ld i ty now Hb. split; [now apply record_feedback_bounded|].
    intros j Hne. unfold record_feedback. cbn [suggestion_effectiveness].
    destruct (suggestion_effectiveness ld !! i);
      now rewrite !lookup_insert_ne by congruence.
  - intros fs.
    destruct (record_all_spec fs empty_learning_data) as [Hb Hlen].
    + intros i e He. cbn in He. rewrite lookup_empty in He. discriminate.
    + split; [exact Hb | exact Hlen].
Qed.

Lemma record_feedback_keeps_scores_bounded_witness :
  scores_bounded empty_learning_data /\
  scores_bounded
    (record_feedback empty_learning_data "co2_001" "implemented"
       "2024-05-01T10:00:00").
Proof.
  assert (Hb : scores_bounded empty_learning_data).
  { intros i e He. cbn in He. rewrite lookup_empty in He. discriminate. }
  split; [exact Hb|].
  exact (proj1 (proj1 record_feedback_keeps_scores_bounded
                  empty_learning_data "co2_001"%string "implemented"%string
                  "2024-05-01T10:00:00"%string Hb)).
Defined.

(* ---- get_suggestions ---- *)

Lemma insert_ranked_perm x l : Permutation (insert_ranked x l) (x :: l).
Proof.
  induction l as [|y l IH]; cbn [insert_ranked]; [reflexivity|].
  destruct (rk_priority y <=? rk_priority x)%Z; [reflexivity|].
  rewrite IH. apply perm_swap.
Qed.

Lemma sort_ranked_perm l : Permutation (sort_ranked l) l.
Proof.
  unfold sort_ranked. induction l as [|x l IH]; cbn [fold_right]; [reflexivity|].
  rewrite insert_ranked_perm. now constructor.
Qed.

Lemma insert_ranked_sorted x l :
  StronglySorted not_above l -> StronglySorted not_above (insert_ranked x l).
Proof.
  induction l as [|y l IH]; intros Hs; cbn [insert_ranked].
  - repeat constructor.
  - apply StronglySorted_inv in Hs as [Hs Hall].
    destruct (rk_priority y <=? rk_priority x)%Z eqn:E.
    + apply Z.leb_le in E. constructor; [now constructor|].
      constructor; [exact E|].
      eapply Forall_impl; [exact Hall|].
      intros z Hz. unfold not_above in *. lia.
    + apply Z.leb_gt in E. constructor; [now apply IH|].
      apply List.Forall_forall. intros z Hz.
      apply (Permutation_in _ (insert_ranked_perm x l)) in Hz.
      destruct Hz as [<-|Hz]; [unfold not_above; lia|].
      rewrite List.Forall_forall in Hall. now apply Hall.
Qed.

Lemma sort_ranked_sorted l : StronglySorted not_above (sort_ranked l).
Proof.
  unfold sort_ranked. induction l as [|x l IH]; cbn [fold_right].
  - constructor.
  - now apply insert_ranked_sorted.
Qed.

Lemma in_firstn {A} n (l : list A) x : In x (firstn n l) -> In x l.
Proof.
  intros H. rewrite <- (firstn_skipn n l). apply in_or_app. now left.
Qed.

Lemma in_skipn {A} n (l : list A) x : In x (skipn n l) -> In x l.
Proof.
  intros H. rewrite <- (firstn_skipn n l). apply in_or_app. now right.
Qed.

Lemma sorted_firstn n (l : list ranked) :
  StronglySorted not_above l -> StronglySorted not_above (firstn n l).
Proof.
  revert l. induction n as [|n IH]; intros l Hs; [constructor|].
  destruct l as [|x l]; [constructor|]. cbn [firstn].
  apply StronglySorted_inv in Hs as [Hs Hall].
  constructor; [now apply IH|].
  rewrite List.Forall_forall in *. intros y Hy. apply Hall.
  now apply (in_firstn n).
Qed.

Lemma sorted_firstn_skipn n (l : list ranked) x y :
  StronglySorted not_above l ->
  In x (firstn n l) -> In y (skipn n l) -> not_above x y.
Proof.
  revert l. induction n as [|n IH]; intros l Hs Hx Hy; [destruct Hx|].
  destruct l as [|z l]; [destruct Hx|]. cbn [firstn skipn] in *.
  apply StronglySorted_inv in Hs as [Hs Hall].
  destruct Hx as [<-|Hx].
  - rewrite List.Forall_forall in Hall. apply Hall.
    now apply (in_skipn n).
  - now apply (IH l).
Qed.

Lemma get_suggestions_unfold ld rd ft :
  get_suggestions ld rd ft = firstn 5 (sort_ranked (candidates ld rd ft)).
Proof. reflexivity. Qed.

(* The two general suggestions apply to every factory type. *)
Lemma general_candidates_length ld ft : length (general_candidates ld ft) = 2%nat.
Proof.
  unfold general_candidates. rewrite length_map.
  change (db_get suggestions_db "general")
    with [ mk "gen_001" "Implement Real-time Monitoring" ["All"%string]
             "10-20% overall reduction through better control" "2-4 weeks"
             "Medium" 6;
           mk "gen_002" "Regular Equipment Maintenance" ["All"%string]
             "5-15% improvement in control efficiency" "1 week" "Low" 5 ].
  cbn [List.filter]. unfold applies. cbn [mk sg_factory_types existsb].
  change (String.eqb "All" "All") with true.
  rewrite !orb_true_r. reflexivity.
Qed.

Lemma candidates_priority ld rd ft x :
  In x (candidates ld rd ft) -> (rk_priority x <= 10)%Z.
Proof.
  unfold candidates. intros H. apply in_app_or in H as [H|H].
  - apply in_flat_map in H as (gas & _ & H). unfold gas_candidates in H.
    destruct (rd !! gas); [|destruct H].
    apply in_map_iff in H as (s & <- & _). apply Z.le_min_r.
  - unfold general_candidates in H.
    apply in_map_iff in H as (s & <- & _). apply Z.le_min_r.
Qed.

(** X11. get_suggestions returns at least two and at most five
    suggestions, ordered by priority from the highest down, none with a
    priority above 10. *)
Theorem get_suggestions_shape ld rd ft :
  (2 <= length (get_suggestions ld rd ft) <= 5)%nat /\
  StronglySorted not_above (get_suggestions ld rd ft) /\
  Forall (fun x => (rk_priority x <= 10)%Z) (get_suggestions ld rd ft).
Proof.
  rewrite get_suggestions_unfold. split; [|split].
  - rewrite length_firstn.
    rewrite (Permutation_length (sort_ranked_perm _)).
    unfold candidates. rewrite length_app, general_candidates_length. lia.
  - apply sorted_firstn, sort_ranked_sorted.
  - apply List.Forall_forall. intros x Hx. apply in_firstn in Hx.
    apply (Permutation_in _ (sort_ranked_perm _)) in Hx.
    eapply candidates_priority, Hx.
Qed.

(** X12. get_suggestions returns the best five: it returns five candidates,
    or all of them when there are fewer; what it returns, together with
    what it leaves out, is the list of all candidates; and no candidate
    left out has a higher priority than one returned. *)
Theorem get_suggestions_best_five ld rd ft :
  length (get_suggestions ld rd ft)
    = Nat.min 5 (length (candidates ld rd ft)) /\
  exists rest,
    Permutation (get_suggestions ld rd ft ++ rest) (candidates ld rd ft) /\
    forall x y, In x (get_suggestions ld rd ft) -> In y rest -> not_above x y.
Proof.
  rewrite get_suggestions_unfold. split.
  - rewrite length_firstn.
    now rewrite (Permutation_length (sort_ranked_perm _)).
  - exists (skipn 5 (sort_ranked (candidates ld rd ft))). split.
    + rewrite firstn_skipn. apply sort_ranked_perm.
    + intros x y Hx Hy.
      eapply sorted_firstn_skipn; [apply sort_ranked_sorted | exact Hx | exact Hy].
Qed.

(** X13. Every suggestion get_suggestions returns applies to the factory
    type (it lists the type or All), and it is either a general suggestion,
    ranked for pollution level 0, or a suggestion of the category of a gas
    whose reading is above the problem threshold of that gas (600 for co2,
    80 for no2, 50 for so2), ranked for that reading. *)
Theorem get_suggestions_relevant ld rd ft x :
  In x (get_suggestions ld rd ft) ->
  applies ft (rk_suggestion x) = true /\
  ((In (rk_suggestion x) (db_get suggestions_db "general") /\
    rk_priority x = _calculate_dynamic_priority ld (sg_id (rk_suggestion x)) 0) \/
   (exists gas level threshold,
      In gas AIHealthEstimator.gases /\
      rd !! gas = Some level /\ problem_thresholds !! gas = Some threshold /\
      threshold < level /\
      In (rk_suggestion x) (db_get suggestions_db (gas ++ "_reduction")%string) /\
      rk_priority x =
        _calculate_dynamic_priority ld (sg_id (rk_suggestion x)) level)).
Proof.
  rewrite get_suggestions_unfold. intros Hx. apply in_firstn in Hx.
  apply (Permutation_in _ (sort_ranked_perm _)) in Hx.
  unfold candidates in Hx. apply in_app_or in Hx as [H|H].
  - apply in_flat_map in H as (gas & Hgas & H).
    unfold problem_gases in Hgas. apply filter_In in Hgas as [Hg Hp].
    unfold is_problem in Hp. unfold gas_candidates in H.
    destruct (rd !! gas) as [level|] eqn:Hl; [|discriminate].
    destruct (problem_thresholds !! gas) as [threshold|] eqn:Ht; [|discriminate].
    apply in_map_iff in H as (s & <- & Hs). apply filter_In in Hs as [Hin Happ].
    cbn [rk_suggestion rk_priority]. split; [exact Happ|]. right.
    exists gas, level, threshold. repeat split; auto.
    apply negb_true_iff in Hp.
    apply Qnot_le_lt. intros Hle. apply Qle_bool_iff in Hle. congruence.
  - unfold general_candidates in H.
    apply in_map_iff in H as (s & <- & Hs). apply filter_In in Hs as [Hin Happ].
    cbn [rk_suggestion rk_priority]. split; [exact Happ|]. now left.
Qed.

Lemma get_suggestions_relevant_witness :
  exists x,
    In x (get_suggestions empty_learning_data {[ "no2"%string := 250 ]}
            "Steel Mill") /\
    applies "Steel Mill" (rk_suggestion x) = true.
Proof.
  assert (H : exists x,
             In x (get_suggestions empty_learning_data {[ "no2"%string := 250 ]}
                     "Steel Mill")).
  { eexists. vm_compute. left. reflexivity. }
  destruct H as [x Hx]. exists x. split; [exact Hx|].
  exact (proj1 (get_suggestions_relevant _ _ _ x Hx)).
Defined.

(* ---- get_learning_stats ---- *)

Lemma sumQ_bounds l :
  Forall (fun x => 0 <= x <= 5) l ->
  0 <= sumQ l <= 5 * inject_Z (Z.of_nat (length l)).
Proof.
  induction 1 as [|x l [Hx0 Hx5] _ IH]; cbn [sumQ fold_right length].
  - change (inject_Z (Z.of_nat 0)) with 0. lra.
  - rewrite Nat2Z.inj_succ, <- Z.add_1_r, inject_Z_plus.
    change (inject_Z 1) with 1. fold (sumQ l). lra.
Qed.

Lemma inject_Z_nat_pos n : (0 < n)%nat -> 0 < inject_Z (Z.of_nat n).
Proof. intros H. change 0 with (inject_Z 0). rewrite <- Zlt_Qlt. lia. Qed.

(** X14. get_learning_stats reports all zeros for an empty history;
    otherwise total_suggestions is the length of the history and
    implementation_rate lies in [0,100]; when all effectiveness scores are
    in [0,5], so is avg_effectiveness. *)
Theorem get_learning_stats_ranges ld :
  total_suggestions (get_learning_stats ld)
    = Z.of_nat (length (feedback_history ld)) /\
  (feedback_history ld = [] ->
     implementation_rate (get_learning_stats ld) = 0 /\
     avg_effectiveness (get_learning_stats ld) = 0) /\
  0 <= implementation_rate (get_learning_stats ld) <= 100 /\
  (scores_bounded ld -> 0 <= avg_effectiveness (get_learning_stats ld) <= 5).
Proof.
  unfold get_learning_stats.
  destruct (feedback_history ld) as [|f fs] eqn:Hh.
  - change (Z.of_nat (length (@nil feedback_entry)) =? 0)%Z with true.
    cbn [total_suggestions implementation_rate avg_effectiveness].
    repeat split; intros; repeat split; try reflexivity; lra.
  - change (Z.of_nat (length (f :: fs)) =? 0)%Z with false.
    cbn [total_suggestions implementation_rate avg_effectiveness].
    assert (Hn : (0 < length (f :: fs))%nat) by (cbn [length]; lia).
    split; [reflexivity|]. split; [discriminate|]. split.
    + set (k := length (List.filter _ (f :: fs))).
      assert (Hk : (k <= length (f :: fs))%nat) by apply filter_length_le.
      pose proof (inject_Z_nat_pos _ Hn) as Hpos.
      assert (H0 : 0 <= inject_Z (Z.of_nat k))
        by (change 0 with (inject_Z 0); rewrite <- Zle_Qle; lia).
      assert (H1 : inject_Z (Z.of_nat k) <= inject_Z (Z.of_nat (length (f :: fs))))
        by (rewrite <- Zle_Qle; lia).
      assert (F0 : 0 <= inject_Z (Z.of_nat k) / inject_Z (Z.of_nat (length (f :: fs))))
        by (apply Qle_shift_div_l; lra).
      assert (F1 : inject_Z (Z.of_nat k) / inject_Z (Z.of_nat (length (f :: fs))) <= 1)
        by (apply Qle_shift_div_r; lra).
      set (q := inject_Z (Z.of_nat k) / _) in *. lra.
    + intros Hb.
      assert (Hall : Forall (fun x => 0 <= x <= 5)
                       (map_to_list (suggestion_effectiveness ld)).*2).
      { apply List.Forall_forall. intros x Hx.
        apply list_elem_of_In, list_elem_of_fmap in Hx as ([i e] & -> & Hin).
        apply elem_of_map_to_list in Hin. exact (Hb i e Hin). }
      destruct ((map_to_list (suggestion_effectiveness ld)).*2)
        as [|x0 scores]; [lra|].
      destruct (sumQ_bounds _ Hall) as [S0 S5].
      assert (Hlen : (0 < length (x0 :: scores))%nat) by (cbn [length]; lia).
      pose proof (inject_Z_nat_pos _ Hlen) as Hpos.
      split; [apply Qle_shift_div_l; lra | apply Qle_shift_div_r; lra].
Qed.

Lemma get_learning_stats_ranges_witness :
  scores_bounded
    (record_feedback empty_learning_data "co2_001" "implemented"
       "2024-05-01T10:00:00") /\
  0 <= avg_effectiveness
         (get_learning_stats
            (record_feedback empty_learning_data "co2_001" "implemented"
               "2024-05-01T10:00:00")) <= 5.
Proof.
  assert (Hb : scores_bounded
                 (record_feedback empty_learning_data "co2_001" "implemented"
                    "2024-05-01T10:00:00")).
  { apply record_feedback_bounded.
    intros i e He. cbn in He. rewrite lookup_empty in He. discriminate. }
  split; [exact Hb|].
  exact (proj2 (proj2 (proj2 (get_learning_stats_ranges _))) Hb).
Defined.


End SuggestionFacts.

(* ===================================================================== *)
(*  Further properties: the store                                        *)
(* ===================================================================== *)

Module OutboxFacts.
Import OfflineSync SyncVocabulary SyncScenarios OutboxVocabulary StoreFacts.

(* ---- store, then read back ---- *)

Lemma select_unsynced_insert tb ts c s cr :
  select_unsynced (insert_row tb ts c s cr) =
    select_unsynced tb ++
    (if (s =? 0)%Z
     then [{| id := seq tb + 1; timestamp := ts; cols := c; synced := s;
              created_at := cr |}]
     else []).
Proof.
  unfold select_unsynced, insert_row. cbn [rows].
  rewrite List.filter_app. cbn [List.filter synced]. reflexivity.
Qed.

Lemma insert_into_unsynced self t ts c e :
  select_unsynced (db (insert_into self t ts c e) t) = unsynced_after self t ts c e /\
  forall t', t' <> t -> db (insert_into self t ts c e) t' = db self t'.
Proof.
  unfold insert_into, unsynced_after, stored_row, synced_flag. cbn [db]. split.
  - rewrite set_table_same, select_unsynced_insert.
    destruct (is_online self); reflexivity.
  - intros t' Hne. now apply set_table_other.
Qed.

(** X15. Store and read back: a record stored while is_online is False is
    the last of the unsynced records of its table afterwards, with the id
    after the table's counter, the payload and timestamp given, and
    created_at from the database clock; a record stored while is_online is
    True does not show up among the unsynced records.  The other tables do
    not change. *)
Theorem store_then_unsynced self e :
  (forall reading,
     let self' := snd (store_pollution_reading self reading e) in
     select_unsynced (db self' pollution_readings) =
       unsynced_after self pollution_readings
         (get (rd_timestamp reading) (now_iso e))
         (ReadingCols (get (rd_co2 reading) 0%Q) (get (rd_no2 reading) 0%Q)
            (get (rd_so2 reading) 0%Q)) e /\
     forall t', t' <> pollution_readings -> db self' t' = db self t') /\
  (forall alert,
     let self' := snd (store_alert self alert e) in
     select_unsynced (db self' alerts) =
       unsynced_after self alerts
         (get (ad_timestamp alert) (now_iso e))
         (AlertCols (get (ad_gas alert) EmptyString) (get (ad_level alert) 0%Q)
            (get (ad_severity alert) EmptyString)
            (get (ad_message alert) EmptyString)
            (get (ad_duration_minutes alert) 0%Q)) e /\
     forall t', t' <> alerts -> db self' t' = db self t') /\
  (forall action_type description user_id,
     let self' := snd (store_action self action_type description user_id e) in
     select_unsynced (db self' actions) =
       unsynced_after self actions (now_iso e)
         (ActionCols action_type description user_id) e /\
     forall t', t' <> actions -> db self' t' = db self t') /\
  (forall report_type content recipients_str,
     let self' := snd (store_report self report_type content recipients_str e) in
     select_unsynced (db self' reports) =
       unsynced_after self reports (now_iso e)
         (ReportCols report_type content recipients_str 0) e /\
     forall t', t' <> reports -> db self' t' = db self t').
Proof.
  repeat split; try apply insert_into_unsynced.
  all: intros t' Hne; now apply insert_into_unsynced.
Qed.

(* ---- mark, then read back ---- *)

Lemma select_unsynced_update tb ids :
  select_unsynced (update_synced tb ids) =
    List.filter (fun r => negb (existsb (Z.eqb (id r)) ids)) (select_unsynced tb).
Proof.
  unfold select_unsynced, update_synced. cbn [rows].
  induction (rows tb) as [|r l IH]; [reflexivity|].
  cbn [List.map List.filter].
  destruct (existsb (Z.eqb (id r)) ids) eqn:E.
  - cbn [synced]. change (1 =? 0)%Z with false. cbv iota.
    destruct (synced r =? 0)%Z; [cbn [List.filter]; rewrite E|]; exact IH.
  - destruct (synced r =? 0)%Z; [cbn [List.filter]; rewrite E; cbn [negb]|];
      now rewrite IH.
Qed.

(** X16. Mark and read back: mark_as_synced on one of the four tables
    returns True; afterwards the unsynced records of the table are the
    former ones without those whose id is in the list, in the same order;
    no record is added or removed, and the other tables do not change. *)
Theorem mark_then_unsynced self ids t :
  let self' := snd (mark_as_synced self (table_name_str t) ids) in
  fst (mark_as_synced self (table_name_str t) ids) = true /\
  select_unsynced (db self' t) =
    List.filter (fun r => negb (existsb (Z.eqb (id r)) ids))
      (select_unsynced (db self t)) /\
  List.map id (rows (db self' t)) = List.map id (rows (db self t)) /\
  forall t', t' <> t -> db self' t' = db self t'.
Proof.
  cbv zeta.
  rewrite (mark_as_synced_known self _ t ids) by apply table_of_str_name.
  cbn [fst snd db]. split; [reflexivity|]. split; [|split].
  - rewrite set_table_same. apply select_unsynced_update.
  - rewrite set_table_same. unfold update_synced. cbn [rows].
    rewrite List.map_map. apply List.map_ext. intros r.
    now destruct (existsb _ _).
  - intros t' Hne. now apply set_table_other.
Qed.

(* ---- ids ---- *)

Lemma sorted_snoc l x :
  StronglySorted Z.lt l -> Forall (fun y => (y < x)%Z) l ->
  StronglySorted Z.lt (l ++ [x]).
Proof.
  induction l as [|y l IH]; intros Hs Hall; cbn [app].
  - repeat constructor.
  - apply StronglySorted_inv in Hs as [Hs Hy].
    apply Forall_cons in Hall as [Hyx Hall].
    constructor; [now apply IH|].
    apply Forall_app. split; [exact Hy | now constructor].
Qed.

Lemma sorted_filter_map (f : row -> bool) l :
  StronglySorted Z.lt (List.map id l) ->
  StronglySorted Z.lt (List.map id (List.filter f l)).
Proof.
  induction l as [|r l IH]; intros Hs; cbn [List.filter List.map]; [constructor|].
  cbn [List.map] in Hs. apply StronglySorted_inv in Hs as [Hs Hr].
  destruct (f r); [|now apply IH].
  cbn [List.map]. constructor; [now apply IH|].
  rewrite List.Forall_forall in *. intros y Hy. apply Hr.
  apply in_map_iff in Hy as (r' & <- & Hin).
  apply in_map. now apply filter_In in Hin as [Hin _].
Qed.

Lemma table_change_increasing tb tb' :
  tb' = tb \/
  (exists ts c s cr, tb' = insert_row tb ts c s cr) \/
  (exists ids, tb' = update_synced tb ids) \/
  (exists cutoff, tb' = delete_old tb cutoff) ->
  bounded tb -> ids_increasing tb -> ids_increasing tb'.
Proof.
  unfold ids_increasing. intros H Hb Hs.
  destruct H as [->|[(ts & c & s & cr & ->)|[(ids & ->)|(cutoff & ->)]]].
  - exact Hs.
  - unfold insert_row. cbn [rows]. rewrite List.map_app. cbn [List.map id].
    apply sorted_snoc; [exact Hs|].
    apply List.Forall_forall. intros y Hy.
    apply in_map_iff in Hy as (r & <- & Hr). specialize (Hb r Hr). lia.
  - unfold update_synced. cbn [rows].
    rewrite List.map_map.
    erewrite List.map_ext; [exact Hs|].
    intros r. now destruct (existsb _ _).
  - unfold delete_old. cbn [rows]. now apply sorted_filter_map.
Qed.

Lemma run_ops_wf ops : forall self,
  (forall t, bounded (db self t)) -> (forall t, ids_increasing (db self t)) ->
  (forall t, bounded (db (run_ops self ops) t)) /\
  (forall t, ids_increasing (db (run_ops self ops) t)) /\
  (forall t, (seq (db self t) <= seq (db (run_ops self ops) t))%Z).
Proof.
  unfold run_ops.
  induction ops as [|o ops IH]; intros self Hb Hs; cbn [fold_left].
  - repeat split; auto. intros; lia.
  - assert (Hb' : forall t, bounded (db (step self o) t)).
    { intros t. now apply (table_change_bounded (db self t)), Hb; apply step_table. }
    assert (Hs' : forall t, ids_increasing (db (step self o) t)).
    { intros t. apply (table_change_increasing (db self t)); auto using step_table. }
    destruct (IH (step self o) Hb' Hs') as (Hb2 & Hs2 & Hseq).
    split; [exact Hb2|]. split; [exact Hs2|].
    intros t. specialize (Hseq t).
    destruct (table_change_bounded (db self t) (db (step self o) t)
                (step_table self o t) (Hb t)) as [_ Hle]. lia.
Qed.

Lemma sorted_lt_NoDup l : StronglySorted Z.lt l -> NoDup l.
Proof.
  induction 1 as [|x l Hs IH Hall]; constructor; [|exact IH].
  intros Hin. apply list_elem_of_In in Hin.
  rewrite List.Forall_forall in Hall. specialize (Hall x Hin). lia.
Qed.

(** X17. Ids are handed out in increasing order and never twice: from a new
    database, after any sequence of stores, mark_as_synced calls, sync
    cycles, status checks and cleanups, the ids of every table grow
    strictly along its rows (so no two records share an id), none exceeds
    the table's AUTOINCREMENT counter, and the counter never decreases. *)
Theorem ids_strictly_increasing online ops t :
  ids_increasing (db (run_ops (fresh online) ops) t) /\
  NoDup (List.map id (rows (db (run_ops (fresh online) ops) t))) /\
  bounded (db (run_ops (fresh online) ops) t) /\
  (forall more,
     (seq (db (run_ops (fresh online) ops) t)
      <= seq (db (run_ops (run_ops (fresh online) ops) more) t))%Z).
Proof.
  assert (Hb0 : forall t', bounded (db (fresh online) t'))
    by (intros t' r []).
  assert (Hs0 : forall t', ids_increasing (db (fresh online) t'))
    by (intros t'; constructor).
  destruct (run_ops_wf ops (fresh online) Hb0 Hs0) as (Hb & Hs & _).
  split; [apply Hs|]. split; [apply sorted_lt_NoDup, Hs|]. split; [apply Hb|].
  intros more.
  destruct (run_ops_wf more (run_ops (fresh online) ops) Hb Hs) as (_ & _ & Hseq).
  apply Hseq.
Qed.

Lemma same_record_refl r : same_record r r.
Proof. repeat split. Qed.

Lemma same_record_trans r1 r2 r3 :
  same_record r1 r2 -> same_record r2 r3 -> same_record r1 r3.
Proof. unfold same_record. intuition congruence. Qed.

Lemma table_change_identity tb tb' r' :
  tb' = tb \/
  (exists ts c s cr, tb' = insert_row tb ts c s cr) \/
  (exists ids, tb' = update_synced tb ids) \/
  (exists cutoff, tb' = delete_old tb cutoff) ->
  In r' (rows tb') -> (id r' <= seq tb)%Z ->
  exists r, In r (rows tb) /\ same_record r r'.
Proof.
  intros H Hin Hid.
  destruct H as [->|[(ts & c & s & cr & ->)|[(ids & ->)|(cutoff & ->)]]].
  - exists r'. split; [exact Hin | apply same_record_refl].
  - unfold insert_row in Hin. cbn [rows] in Hin.
    apply in_app_or in Hin as [Hin|[<-|[]]].
    + exists r'. split; [exact Hin | apply same_record_refl].
    + cbn [id] in Hid. lia.
  - unfold update_synced in Hin. cbn [rows] in Hin.
    apply in_map_iff in Hin as (r & <- & Hr).
    exists r. split; [exact Hr|].
    destruct (existsb _ _); repeat split.
  - unfold delete_old in Hin. cbn [rows] in Hin.
    apply filter_In in Hin as [Hin _].
    exists r'. split; [exact Hin | apply same_record_refl].
Qed.

(** X18. An id is never reused: whatever happens to the store (stores,
    marks, sync cycles, status checks, cleanups), a record found afterwards
    under an id that the table's counter had already reached is one of the
    records the table had before, with the same timestamp, payload and
    created_at. *)
Theorem ids_never_reused ops : forall self t r',
  (forall t', bounded (db self t')) ->
  In r' (rows (db (run_ops self ops) t)) ->
  (id r' <= seq (db self t))%Z ->
  exists r, In r (rows (db self t)) /\ same_record r r'.
Proof.
  unfold run_ops.
  induction ops as [|o ops IH]; intros self t r' Hb Hin Hid; cbn [fold_left] in Hin.
  - exists r'. split; [exact Hin | apply same_record_refl].
  - assert (Hb' : forall t', bounded (db (step self o) t')).
    { intros t'. now apply (table_change_bounded (db self t')), Hb; apply step_table. }
    destruct (table_change_bounded (db self t) (db (step self o) t)
                (step_table self o t) (Hb t)) as [_ Hle].
    destruct (IH (step self o) t r' Hb' Hin) as (r1 & Hr1 & Hsame1); [lia|].
    destruct (table_change_identity (db self t) (db (step self o) t) r1
                (step_table self o t) Hr1) as (r & Hr & Hsame).
    + destruct Hsame1 as [E _]. lia.
    + exists r. split; [exact Hr|]. eapply same_record_trans; eauto.
Qed.

Lemma ids_never_reused_witness :
  (forall t', bounded (db old_store t')) /\
  forall r',
    In r' (rows (db (run_ops old_store
                       [Cleanup "2024-03-01T00:00:00.000000";
                        StoreReading a_reading (world true (always true))])
                  pollution_readings)) ->
    (id r' <= 2)%Z ->
    exists r, In r (rows (db old_store pollution_readings)) /\ same_record r r'.
Proof.
  assert (Hb : forall t', bounded (db old_store t')).
  { intros t' r Hr. cbn in Hr. destruct Hr as [<-|[<-|[]]]; cbn; lia. }
  split; [exact Hb|].
  intros r' Hin Hid.
  exact (ids_never_reused _ old_store pollution_readings r' Hb Hin Hid).
Defined.

(* ---- the background worker ---- *)

(** X19. The background worker does not recover on its own: while
    is_online is False, any number of sync_worker iterations leave the
    object as it is; and an iteration whose cycle ends with the probe
    answering offline sets is_online to False, so that all later
    iterations do nothing.  The attribute is set by get_sync_status alone:
    a status check and a sync cycle that runs (a forced one, or the
    worker's while online) leave it at what the probe answers, and every
    other operation leaves it as it was. *)
Theorem sync_worker_stays_offline :
  (forall es self,
     is_online self = false ->
     run_ops self (List.map SyncWorker es) = self) /\
  (forall self e es,
     is_online self = true -> connectivity e = false ->
     is_online (fst (sync_worker_iteration self e)) = false /\
     run_ops self (SyncWorker e :: List.map SyncWorker es)
       = fst (sync_worker_iteration self e)) /\
  (forall self o,
     is_online (step self o) =
       match o with
       | GetSyncStatus e | ForceSync e => connectivity e
       | SyncWorker e => is_online self && connectivity e
       | _ => is_online self
       end).
Proof.
  assert (Hoff : forall es self,
            is_online self = false ->
            run_ops self (List.map SyncWorker es) = self).
  { unfold run_ops. induction es as [|e es IH]; intros self H; [reflexivity|].
    cbn [List.map fold_left step]. unfold sync_worker_iteration.
    rewrite H. cbn [fst]. now apply IH. }
  assert (Hcycle : forall self e,
            is_online (after (_perform_sync self e)) = connectivity e).
  { intros self e. now destruct (perform_sync_spec self e) as (_ & _ & Hflag & _). }
  split; [exact Hoff|]. split.
  - intros self e es Hon Hc.
    assert (Hflag : is_online (fst (sync_worker_iteration self e)) = false).
    { unfold sync_worker_iteration. rewrite Hon.
      specialize (Hcycle self e). unfold after in Hcycle.
      destruct (_perform_sync self e) as [[ok self'] log]. cbn [fst snd] in *.
      congruence. }
    split; [exact Hflag|].
    change (run_ops self (SyncWorker e :: List.map SyncWorker es))
      with (run_ops (fst (sync_worker_iteration self e)) (List.map SyncWorker es)).
    now apply Hoff.
  - intros self o. destruct o; cbn [step]; try reflexivity.
    + unfold mark_as_synced. now destruct (table_of_str tbl).
    + apply Hcycle.
    + unfold sync_worker_iteration.
      destruct (is_online self) eqn:Hon; [|exact Hon].
      specialize (Hcycle self e). unfold after in Hcycle.
      destruct (_perform_sync self e) as [[ok self'] log]. cbn [fst snd] in *.
      exact Hcycle.
Qed.

Lemma sync_worker_stays_offline_witness :
  is_online backlog = false /\
  run_ops backlog
    [SyncWorker (world true (always true));
     SyncWorker (world true (always true))] = backlog.
Proof.
  assert (H : is_online backlog = false) by reflexivity.
  split; [exact H|].
  exact (proj1 sync_worker_stays_offline
           [world true (always true); world true (always true)] backlog H).
Defined.

(* ---- what a sync cycle touches ---- *)

Lemma update_synced_keeps_rows tb ids :
  Forall2 (fun r r' => r' = r \/ r' = set_synced r)
    (rows tb) (rows (update_synced tb ids)) /\
  seq (update_synced tb ids) = seq tb.
Proof.
  split; [|reflexivity].
  unfold update_synced. cbn [rows].
  induction (rows tb) as [|r l IH]; cbn [List.map]; constructor; [|exact IH].
  destruct (existsb _ _); [now right | now left].
Qed.

Lemma Forall2_same_rows (l : list row) :
  Forall2 (fun r r' => r' = r \/ r' = set_synced r) l l.
Proof. induction l; constructor; auto. Qed.

Lemma in_pushes_of_inv snap ts name recs :
  In (name, recs) (pushes_of snap ts) ->
  exists t, In t ts /\ name = table_name_str t /\
            recs = select_unsynced (snap t) /\ recs <> [].
Proof.
  unfold pushes_of. intros H. apply in_flat_map in H as (t & Ht & H).
  destruct (select_unsynced (snap t)) as [|r0 l] eqn:E; [destruct H|].
  destruct H as [[= <- <-]|[]].
  exists t. repeat split; auto; discriminate.
Qed.

Lemma pushes_of_nil snap ts :
  (forall t, select_unsynced (snap t) = []) -> pushes_of snap ts = [].
Proof.
  intros H. unfold pushes_of. induction ts as [|t ts IH]; [reflexivity|].
  cbn [flat_map]. now rewrite H, IH.
Qed.

(** X20. A sync cycle only sets synced flags: in every table it keeps the
    records and their order, each record staying as it is or getting
    synced = 1, and it keeps the id counter.  Every batch it pushes is the
    whole list of unsynced records of one table, and never empty; with
    nothing unsynced it pushes nothing and changes no table.  The cycle
    always returns True and records the time of the call as last_sync. *)
Theorem sync_cycle_only_sets_flags self e :
  (forall t,
     Forall2 (fun r r' => r' = r \/ r' = set_synced r)
       (rows (db self t)) (rows (db (after (_perform_sync self e)) t)) /\
     seq (db (after (_perform_sync self e)) t) = seq (db self t)) /\
  (forall name recs,
     In (name, recs) (pushed (_perform_sync self e)) ->
     exists t, name = table_name_str t /\
               recs = select_unsynced (db self t) /\ recs <> []) /\
  ((forall t, select_unsynced (db self t) = []) ->
     pushed (_perform_sync self e) = [] /\
     forall t, db (after (_perform_sync self e)) t = db self t) /\
  fst (fst (_perform_sync self e)) = true /\
  last_sync (after (_perform_sync self e)) = Some (now_iso e).
Proof.
  destruct (perform_sync_spec self e) as (Hok & Hdb & _ & Hls & Hlog).
  split; [|split; [|split; [|split; [exact Hok | exact Hls]]]].
  - intros t. rewrite Hdb. unfold sync_result.
    destruct (select_unsynced (db self t)) as [|r0 l];
      [split; [apply Forall2_same_rows | reflexivity]|].
    destruct (remote e _ _);
      [apply update_synced_keeps_rows
      | split; [apply Forall2_same_rows | reflexivity]].
  - intros name recs H. rewrite Hlog in H.
    apply in_pushes_of_inv in H as (t & _ & Hrest). eauto.
  - intros Hnone. split.
    + rewrite Hlog. now apply pushes_of_nil.
    + intros t. rewrite Hdb. unfold sync_result. now rewrite Hnone.
Qed.

Lemma sync_cycle_only_sets_flags_witness :
  (forall t, select_unsynced (db (fresh true) t) = []) /\
  pushed (_perform_sync (fresh true) (world true (always true))) = [].
Proof.
  assert (H : forall t, select_unsynced (db (fresh true) t) = [])
    by (intros t; reflexivity).
  split; [exact H|].
  exact (proj1 (proj1 (proj2 (proj2 (sync_cycle_only_sets_flags (fresh true)
                  (world true (always true))))) H)).
Defined.

(* ---- a cycle that succeeds ---- *)

Lemma pending_status self e :
  st_pending_records (fst (get_sync_status self e)) = pending self.
Proof.
  unfold get_sync_status, pending, unsynced_count, get_unsynced_data, tables.
  cbn. lia.
Qed.

(** X21. When the remote accepts every push of a cycle, no record is left
    unsynced: get_sync_status then reports 0 pending records, and a second
    cycle right after it pushes nothing. *)
Theorem successful_cycle_drains_outbox self e e' :
  (forall name recs, remote e name recs = true) ->
  (forall t, select_unsynced (db (after (_perform_sync self e)) t) = []) /\
  st_pending_records (fst (get_sync_status (after (_perform_sync self e)) e')) = 0%nat /\
  pushed (_perform_sync (after (_perform_sync self e)) e') = [].
Proof.
  intros Hok.
  assert (Hnone : forall t,
            select_unsynced (db (after (_perform_sync self e)) t) = []).
  { intros t. destruct (perform_sync_spec self e) as (_ & Hdb & _).
    rewrite Hdb. unfold sync_result. rewrite Hok.
    destruct (select_unsynced (db self t)) as [|r0 l] eqn:E; [exact E|].
    rewrite <- E. apply select_unsynced_all_marked. }
  split; [exact Hnone|]. split.
  - rewrite pending_status. unfold pending, unsynced_count.
    now rewrite !Hnone.
  - destruct (perform_sync_spec (after (_perform_sync self e)) e')
      as (_ & _ & _ & _ & Hlog).
    rewrite Hlog. now apply pushes_of_nil.
Qed.

Lemma successful_cycle_drains_outbox_witness :
  (forall name recs, remote (world true (always true)) name recs = true) /\
  pending backlog = 8%nat /\
  st_pending_records
    (fst (get_sync_status
            (after (_perform_sync backlog (world true (always true))))
            (world true (always true)))) = 0%nat.
Proof.
  assert (H : forall name recs, remote (world true (always true)) name recs = true)
    by reflexivity.
  split; [exact H|]. split; [reflexivity|].
  exact (proj1 (proj2 (successful_cycle_drains_outbox backlog
                  (world true (always true)) (world true (always true)) H))).
Defined.

(* ---- cleanup ---- *)

Lemma select_unsynced_delete_old tb cutoff :
  select_unsynced (delete_old tb cutoff) = select_unsynced tb.
Proof.
  unfold select_unsynced, delete_old. cbn [rows].
  induction (rows tb) as [|r l IH]; [reflexivity|].
  cbn [List.filter].
  destruct (synced r =? 0)%Z eqn:E.
  - apply Z.eqb_eq in E.
    replace (synced r =? 1)%Z with false by (rewrite E; reflexivity).
    cbn [andb negb List.filter]. rewrite E. cbn. now rewrite IH.
  - destruct (negb _); [cbn [List.filter]; rewrite E|]; exact IH.
Qed.

Lemma delete_old_idem tb cutoff :
  delete_old (delete_old tb cutoff) cutoff = delete_old tb cutoff.
Proof.
  unfold delete_old. cbn [rows seq]. f_equal.
  induction (rows tb) as [|r l IH]; [reflexivity|].
  cbn [List.filter].
  destruct (negb _) eqn:E; [cbn [List.filter]; rewrite E; now f_equal | exact IH].
Qed.

(** X22. cleanup_old_data never touches what is still to be synced:
    get_unsynced_data and the pending count are the same before and after;
    it keeps every table's id counter, so ids of deleted records are not
    handed out again; and running it a second time with the same cutoff
    deletes nothing more. *)
Theorem cleanup_keeps_outbox self cutoff_time :
  get_unsynced_data (cleanup_old_data self cutoff_time) = get_unsynced_data self /\
  pending (cleanup_old_data self cutoff_time) = pending self /\
  (forall t, seq (db (cleanup_old_data self cutoff_time) t) = seq (db self t)) /\
  (forall t,
     db (cleanup_old_data (cleanup_old_data self cutoff_time) cutoff_time) t
       = db (cleanup_old_data self cutoff_time) t).
Proof.
  split; [|split; [|split]].
  - unfold get_unsynced_data, cleanup_old_data. cbn [db].
    apply List.map_ext. intros t. now rewrite select_unsynced_delete_old.
  - unfold pending, unsynced_count, cleanup_old_data. cbn [db].
    now rewrite !select_unsynced_delete_old.
  - reflexivity.
  - intros t. cbn [cleanup_old_data db]. apply delete_old_idem.
Qed.

(* ---- status and storage statistics ---- *)

Lemma filter_length_le' {A} (f : A -> bool) l :
  (length (List.filter f l) <= length l)%nat.
Proof.
  induction l as [|x l IH]; cbn [List.filter length]; [lia|].
  destruct (f x); cbn [length]; lia.
Qed.

(** X23. get_sync_status reports what the probe answers and the number of
    unsynced records over the four tables, which is also the sum of the
    unsynced counts of get_storage_stats, and it leaves the tables alone;
    no table has more unsynced records than records.  A record stored
    right after a status check raises the pending count by one when the
    probe answered offline and leaves it unchanged when it answered
    online. *)
Theorem sync_status_counts_pending self e :
  st_online (fst (get_sync_status self e)) = connectivity e /\
  st_pending_records (fst (get_sync_status self e)) =
    (snd (table_stats self pollution_readings) + snd (table_stats self alerts) +
     snd (table_stats self actions) + snd (table_stats self reports))%nat /\
  (forall t, (snd (table_stats self t) <= fst (table_stats self t))%nat) /\
  db (snd (get_sync_status self e)) = db self /\
  (forall reading e1 e2,
     st_pending_records
       (fst (get_sync_status
               (snd (store_pollution_reading (snd (get_sync_status self e))
                       reading e1)) e2)) =
     (st_pending_records (fst (get_sync_status self e)) +
      (if connectivity e then 0 else 1))%nat).
Proof.
  split; [reflexivity|]. split; [apply pending_status|].
  split; [intros t; apply filter_length_le'|]. split; [reflexivity|].
  intros reading e1 e2. rewrite !pending_status.
  unfold pending, unsynced_count, store_pollution_reading. cbn [snd].
  set (s1 := snd (get_sync_status self e)).
  destruct (insert_into_unsynced s1 pollution_readings
              (get (rd_timestamp reading) (now_iso e1))
              (ReadingCols (get (rd_co2 reading) 0%Q) (get (rd_no2 reading) 0%Q)
                 (get (rd_so2 reading) 0%Q)) e1) as [Hun Hother].
  rewrite Hun, !Hother by discriminate.
  unfold unsynced_after. rewrite length_app.
  change (is_online s1) with (connectivity e).
  change (db s1) with (db self).
  destruct (connectivity e); cbn [length]; lia.
Qed.

End OutboxFacts.
